(** * EC2 monitoring script: a shallow embedding of [ec2_monitor.py]

    The script provisions CloudWatch alarms once, then lets the [schedule]
    package call [record_metrics] every minute and [send_weekly_summary]
    every Sunday.  The embedding below follows the Python text function by
    function.

    Modelling conventions:
    - Python objects that travel through [json] are values of type [value];
      a [dict] keeps insertion order and assigns in place, as CPython does.
    - A Python [float] is a finite binary64 number and [VFloat q] carries
      its exact value, a rational.  The arithmetic of the weekly report
      rounds as CPython does on IEEE-754 hardware (to nearest, ties to
      even, subnormal numbers included; [sum] adds from left to right with
      one rounding per step, as CPython does up to version 3.11).  The two
      zeros are one; results of magnitude 2^1024 and more, where Python
      has [inf], [nan] or [OverflowError], are outside the model.
    - boto3, the file system and the clock are the environment: every call
      into them is answered by a field of [env], and what the script does to
      them is recorded in [state].  A call into boto3 either succeeds or
      raises [ClientError], the one exception the script prepares for; the
      other errors of botocore (no credentials, no connection, a parameter
      that fails validation) are outside the model, and every statement
      below about an outcome of such a call is about these two cases.
    - The records handed to [logging] are kept in [log]: they are what the
      process appends to the file [config['log_file']].  [files] holds the
      other files, so a statement about [files] is about the paths other
      than [config['log_file']].
    - A line of a text file written by [json.dump] is identified with the
      JSON value it denotes ([json.loads] of the text [json.dump] wrote);
      a file with a line that [json.loads] rejects is outside the model.
    - An exception leaves the effects that happened before it in place:
      a computation is a function [state -> result A * state]. *)

From Stdlib Require Import String Ascii List Bool ZArith NArith QArith Qabs Qpower Lia Sorted.
From Stdlib Require Import DecimalString.
Import ListNotations.
Open Scope list_scope.
Open Scope string_scope.

(* ------------------------------------------------------------------ *)
(** ** Python values and dictionaries *)

Set Warnings "-register-all".

Inductive value : Type :=
| VNone
| VBool (b : bool)
| VInt (z : Z)
| VFloat (q : Q)
| VStr (s : string)
| VList (l : list value)
| VDict (d : list (string * value)).

(** [dict V]: string-keyed Python dictionary, in insertion order. *)
Definition dict (V : Type) : Type := list (string * V).

Fixpoint dict_get {V} (d : dict V) (k : string) : option V :=
  match d with
  | [] => None
  | (k', v) :: r => if String.eqb k' k then Some v else dict_get r k
  end.

(** [d[k] = v]: an existing key keeps its position, a new one goes last. *)
Fixpoint dict_set {V} (d : dict V) (k : string) (v : V) : dict V :=
  match d with
  | [] => [(k, v)]
  | (k', v') :: r =>
      if String.eqb k' k then (k', v) :: r else (k', v') :: dict_set r k v
  end.

Definition dict_keys {V} (d : dict V) : list string := map fst d.

(* ------------------------------------------------------------------ *)
(** ** Exceptions *)

Inductive exn : Type :=
| ClientError (msg : string)   (* botocore.exceptions.ClientError *)
| IOError (msg : string)       (* OSError and its subclasses *)
| KeyError (key : string)
| IndexError
| TypeError
| ValueError.

Definition hex_digit (n : N) : ascii :=
  if (n <? 10)%N then ascii_of_N (48 + n) else ascii_of_N (87 + n).

Fixpoint contains (c : ascii) (s : string) : bool :=
  match s with
  | EmptyString => false
  | String c' r => Ascii.eqb c' c || contains c r
  end.

Definition backslash : ascii := ascii_of_nat 92.
Definition double_quote : ascii := ascii_of_nat 34.

(** One character inside [repr(s)]: the backslash and the enclosing quote
    are escaped, tab, newline and carriage return have their letters, the
    other control characters are written [\xNN].  A byte above 127 is part
    of a character the text encodes and is kept, as [repr] keeps a
    printable character. *)
Definition repr_char (quote c : ascii) : string :=
  let n := N_of_ascii c in
  if Ascii.eqb c quote || Ascii.eqb c backslash then String backslash (String c "")
  else if (n =? 9)%N then String backslash "t"
  else if (n =? 10)%N then String backslash "n"
  else if (n =? 13)%N then String backslash "r"
  else if ((n <? 32) || (n =? 127))%N
       then String backslash
              (String "x" (String (hex_digit (n / 16)) (String (hex_digit (n mod 16)) "")))
  else String c "".

Fixpoint repr_chars (quote : ascii) (s : string) : string :=
  match s with
  | EmptyString => ""
  | String c r => repr_char quote c ++ repr_chars quote r
  end.

(** [repr(s)] of a text: in single quotes, unless the text has a single
    quote and no double quote. *)
Definition py_repr (s : string) : string :=
  let quote := if contains "'" s && negb (contains double_quote s)
               then double_quote else "'"%char in
  String quote (repr_chars quote s ++ String quote "").

(** [str(e)], as the f-strings of the script print it: the message of a
    [ClientError] or an [IOError], and for a [KeyError] the [repr] of the
    key.  The handlers that print an exception meet only these three (the
    [KeyError] of a missing threshold, in the setup); the other texts are
    never printed and stand for the several messages Python has. *)
Definition exn_str (e : exn) : string :=
  match e with
  | ClientError msg => msg
  | IOError msg => msg
  | KeyError key => py_repr key
  | IndexError => "list index out of range"
  | TypeError => "unsupported operand type(s)"
  | ValueError => "max() arg is an empty sequence"
  end.

Inductive result (A : Type) : Type :=
| Ok (a : A)
| Raise (e : exn).
Arguments Ok {A} a.
Arguments Raise {A} e.

(* ------------------------------------------------------------------ *)
(** ** datetime *)

Record datetime : Type := mkDatetime {
  year : N; month : N; day : N;
  hour : N; minute : N; second : N; microsecond : N }.

(** The ranges the [datetime] class enforces (the day bound is the
    coarse one, 31, for every month). *)
Definition datetime_valid (d : datetime) : bool :=
  ((1 <=? year d) && (year d <=? 9999) &&
   (1 <=? month d) && (month d <=? 12) &&
   (1 <=? day d) && (day d <=? 31) &&
   (hour d <? 24) && (minute d <? 60) && (second d <? 60) &&
   (microsecond d <? 1000000))%N.

(** Naive datetimes compare field by field, most significant first; on
    valid datetimes that is the order of this mixed-radix number. *)
Definition datetime_ordinal (d : datetime) : N :=
  ((((((year d * 13 + month d) * 32 + day d) * 24 + hour d) * 60
      + minute d) * 60 + second d) * 1000000 + microsecond d)%N.

Definition datetime_le (a b : datetime) : Prop :=
  (datetime_ordinal a <= datetime_ordinal b)%N.

Definition digit (n : N) : ascii := ascii_of_N (48 + n mod 10).

(** ["%0{width}d" % n] for [n < 10 ^ width]. *)
Fixpoint zero_pad (width : nat) (n : N) : string :=
  match width with
  | O => ""
  | S w => zero_pad w (n / 10) ++ String (digit n) ""
  end.

(** [datetime.isoformat(sep)] of a naive datetime: the microseconds are
    printed only when they are not zero. *)
Definition isoformat (sep : ascii) (d : datetime) : string :=
  zero_pad 4 (year d) ++ "-" ++ zero_pad 2 (month d) ++ "-"
  ++ zero_pad 2 (day d) ++ String sep ""
  ++ zero_pad 2 (hour d) ++ ":" ++ zero_pad 2 (minute d) ++ ":"
  ++ zero_pad 2 (second d)
  ++ (if (microsecond d =? 0)%N then ""
      else "." ++ zero_pad 6 (microsecond d)).

(** [str(d)] is [d.isoformat(' ')]. *)
Definition datetime_str (d : datetime) : string := isoformat " " d.

(* ------------------------------------------------------------------ *)
(** ** Configuration, environment and observable state *)

(** [configurations/config.json], with the keys the script reads. *)
Record config : Type := mkConfig {
  region : string;
  instances : list string;
  stats : list string;
  thresholds : dict (dict value);
  email : string;
  log_file : string;
  metrics : string;            (* config['metrics'] *)
  data_file : string;          (* config['data_file'] *)
  sns_topic_name : string;
  error_topic_arn : string }.

(** One element of [response['Datapoints']]. *)
Record datapoint : Type := mkDatapoint {
  Timestamp : datetime;
  Average : Q;
  Unit : string }.

(** Keyword arguments of [cloudwatch.put_metric_alarm]. *)
Record alarm : Type := mkAlarm {
  AlarmName : string;
  MetricName : string;
  Namespace : string;
  Statistic : string;
  Period : Z;
  EvaluationPeriods : Z;
  Threshold : value;
  ComparisonOperator : string;
  AlarmActions : list string;
  Dimensions : list (string * string) }.

(** Keyword arguments of [sns.publish]. *)
Record sns_message : Type := mkMessage {
  TopicArn : string;
  Subject : string;
  Message : string }.

Inductive level : Type := DEBUG | INFO | ERROR.

(** Records of the [logging] module.  The two debug records that print the
    [repr] of a Python object keep the object instead of its text. *)
Inductive log_record : Type :=
| LogText (lvl : level) (msg : string)
| LogResponse (stat instance_id : string) (data_points : list datapoint)
| LogMetricsData (metrics_data : value).

(** What the outside world answers during one job run.  [None] in an
    [_error] field means the call succeeds, [Some msg] that it raises. *)
Record env : Type := mkEnv {
  utcnow : datetime;
  (* cloudwatch.get_metric_statistics, by MetricName and InstanceId:
     [inl msg] is a ClientError, [inr l] is response['Datapoints'].  The
     window [utcnow - 5 min, utcnow] is fixed by [utcnow], and a query
     repeated within the run is answered alike. *)
  metric_statistics : string -> string -> string + list datapoint;
  put_metric_alarm_error : alarm -> option string;
  create_topic_response : string -> string + string;
  subscribe_error : string -> string -> option string;
  publish_error : sns_message -> option string;
  open_append_error : string -> option string }.

Record state : Type := mkState {
  log : list log_record;             (* records handed to logging *)
  published : list sns_message;      (* messages SNS accepted *)
  alarms : list alarm;               (* alarms CloudWatch accepted *)
  subscriptions : list (string * string);
  files : dict (list value);         (* path -> lines *)
  stdout : list string }.

(* ------------------------------------------------------------------ *)
(** ** Computations with effects and exceptions *)

Definition M (A : Type) : Type := state -> result A * state.

Definition ret {A} (a : A) : M A := fun st => (Ok a, st).

Definition raise {A} (e : exn) : M A := fun st => (Raise e, st).

Definition bind {A B} (c : M A) (k : A -> M B) : M B :=
  fun st =>
    match c st with
    | (Ok a, st') => k a st'
    | (Raise e, st') => (Raise e, st')
    end.

Declare Scope py_scope.
Delimit Scope py_scope with py.
Notation "x <- c ;; k" := (bind c (fun x => k))
  (at level 100, c at next level, right associativity) : py_scope.
Notation "c ;; k" := (bind c (fun _ => k))
  (at level 100, right associativity) : py_scope.
Open Scope py_scope.

(** [try: body  except <kinds the handler answers>: handler].  An
    exception the handler does not answer passes through. *)
Definition try_except {A} (body : M A) (handler : exn -> option (M A)) : M A :=
  fun st =>
    match body st with
    | (Ok a, st') => (Ok a, st')
    | (Raise e, st') =>
        match handler e with
        | Some h => h st'
        | None => (Raise e, st')
        end
    end.

Definition lift {A} (r : result A) : M A := fun st => (r, st).

(** [for x in l: body(x)]. *)
Fixpoint for_each {A} (l : list A) (body : A -> M unit) : M unit :=
  match l with
  | [] => ret tt
  | x :: r => body x ;; for_each r body
  end.

(** A [for] loop that updates one local object. *)
Fixpoint for_fold {A B} (l : list A) (acc : B) (body : B -> A -> M B) : M B :=
  match l with
  | [] => ret acc
  | x :: r => acc' <- body acc x ;; for_fold r acc' body
  end.

(** A [for] loop that appends one object per round to a local list. *)
Fixpoint for_collect {A B} (l : list A) (body : A -> M B) : M (list B) :=
  match l with
  | [] => ret []
  | x :: r => y <- body x ;; ys <- for_collect r body ;; ret (y :: ys)
  end.

(** *** Primitive effects *)

Definition logging (r : log_record) : M unit :=
  fun st => (Ok tt, mkState ((log st ++ [r])%list) (published st) (alarms st)
                            (subscriptions st) (files st) (stdout st)).

Definition logging_debug (msg : string) : M unit := logging (LogText DEBUG msg).
Definition logging_info (msg : string) : M unit := logging (LogText INFO msg).
Definition logging_error (msg : string) : M unit := logging (LogText ERROR msg).

Definition print (msg : string) : M unit :=
  fun st => (Ok tt, mkState (log st) (published st) (alarms st)
                            (subscriptions st) (files st) ((stdout st ++ [msg])%list)).

Definition sns_publish (e : env) (m : sns_message) : M unit :=
  fun st =>
    match publish_error e m with
    | Some msg => (Raise (ClientError msg), st)
    | None => (Ok tt, mkState (log st) ((published st ++ [m])%list) (alarms st)
                              (subscriptions st) (files st) (stdout st))
    end.

Definition sns_create_topic (e : env) (name : string) : M string :=
  fun st =>
    match create_topic_response e name with
    | inl msg => (Raise (ClientError msg), st)
    | inr arn => (Ok arn, st)
    end.

Definition sns_subscribe (e : env) (topic_arn endpoint : string) : M unit :=
  fun st =>
    match subscribe_error e topic_arn endpoint with
    | Some msg => (Raise (ClientError msg), st)
    | None => (Ok tt, mkState (log st) (published st) (alarms st)
                              ((subscriptions st ++ [(topic_arn, endpoint)])%list)
                              (files st) (stdout st))
    end.

Definition cloudwatch_put_metric_alarm (e : env) (a : alarm) : M unit :=
  fun st =>
    match put_metric_alarm_error e a with
    | Some msg => (Raise (ClientError msg), st)
    | None => (Ok tt, mkState (log st) (published st) ((alarms st ++ [a])%list)
                              (subscriptions st) (files st) (stdout st))
    end.

Definition cloudwatch_get_metric_statistics (e : env)
    (MetricName InstanceId : string) : M (list datapoint) :=
  fun st =>
    match metric_statistics e MetricName InstanceId with
    | inl msg => (Raise (ClientError msg), st)
    | inr data_points => (Ok data_points, st)
    end.

Definition file_lines (st : state) (path : string) : list value :=
  match dict_get (files st) path with
  | Some lines => lines
  | None => []
  end.

(** [with open(path, 'a') as f: json.dump(obj, f); f.write('\n')]:
    one more line, or [IOError] and the file as it was. *)
Definition append_json_line (e : env) (path : string) (obj : value) : M unit :=
  fun st =>
    match open_append_error e path with
    | Some msg => (Raise (IOError msg), st)
    | None => (Ok tt, mkState (log st) (published st) (alarms st)
                              (subscriptions st)
                              (dict_set (files st) path ((file_lines st path ++ [obj])%list))
                              (stdout st))
    end.

(** [with open(path) as f: [json.loads(line) for line in f]]; a file that
    is not there gives [FileNotFoundError], an [IOError]. *)
Definition read_json_lines (path : string) : M (list value) :=
  fun st =>
    match dict_get (files st) path with
    | Some lines => (Ok lines, st)
    | None =>
        (Raise (IOError ("[Errno 2] No such file or directory: " ++ py_repr path)),
         st)
    end.

(* ------------------------------------------------------------------ *)
(** ** The script *)

Definition LF : string := String (ascii_of_nat 10) "".

(** [notify_stakeholders(error_message)] *)
Definition notify_stakeholders (cfg : config) (e : env) (error_message : string)
  : M unit :=
  try_except
    (sns_publish e (mkMessage (error_topic_arn cfg)
                              "Error Notification: EC2 Monitoring"
                              error_message) ;;
     logging_info "Error notification sent to stakeholders")
    (fun ex =>
       match ex with
       | ClientError _ =>
           Some (logging_error ("Error sending error notification: " ++ exn_str ex))
       | _ => None
       end).

(** [create_sns_topic()] *)
Definition create_sns_topic (cfg : config) (e : env) : M string :=
  try_except
    (topic_arn <- sns_create_topic e (sns_topic_name cfg) ;;
     logging_debug ("SNS topic created: " ++ topic_arn) ;;
     ret topic_arn)
    (fun ex =>
       match ex with
       | ClientError _ =>
           let error_msg := "Error creating SNS topic: " ++ exn_str ex in
           Some (logging_error error_msg ;;
                 notify_stakeholders cfg e error_msg ;;
                 raise ex)
       | _ => None
       end).

(** [subscribe_email(topic_arn, email)] *)
Definition subscribe_email (cfg : config) (e : env) (topic_arn email : string)
  : M unit :=
  try_except
    (sns_subscribe e topic_arn email ;;
     logging_debug ("Subscribed " ++ email ++ " to SNS topic " ++ topic_arn))
    (fun ex =>
       match ex with
       | ClientError _ =>
           let error_msg := "Error subscribing email to SNS topic: " ++ exn_str ex in
           Some (logging_error error_msg ;;
                 notify_stakeholders cfg e error_msg ;;
                 raise ex)
       | _ => None
       end).

(** [config['thresholds'][stat][tier]] *)
Definition config_threshold (cfg : config) (stat tier : string) : result value :=
  match dict_get (thresholds cfg) stat with
  | None => Raise (KeyError stat)
  | Some by_tier =>
      match dict_get by_tier tier with
      | None => Raise (KeyError tier)
      | Some v => Ok v
      end
  end.

(** The keyword arguments the two [put_metric_alarm] calls share. *)
Definition metric_alarm (name stat instance_id : string) (threshold : value)
    (sns_action : list string) : alarm :=
  {| AlarmName := name;
     MetricName := stat;
     Namespace := "AWS/EC2";
     Statistic := "Average";
     Period := 60;
     EvaluationPeriods := 1;
     Threshold := threshold;
     ComparisonOperator := "GreaterThanThreshold";
     AlarmActions := sns_action;
     Dimensions := [("InstanceId", instance_id)] |}.

(** Body of the inner loop of [create_alarms]. *)
Definition create_alarms_for (cfg : config) (e : env) (topic_arn : string)
    (instance_id stat : string) : M unit :=
  let sns_action := [topic_arn] in
  try_except
    (amber <- lift (config_threshold cfg stat "amber") ;;
     cloudwatch_put_metric_alarm e
       (metric_alarm (instance_id ++ "_" ++ stat ++ "_Amber_Alarm")
                     stat instance_id amber sns_action) ;;
     red <- lift (config_threshold cfg stat "red") ;;
     cloudwatch_put_metric_alarm e
       (metric_alarm (instance_id ++ "_" ++ stat ++ "_Red_Alarm")
                     stat instance_id red sns_action) ;;
     logging_debug ("Created alarms for " ++ stat ++ " on " ++ instance_id))
    (fun ex =>
       match ex with
       | ClientError _ =>
           let error_msg :=
             "Error creating CloudWatch alarm for " ++ stat ++ " on "
             ++ instance_id ++ ": " ++ exn_str ex in
           Some (logging_error error_msg ;;
                 notify_stakeholders cfg e error_msg ;;
                 raise ex)
       | _ => None
       end).

(** [create_alarms(topic_arn)] *)
Definition create_alarms (cfg : config) (e : env) (topic_arn : string) : M unit :=
  for_each (instances cfg) (fun instance_id =>
    for_each (stats cfg) (fun stat =>
      create_alarms_for cfg e topic_arn instance_id stat)).

(** Body of the inner loop of [record_metrics]; [stats_d] is
    [instance_metrics['stats']]. *)
Definition record_stat (cfg : config) (e : env) (instance_id : string)
    (stats_d : dict value) (stat : string) : M (dict value) :=
  try_except
    (data_points <- cloudwatch_get_metric_statistics e stat instance_id ;;
     logging (LogResponse stat instance_id data_points) ;;
     match data_points with
     | dp :: _ =>
         let average_value := VFloat (Average dp) in
         ret (dict_set stats_d stat average_value)
     | [] => ret (dict_set stats_d stat VNone)
     end)
    (fun ex =>
       match ex with
       | ClientError _ =>
           let msg := "Error getting metric statistics for " ++ stat ++ " on "
                      ++ instance_id ++ ": " ++ exn_str ex in
           Some (logging_error msg ;;
                 notify_stakeholders cfg e msg ;;
                 ret (dict_set stats_d stat VNone))
       | _ => None
       end).

(** Body of the outer loop of [record_metrics]: the finished
    [instance_metrics]. *)
Definition record_instance (cfg : config) (e : env) (instance_id : string)
  : M value :=
  stats_d <- for_fold (stats cfg) [] (record_stat cfg e instance_id) ;;
  ret (VDict [("instance_id", VStr instance_id); ("stats", VDict stats_d)]).

(** The loops of [record_metrics]: the finished [metrics_data]. *)
Definition collect_metrics (cfg : config) (e : env) : M value :=
  let end_time := utcnow e in
  entries <- for_collect (instances cfg) (record_instance cfg e) ;;
  ret (VDict [("timestamp", VStr (datetime_str end_time));
              ("metrics", VList entries)]).

(** [record_metrics()] *)
Definition record_metrics (cfg : config) (e : env) : M unit :=
  metrics_data <- collect_metrics cfg e ;;
  logging (LogMetricsData metrics_data) ;;
  try_except
    (append_json_line e (metrics cfg) metrics_data)
    (fun ex =>
       match ex with
       | IOError _ =>
           let msg := "Error writing metrics data to file: " ++ exn_str ex in
           Some (logging_error msg ;;
                 notify_stakeholders cfg e msg ;;
                 raise ex)
       | _ => None
       end).

(** *** Subscripting and the numeric built-ins *)

(** [v[k]] for a string [k]. *)
Definition getitem (v : value) (k : string) : result value :=
  match v with
  | VDict d =>
      match dict_get d k with
      | Some x => Ok x
      | None => Raise (KeyError k)
      end
  | _ => Raise TypeError
  end.

(** [v[0]].  A dictionary read from JSON has string keys only. *)
Definition getitem0 (v : value) : result value :=
  match v with
  | VList (x :: _) => Ok x
  | VList [] => Raise IndexError
  | VStr (String c _) => Ok (VStr (String c ""))
  | VStr EmptyString => Raise IndexError
  | VDict _ => Raise (KeyError "0")
  | _ => Raise TypeError
  end.

Definition and_then {A B} (r : result A) (k : A -> result B) : result B :=
  match r with
  | Ok a => k a
  | Raise e => Raise e
  end.

(** [entry['metrics'][0]['stats'][stat]] *)
Definition first_instance_stat (entry : value) (stat : string) : result value :=
  and_then (getitem entry "metrics") (fun ms =>
  and_then (getitem0 ms) (fun first =>
  and_then (getitem first "stats") (fun st =>
  getitem st stat))).

(** [[entry['metrics'][0]['stats'][stat] for entry in data
      if entry['metrics'][0]['stats'][stat] is not None]] *)
Fixpoint stat_values (data : list value) (stat : string) : result (list value) :=
  match data with
  | [] => Ok []
  | entry :: rest =>
      and_then (first_instance_stat entry stat) (fun v =>
        match v with
        | VNone => stat_values rest stat
        | _ => and_then (stat_values rest stat) (fun vs => Ok (v :: vs))
        end)
  end.

(** The number a value stands for in arithmetic ([bool] is an [int]). *)
Definition as_number (v : value) : option Q :=
  match v with
  | VInt z => Some (inject_Z z)
  | VFloat q => Some q
  | VBool b => Some (if b then 1 else 0)
  | _ => None
  end.

(** [a > b] between numbers.  Python also orders two strings or two lists;
    a list of such values then fails in [sum] with the same [TypeError]. *)
Definition value_gt (a b : value) : option bool :=
  match as_number a, as_number b with
  | Some x, Some y => Some (negb (Qle_bool x y))
  | _, _ => None
  end.

Fixpoint max_loop (best : value) (l : list value) : result value :=
  match l with
  | [] => Ok best
  | x :: r =>
      match value_gt x best with
      | None => Raise TypeError
      | Some true => max_loop x r
      | Some false => max_loop best r
      end
  end.

Fixpoint min_loop (best : value) (l : list value) : result value :=
  match l with
  | [] => Ok best
  | x :: r =>
      match value_gt best x with
      | None => Raise TypeError
      | Some true => min_loop x r
      | Some false => min_loop best r
      end
  end.

(** [max(values)] and [min(values)]: the first of the largest (smallest)
    elements. *)
Definition py_max (values : list value) : result value :=
  match values with
  | [] => Raise ValueError
  | x :: r => max_loop x r
  end.

Definition py_min (values : list value) : result value :=
  match values with
  | [] => Raise ValueError
  | x :: r => min_loop x r
  end.

(** *** Floating-point arithmetic *)

(** [floor (log2 (n / d))] for positive [n] and [d]. *)
Definition floor_log2 (n d : Z) : Z :=
  let e := (Z.log2 n - Z.log2 d)%Z in
  if (if (0 <=? e)%Z then (d * 2 ^ e <=? n)%Z else (d <=? n * 2 ^ (- e))%Z)
  then e else (e - 1)%Z.

(** The integer nearest to [n / d] for [0 <= n] and [0 < d]; of two at
    equal distance, the even one. *)
Definition round_half_even (n d : Z) : Z :=
  let q := (n / d)%Z in
  let r := (n mod d)%Z in
  match (2 * r ?= d)%Z with
  | Lt => q
  | Gt => (q + 1)%Z
  | Eq => if Z.even q then q else (q + 1)%Z
  end.

(** [m * 2 ^ k], in lowest terms. *)
Definition scale (m k : Z) : Q :=
  if (0 <=? k)%Z then inject_Z (m * 2 ^ k)
  else Qred (Qmake m (Z.to_pos (2 ^ (- k)))).

(** The binary64 number nearest to [q]: 53 significant bits, or multiples
    of [2 ^ -1074] below [2 ^ -1022]; ties go to the even significand. *)
Definition round_double (q : Q) : Q :=
  let n := Z.abs (Qnum q) in
  let d := Zpos (Qden q) in
  if (n =? 0)%Z then 0
  else
    let k := Z.max (floor_log2 n d - 52) (-1074) in
    let m := if (0 <=? k)%Z then round_half_even n (d * 2 ^ k)
             else round_half_even (n * 2 ^ (- k)) d in
    scale (Z.sgn (Qnum q) * m) k.

(** A Python number: an [int] of any size or a [float]. *)
Inductive number : Type :=
| NInt (z : Z)
| NFloat (q : Q).

(** The number a value is in arithmetic ([bool] is an [int]). *)
Definition to_number (v : value) : option number :=
  match v with
  | VInt z => Some (NInt z)
  | VFloat q => Some (NFloat q)
  | VBool b => Some (NInt (if b then 1 else 0))
  | _ => None
  end.

(** [float(n)] *)
Definition to_float (n : number) : Q :=
  match n with
  | NInt z => round_double (inject_Z z)
  | NFloat q => q
  end.

(** [a + b]: exact on two ints; otherwise both become floats and the sum
    is rounded. *)
Definition number_add (a b : number) : number :=
  match a, b with
  | NInt x, NInt y => NInt (x + y)
  | _, _ => NFloat (round_double (to_float a + to_float b))
  end.

(** [a / b] for [b] other than zero: always a float; on two ints the
    exact quotient rounded once. *)
Definition number_truediv (a b : number) : Q :=
  match a, b with
  | NInt x, NInt y => round_double (inject_Z x / inject_Z y)
  | _, _ => round_double (to_float a / to_float b)
  end.

(** [sum(values)], from the start value [0] and from left to right. *)
Fixpoint sum_from (acc : number) (l : list value) : result number :=
  match l with
  | [] => Ok acc
  | x :: r =>
      match to_number x with
      | Some n => sum_from (number_add acc n) r
      | None => Raise TypeError
      end
  end.

Definition py_sum (values : list value) : result number :=
  sum_from (NInt 0) values.

Definition len {A} (l : list A) : number := NInt (Z.of_nat (length l)).

(** One value of [weekly_summary]. *)
Record summary : Type := mkSummary {
  high : value;
  low : value;
  average : Q }.

(** The dictionary display [{'high': max(values), 'low': min(values),
    'average': sum(values) / len(values)}] for a non-empty [values]. *)
Definition summarise (values : list value) : result summary :=
  and_then (py_max values) (fun hi =>
  and_then (py_min values) (fun lo =>
  and_then (py_sum values) (fun total =>
  Ok (mkSummary hi lo (number_truediv total (len values)))))).

(** Body of [for stat in config['stats']] in [send_weekly_summary]. *)
Definition summarise_stat (data : list value) (weekly_summary : dict summary)
    (stat : string) : result (dict summary) :=
  and_then (stat_values data stat) (fun values =>
    match values with
    | [] => Ok weekly_summary
    | _ :: _ =>
        and_then (summarise values) (fun s =>
          Ok (dict_set weekly_summary stat s))
    end).

Fixpoint build_weekly_summary (data : list value) (stat_names : list string)
    (weekly_summary : dict summary) : result (dict summary) :=
  match stat_names with
  | [] => Ok weekly_summary
  | stat :: rest =>
      and_then (summarise_stat data weekly_summary stat) (fun ws =>
        build_weekly_summary data rest ws)
  end.

Section Script.

(** [str] of a number, as an f-string prints it. *)
Variable py_str : value -> string.

Definition summary_section (item : string * summary) : string :=
  let (stat, s) := item in
  LF ++ stat ++ ":" ++ LF ++ "  High: " ++ py_str (high s)
     ++ LF ++ "  Low: " ++ py_str (low s)
     ++ LF ++ "  Average: " ++ py_str (VFloat (average s)).

Definition format_summary (weekly_summary : dict summary) : string :=
  fold_left (fun summary_message item => summary_message ++ summary_section item)
            weekly_summary ("Weekly Summary:" ++ LF).

(** [send_weekly_summary(topic_arn)] *)
Definition send_weekly_summary (cfg : config) (e : env) (topic_arn : string)
  : M unit :=
  try_except
    (data <- read_json_lines (data_file cfg) ;;
     weekly_summary <- lift (build_weekly_summary data (stats cfg) []) ;;
     let summary_message := format_summary weekly_summary in
     sns_publish e (mkMessage topic_arn "Weekly EC2 Metrics Summary"
                              summary_message) ;;
     logging_debug ("Weekly summary sent: " ++ summary_message))
    (fun ex =>
       match ex with
       | ClientError _ =>
           let error_msg := "Error sending weekly summary: " ++ exn_str ex in
           Some (logging_error error_msg ;;
                 notify_stakeholders cfg e error_msg ;;
                 raise ex)
       | _ => None
       end).

(** *** The scheduler loop *)

(** The two jobs [main] registers with [schedule]. *)
Inductive job : Type :=
| record_metrics_job
| send_weekly_summary_job.

Definition run_job (cfg : config) (topic_arn : string) (j : job) (e : env)
  : M unit :=
  match j with
  | record_metrics_job => record_metrics cfg e
  | send_weekly_summary_job => send_weekly_summary cfg e topic_arn
  end.

(** [schedule.run_pending()]: the jobs that are due are called one after
    the other, each in the environment it meets.  Which jobs are due is
    decided by the package from the wall clock and is an input here.  The
    package calls the job function directly: an exception raised by a job
    leaves [run_pending]. *)
Definition run_pending (cfg : config) (topic_arn : string)
    (due : list (job * env)) : M unit :=
  for_each due (fun je => run_job cfg topic_arn (fst je) (snd je)).

(** [while True: schedule.run_pending(); time.sleep(1)], unrolled over the
    given rounds.  [Ok tt] says the loop is still running after them;
    [Raise e] that [e] left the loop, and with it [main] and the process. *)
Fixpoint scheduler_loop (cfg : config) (topic_arn : string)
    (rounds : list (list (job * env))) : M unit :=
  match rounds with
  | [] => ret tt
  | due :: later =>
      run_pending cfg topic_arn due ;;
      scheduler_loop cfg topic_arn later
  end.

(** The [try] block of [main]. *)
Definition setup (cfg : config) (e : env) : M string :=
  topic_arn <- create_sns_topic cfg e ;;
  subscribe_email cfg e topic_arn (email cfg) ;;
  create_alarms cfg e topic_arn ;;
  ret topic_arn.

(** [main()]: [e] is the environment of the setup. *)
Definition main (cfg : config) (e : env) (rounds : list (list (job * env)))
  : M unit :=
  fun st =>
    match setup cfg e st with
    | (Raise ex, st') =>
        let error_msg := "Setup failed: " ++ exn_str ex in
        (logging_error error_msg ;;
         notify_stakeholders cfg e error_msg ;;
         print error_msg) st'
    | (Ok topic_arn, st') =>
        (print "Setup complete, entering main loop." ;;
         scheduler_loop cfg topic_arn rounds) st'
    end.

End Script.

(* ------------------------------------------------------------------ *)
(** ** The specification's vocabulary *)

(** *** Reading a timestamp back *)

Definition digit_value (c : ascii) : option N :=
  let n := N_of_ascii c in
  if ((48 <=? n) && (n <=? 57))%N then Some (n - 48)%N else None.

(** Exactly [width] decimal digits at the head of [s]. *)
Fixpoint read_digits (width : nat) (s : string) : option (N * string) :=
  match width with
  | O => Some (0%N, s)
  | S w =>
      match read_digits w s with
      | Some (n, String c rest) =>
          match digit_value c with
          | Some d => Some ((10 * n + d)%N, rest)
          | None => None
          end
      | _ => None
      end
  end.

Definition read_char (c : ascii) (s : string) : option string :=
  match s with
  | String c' rest => if Ascii.eqb c' c then Some rest else None
  | EmptyString => None
  end.

Definition opt_bind {A B} (o : option A) (k : A -> option B) : option B :=
  match o with
  | Some a => k a
  | None => None
  end.

(** [YYYY-MM-DD<sep>hh:mm:ss] with an optional [.ffffff]; what follows is
    returned. *)
Definition read_isoformat (sep : ascii) (s : string) : option (datetime * string) :=
  opt_bind (read_digits 4 s) (fun '(y, s) =>
  opt_bind (read_char "-" s) (fun s =>
  opt_bind (read_digits 2 s) (fun '(mo, s) =>
  opt_bind (read_char "-" s) (fun s =>
  opt_bind (read_digits 2 s) (fun '(d, s) =>
  opt_bind (read_char sep s) (fun s =>
  opt_bind (read_digits 2 s) (fun '(h, s) =>
  opt_bind (read_char ":" s) (fun s =>
  opt_bind (read_digits 2 s) (fun '(mi, s) =>
  opt_bind (read_char ":" s) (fun s =>
  opt_bind (read_digits 2 s) (fun '(sec, s) =>
  match read_char "." s with
  | Some s' =>
      opt_bind (read_digits 6 s') (fun '(us, s'') =>
        Some (mkDatetime y mo d h mi sec us, s''))
  | None => Some (mkDatetime y mo d h mi sec 0, s)
  end))))))))))).

(** The instant a [str(datetime)] text denotes. *)
Definition parse_datetime (s : string) : option datetime :=
  match read_isoformat " " s with
  | Some (d, EmptyString) => if datetime_valid d then Some d else None
  | _ => None
  end.

(** The text is what [str] prints for some valid naive datetime, up to
    the number of fraction digits. *)
Definition is_python_datetime_str (s : string) : bool :=
  match parse_datetime s with
  | Some _ => true
  | None => false
  end.

(** The zone designator of ISO 8601: nothing, [Z], or [+hh:mm] / [-hh:mm]. *)
Definition is_zone_designator (s : string) : bool :=
  match s with
  | EmptyString => true
  | String c rest =>
      if Ascii.eqb c "Z" then String.eqb rest ""
      else if Ascii.eqb c "+" || Ascii.eqb c "-" then
        match opt_bind (read_digits 2 rest) (fun '(_, s) =>
              opt_bind (read_char ":" s) (fun s => read_digits 2 s)) with
        | Some (_, EmptyString) => true
        | _ => false
        end
      else false
  end.

(** ISO 8601 extended format of a date with time of day: the time
    designator [T] stands between the two. *)
Definition is_iso8601 (s : string) : bool :=
  match read_isoformat "T" s with
  | Some (d, rest) => datetime_valid d && is_zone_designator rest
  | None => false
  end.

(** *** MetricRecord *)

Record InstanceMetrics : Type := mkInstanceMetrics {
  instance_id : string;
  instance_stats : dict (option Q) }.

Record MetricRecord : Type := mkMetricRecord {
  timestamp : datetime;
  instance_entries : list InstanceMetrics }.

(** [number | null] *)
Definition parse_stat_value (v : value) : option (option Q) :=
  match v with
  | VNone => Some None
  | VInt z => Some (Some (inject_Z z))
  | VFloat q => Some (Some q)
  | _ => None
  end.

Fixpoint parse_stats (d : dict value) : option (dict (option Q)) :=
  match d with
  | [] => Some []
  | (k, v) :: r =>
      opt_bind (parse_stat_value v) (fun x =>
      opt_bind (parse_stats r) (fun xs => Some ((k, x) :: xs)))
  end.

Definition parse_entry (v : value) : option InstanceMetrics :=
  match v with
  | VDict d =>
      match length d, dict_get d "instance_id", dict_get d "stats" with
      | 2%nat, Some (VStr i), Some (VDict sd) =>
          opt_bind (parse_stats sd) (fun m => Some (mkInstanceMetrics i m))
      | _, _, _ => None
      end
  | _ => None
  end.

Fixpoint parse_entries (l : list value) : option (list InstanceMetrics) :=
  match l with
  | [] => Some []
  | v :: r =>
      opt_bind (parse_entry v) (fun x =>
      opt_bind (parse_entries r) (fun xs => Some (x :: xs)))
  end.

(** One line of the metrics log as a MetricRecord. *)
Definition parse_record (line : value) : option MetricRecord :=
  match line with
  | VDict d =>
      match length d, dict_get d "timestamp", dict_get d "metrics" with
      | 2%nat, Some (VStr ts), Some (VList l) =>
          opt_bind (parse_datetime ts) (fun t =>
          opt_bind (parse_entries l) (fun es => Some (mkMetricRecord t es)))
      | _, _, _ => None
      end
  | _ => None
  end.

(** *** The schema of a log line

    [{"timestamp": <string the recogniser accepts>,
      "metrics": [{"instance_id": string, "stats": {name: number|null}}]}] *)

Definition stat_value_ok (v : value) : bool :=
  match v with
  | VNone | VInt _ | VFloat _ => true
  | _ => false
  end.

Definition entry_ok (v : value) : bool :=
  match v with
  | VDict d =>
      match length d, dict_get d "instance_id", dict_get d "stats" with
      | 2%nat, Some (VStr _), Some (VDict sd) =>
          forallb (fun kv => stat_value_ok (snd kv)) sd
      | _, _, _ => false
      end
  | _ => false
  end.

Definition schema_ok (timestamp_ok : string -> bool) (line : value) : bool :=
  match line with
  | VDict d =>
      match length d, dict_get d "timestamp", dict_get d "metrics" with
      | 2%nat, Some (VStr ts), Some (VList l) =>
          timestamp_ok ts && forallb entry_ok l
      | _, _, _ => false
      end
  | _ => false
  end.

(** *** What a tick records and reports, read off the provider's answers *)

(** The value [record_metrics] stores for [stat] on [instance_id]. *)
Definition recorded_value (e : env) (instance_id stat : string) : value :=
  match metric_statistics e stat instance_id with
  | inr (dp :: _) => VFloat (Average dp)
  | inr [] => VNone
  | inl _ => VNone
  end.

Definition error_notification (cfg : config) (text : string) : sns_message :=
  mkMessage (error_topic_arn cfg) "Error Notification: EC2 Monitoring" text.

(** The notifications one (instance, stat) query gives rise to. *)
Definition query_notifications (cfg : config) (e : env)
    (instance_id stat : string) : list sns_message :=
  match metric_statistics e stat instance_id with
  | inl msg =>
      [error_notification cfg
         ("Error getting metric statistics for " ++ stat ++ " on "
          ++ instance_id ++ ": " ++ msg)]
  | inr _ => []
  end.

Definition tick_notifications (cfg : config) (e : env) : list sns_message :=
  flat_map (fun i => flat_map (query_notifications cfg e i) (stats cfg))
           (instances cfg).

(** SNS takes the message. *)
Definition accepted (e : env) (m : sns_message) : bool :=
  match publish_error e m with
  | None => true
  | Some _ => false
  end.

(** The two alarms [create_alarms] asks for on behalf of one
    (instance, stat) pair, given the thresholds of the stats. *)
Definition alarm_pair (topic_arn : string) (amber red : string -> value)
    (i s : string) : list alarm :=
  [ {| AlarmName := i ++ "_" ++ s ++ "_Amber_Alarm";
       MetricName := s;
       Namespace := "AWS/EC2";
       Statistic := "Average";
       Period := 60;
       EvaluationPeriods := 1;
       Threshold := amber s;
       ComparisonOperator := "GreaterThanThreshold";
       AlarmActions := [topic_arn];
       Dimensions := [("InstanceId", i)] |};
    {| AlarmName := i ++ "_" ++ s ++ "_Red_Alarm";
       MetricName := s;
       Namespace := "AWS/EC2";
       Statistic := "Average";
       Period := 60;
       EvaluationPeriods := 1;
       Threshold := red s;
       ComparisonOperator := "GreaterThanThreshold";
       AlarmActions := [topic_arn];
       Dimensions := [("InstanceId", i)] |} ].

(** The jobs of a run are collection ticks only. *)
Definition ticks (cfg : config) (envs : list env) : M unit :=
  for_each envs (record_metrics cfg).

(** A log line the weekly report can index: a non-empty metrics list
    whose first entry has a stats map with every configured stat. *)
Definition meets_report_precondition (cfg : config) (entry : value) : Prop :=
  exists first rest d,
    getitem entry "metrics" = Ok (VList (first :: rest))
    /\ getitem first "stats" = Ok (VDict d)
    /\ forall stat, In stat (stats cfg) -> dict_get d stat <> None.

(** A log line the weekly report cannot index. *)
Definition violates_report_precondition (cfg : config) (entry : value) : Prop :=
  (getitem entry "metrics" = Ok (VList []) /\ stats cfg <> [])
  \/ (exists first rest d stat,
        getitem entry "metrics" = Ok (VList (first :: rest))
        /\ getitem first "stats" = Ok (VDict d)
        /\ In stat (stats cfg)
        /\ dict_get d stat = None).

Definition recorded_stats (cfg : config) (e : env) (instance_id : string)
  : dict value :=
  fold_left (fun d stat => dict_set d stat (recorded_value e instance_id stat))
            (stats cfg) [].

Definition recorded_entry (cfg : config) (e : env) (instance_id : string) : value :=
  VDict [("instance_id", VStr instance_id);
         ("stats", VDict (recorded_stats cfg e instance_id))].

Definition recorded_line (cfg : config) (e : env) : value :=
  VDict [("timestamp", VStr (datetime_str (utcnow e)));
         ("metrics", VList (map (recorded_entry cfg e) (instances cfg)))].

(** From [st] to [st'] nothing happened but logging and the publication of
    [msgs]. *)
Definition only_reports (st st' : state) (msgs : list sns_message) : Prop :=
  files st' = files st /\ alarms st' = alarms st
  /\ subscriptions st' = subscriptions st /\ stdout st' = stdout st
  /\ published st' = (published st ++ msgs)%list
  /\ exists l, log st' = (log st ++ l)%list.

(** [v is None] *)
Definition is_none (v : value) : bool :=
  match v with
  | VNone => true
  | _ => false
  end.

(* ------------------------------------------------------------------ *)
(** ** Sample runs *)

Definition midnight : datetime := mkDatetime 2024 1 1 0 0 0 0.
Definition one_minute_later : datetime := mkDatetime 2024 1 1 0 1 0 250000.
Definition two_minutes_later : datetime := mkDatetime 2024 1 1 0 2 0 500000.

(** An environment in which boto3 and the file system refuse nothing. *)
Definition calm (now : datetime)
    (answers : string -> string -> string + list datapoint) : env :=
  {| utcnow := now;
     metric_statistics := answers;
     put_metric_alarm_error := fun _ => None;
     create_topic_response := fun name => inr ("arn:aws:sns:" ++ name);
     subscribe_error := fun _ _ => None;
     publish_error := fun _ => None;
     open_append_error := fun _ => None |}.

(** The same, on a disk that is full. *)
Definition disk_full (now : datetime)
    (answers : string -> string -> string + list datapoint) : env :=
  {| utcnow := now;
     metric_statistics := answers;
     put_metric_alarm_error := fun _ => None;
     create_topic_response := fun name => inr ("arn:aws:sns:" ++ name);
     subscribe_error := fun _ _ => None;
     publish_error := fun _ => None;
     open_append_error := fun _ => Some "No space left on device" |}.

Definition reading (q : Q) : datapoint :=
  {| Timestamp := midnight; Average := q; Unit := "Percent" |}.

(** Every query answers the data points [qs]. *)
Definition steady (qs : list Q) : string -> string -> string + list datapoint :=
  fun _ _ => inr (map reading qs).

Definition no_data : string -> string -> string + list datapoint :=
  fun _ _ => inr [].

Definition throttled : string -> string -> string + list datapoint :=
  fun _ _ => inl "Rate exceeded".

Definition sample_config (tiers : dict value) (metrics_path data_path : string)
  : config :=
  {| region := "eu-west-1";
     instances := ["i-1"];
     stats := ["CPUUtilization"];
     thresholds := [("CPUUtilization", tiers)];
     email := "ops@example.org";
     log_file := "monitor.log";
     metrics := metrics_path;
     data_file := data_path;
     sns_topic_name := "ec2-alerts";
     error_topic_arn := "arn:aws:sns:errors" |}.

Definition amber_red : dict value := [("amber", VInt 70); ("red", VInt 90)].
Definition warning_critical : dict value :=
  [("warning", VInt 70); ("critical", VInt 90)].

(** One path for both keys. *)
Definition one_file : config := sample_config amber_red "metrics.json" "metrics.json".

(** A path for each key. *)
Definition two_files : config := sample_config amber_red "metrics.json" "data.json".

(** The same, without any instance. *)
Definition no_instances : config :=
  {| region := "eu-west-1";
     instances := [];
     stats := ["CPUUtilization"];
     thresholds := [("CPUUtilization", amber_red)];
     email := "ops@example.org";
     log_file := "monitor.log";
     metrics := "metrics.json";
     data_file := "metrics.json";
     sns_topic_name := "ec2-alerts";
     error_topic_arn := "arn:aws:sns:errors" |}.

Definition fresh : state :=
  {| log := []; published := []; alarms := []; subscriptions := [];
     files := []; stdout := [] |}.

(** Nothing happened yet, and [data.json] exists and is empty. *)
Definition empty_data_file : state :=
  {| log := []; published := []; alarms := []; subscriptions := [];
     files := [("data.json", [])]; stdout := [] |}.

(** A stand-in for [str] on numbers: integers in decimal, other numbers as
    numerator/denominator. *)
Definition plain_str (v : value) : string :=
  match v with
  | VInt z => NilZero.string_of_int (Z.to_int z)
  | VFloat q =>
      NilZero.string_of_int (Z.to_int (Qnum q)) ++ "/"
      ++ NilZero.string_of_uint (Pos.to_uint (Qden q))
  | VBool true => "True"
  | VBool false => "False"
  | _ => ""
  end.

(** Three ticks that read 10, 20 and 30. *)
Definition three_ticks : list env :=
  [calm midnight (steady [10; 0]);
   calm one_minute_later (steady [20]);
   calm two_minutes_later (steady [30; 99; 98])].

(** Two ticks; between them the clock was set back. *)
Definition clock_set_back : list env :=
  [calm one_minute_later (steady [10]); calm midnight (steady [20])].

(** The floats nearest to 0.1 and to 0.2. *)
Definition tenth : Q := 3602879701896397 # 36028797018963968.
Definition fifth : Q := 3602879701896397 # 18014398509481984.


(* ------------------------------------------------------------------ *)
(** ** Vocabulary of the setup *)

(** From [st] to [st'] these alarms, messages and subscriptions were
    added and records were logged; files and standard output are as they
    were. *)
Definition setup_step (st st' : state) (new_alarms : list alarm)
    (new_msgs : list sns_message) (new_subs : list (string * string)) : Prop :=
  files st' = files st /\ stdout st' = stdout st
  /\ alarms st' = (alarms st ++ new_alarms)%list
  /\ published st' = (published st ++ new_msgs)%list
  /\ subscriptions st' = (subscriptions st ++ new_subs)%list
  /\ exists l, log st' = (log st ++ l)%list.

(** The requests [create_alarms] makes when none is refused, in order. *)
Definition expected_alarms (cfg : config) (topic_arn : string)
    (amber red : string -> value) : list alarm :=
  flat_map (fun i => flat_map (alarm_pair topic_arn amber red i) (stats cfg))
           (instances cfg).

(** The requests of [l] CloudWatch takes before it refuses one. *)
Fixpoint accepted_alarms (e : env) (l : list alarm) : list alarm :=
  match l with
  | [] => []
  | a :: r =>
      match put_metric_alarm_error e a with
      | None => a :: accepted_alarms e r
      | Some _ => []
      end
  end.

(** The first request of [l] CloudWatch refuses, with its error. *)
Fixpoint first_refusal (e : env) (l : list alarm) : option (alarm * string) :=
  match l with
  | [] => None
  | a :: r =>
      match put_metric_alarm_error e a with
      | None => first_refusal e r
      | Some msg => Some (a, msg)
      end
  end.

(** The instance an alarm watches. *)
Definition alarm_instance (a : alarm) : string :=
  match Dimensions a with
  | (_, i) :: _ => i
  | [] => ""
  end.

Definition refusal_outcome (e : env) (l : list alarm) : result unit :=
  match first_refusal e l with
  | None => Ok tt
  | Some (_, msg) => Raise (ClientError msg)
  end.

Definition refusal_notifications (cfg : config) (e : env) (l : list alarm)
  : list sns_message :=
  match first_refusal e l with
  | None => []
  | Some (a, msg) =>
      filter (accepted e)
        [error_notification cfg
           ("Error creating CloudWatch alarm for " ++ MetricName a ++ " on "
            ++ alarm_instance a ++ ": " ++ msg)]
  end.

(** The computation leaves the component [proj] of the state as it was,
    whatever its outcome. *)
Definition preserves {A B} (proj : state -> B) (c : M A) : Prop :=
  forall st, proj (snd (c st)) = proj st.

(** The computation only adds at the end of the list [proj] of the state,
    whatever its outcome. *)
Definition appends_to {A B} (proj : state -> list B) (c : M A) : Prop :=
  forall st, exists l, proj (snd (c st)) = (proj st ++ l)%list.

(** The job is a collection tick. *)
Definition is_tick (je : job * env) : bool :=
  match fst je with
  | record_metrics_job => true
  | send_weekly_summary_job => false
  end.

(** The line with the entries after the first dropped from its metrics
    list. *)
Definition first_entry_only (entry : value) : value :=
  match entry with
  | VDict d =>
      match dict_get d "metrics" with
      | Some (VList (first :: _ :: _)) =>
          VDict (dict_set d "metrics" (VList [first]))
      | _ => entry
      end
  | _ => entry
  end.

(** The report finds a value for the stat that is not absent. *)
Definition has_values (data : list value) (stat : string) : bool :=
  match stat_values data stat with
  | Ok (_ :: _) => true
  | _ => false
  end.

(** The state with the lines of one file replaced. *)
Definition with_file (st : state) (path : string) (lines : list value) : state :=
  {| log := log st; published := published st; alarms := alarms st;
     subscriptions := subscriptions st;
     files := dict_set (files st) path lines; stdout := stdout st |}.

(** The alarm is one of the two [create_alarms] asks for on behalf of the
    pair ([i], [s]). *)
Definition requested_for (cfg : config) (topic_arn i s : string) (a : alarm)
  : Prop :=
  (exists amber,
     config_threshold cfg s "amber" = Ok amber
     /\ a = metric_alarm (i ++ "_" ++ s ++ "_Amber_Alarm") s i amber [topic_arn])
  \/ (exists red,
        config_threshold cfg s "red" = Ok red
        /\ a = metric_alarm (i ++ "_" ++ s ++ "_Red_Alarm") s i red [topic_arn]).

(** The text has no underscore. *)
Fixpoint no_underscore (s : string) : bool :=
  match s with
  | EmptyString => true
  | String c r => negb (Ascii.eqb c "_") && no_underscore r
  end.

(** Field by field, most significant first. *)
Definition datetime_compare (a b : datetime) : comparison :=
  (match year a ?= year b with
   | Eq =>
       match month a ?= month b with
       | Eq =>
           match day a ?= day b with
           | Eq =>
               match hour a ?= hour b with
               | Eq =>
                   match minute a ?= minute b with
                   | Eq =>
                       match second a ?= second b with
                       | Eq => microsecond a ?= microsecond b
                       | c => c
                       end
                   | c => c
                   end
               | c => c
               end
           | c => c
           end
       | c => c
       end
   | c => c
   end)%N.

(* ------------------------------------------------------------------ *)
(** ** Further sample runs *)

(** CloudWatch refuses the red alarm of i-1 and takes every other one. *)
Definition refusing_red : env :=
  {| utcnow := midnight;
     metric_statistics := no_data;
     put_metric_alarm_error := fun a =>
       if String.eqb (AlarmName a) "i-1_CPUUtilization_Red_Alarm"
       then Some "LimitExceeded" else None;
     create_topic_response := fun name => inr ("arn:aws:sns:" ++ name);
     subscribe_error := fun _ _ => None;
     publish_error := fun _ => None;
     open_append_error := fun _ => None |}.

(** SNS does not create the topic. *)
Definition no_topic : env :=
  {| utcnow := midnight;
     metric_statistics := no_data;
     put_metric_alarm_error := fun _ => None;
     create_topic_response := fun _ => inl "AuthorizationError";
     subscribe_error := fun _ _ => None;
     publish_error := fun _ => None;
     open_append_error := fun _ => None |}.

(** SNS takes error notifications and refuses the weekly digest. *)
Definition digest_refused : env :=
  {| utcnow := midnight;
     metric_statistics := no_data;
     put_metric_alarm_error := fun _ => None;
     create_topic_response := fun name => inr ("arn:aws:sns:" ++ name);
     subscribe_error := fun _ _ => None;
     publish_error := fun m =>
       if String.eqb (Subject m) "Weekly EC2 Metrics Summary"
       then Some "Throttling" else None;
     open_append_error := fun _ => None |}.

(** Two instances and two stats, one path under both file keys. *)
Definition two_instances : config :=
  {| region := "eu-west-1";
     instances := ["i-1"; "i-2"];
     stats := ["CPUUtilization"; "NetworkIn"];
     thresholds := [("CPUUtilization", amber_red); ("NetworkIn", amber_red)];
     email := "ops@example.org";
     log_file := "monitor.log";
     metrics := "metrics.json";
     data_file := "metrics.json";
     sns_topic_name := "ec2-alerts";
     error_topic_arn := "arn:aws:sns:errors" |}.

(** CPUUtilization of i-1 reads 10, of i-2 reads 90; NetworkIn has no data. *)
Definition uneven : string -> string -> string + list datapoint :=
  fun stat instance_id =>
    if String.eqb stat "CPUUtilization"
    then inr [reading (if String.eqb instance_id "i-1" then 10 else 90)]
    else inr [].

(** A log with one line whose CPUUtilization is a text. *)
Definition text_in_log : state :=
  {| log := []; published := []; alarms := []; subscriptions := [];
     files :=
       [("metrics.json",
         [VDict [("timestamp", VStr "2024-01-01 00:00:00");
                 ("metrics",
                  VList [VDict [("instance_id", VStr "i-1");
                                ("stats",
                                 VDict [("CPUUtilization", VStr "n/a")])]])]])];
     stdout := [] |}.

(* ------------------------------------------------------------------ *)
(** ** Dictionaries *)

#[local] Arguments String.append : simpl never.

Lemma dict_get_set_same {V} (d : dict V) k v :
  dict_get (dict_set d k v) k = Some v.
Proof.
  induction d as [|[k' v'] r IH]; simpl.
  - now rewrite String.eqb_refl.
  - destruct (String.eqb k' k) eqn:E; simpl; rewrite E; auto.
Qed.

Lemma dict_get_set_other {V} (d : dict V) k k' v :
  k <> k' -> dict_get (dict_set d k v) k' = dict_get d k'.
Proof.
  intros Hne. induction d as [|[k0 v0] r IH]; simpl.
  - destruct (String.eqb k k') eqn:E; auto.
    apply String.eqb_eq in E. contradiction.
  - destruct (String.eqb k0 k) eqn:E; simpl.
    + apply String.eqb_eq in E. subst k0.
      destruct (String.eqb k k') eqn:E'; auto.
      apply String.eqb_eq in E'. contradiction.
    + now rewrite IH.
Qed.

Lemma dict_keys_set {V} (d : dict V) k v k' :
  In k' (dict_keys (dict_set d k v)) <-> k' = k \/ In k' (dict_keys d).
Proof.
  unfold dict_keys. induction d as [|[k0 v0] r IH]; simpl.
  - intuition.
  - destruct (String.eqb k0 k) eqn:E; simpl.
    + apply String.eqb_eq in E. subst k0. intuition.
    + rewrite IH. intuition.
Qed.

Lemma dict_keys_set_NoDup {V} (d : dict V) k v :
  NoDup (dict_keys d) -> NoDup (dict_keys (dict_set d k v)).
Proof.
  unfold dict_keys. induction d as [|[k0 v0] r IH]; simpl; intros Hnd.
  - constructor; [intros []|constructor].
  - inversion Hnd as [|? ? Hnotin Hnd']; subst.
    destruct (String.eqb k0 k) eqn:E; simpl.
    + constructor; assumption.
    + constructor; [|auto].
      intros Hin. apply (dict_keys_set r k v k0) in Hin.
      destruct Hin as [->|Hin]; [|contradiction].
      now rewrite String.eqb_refl in E.
Qed.



(* ------------------------------------------------------------------ *)
(** ** Effects of the helpers *)

Lemma only_reports_refl st : only_reports st st [].
Proof.
  unfold only_reports. rewrite app_nil_r. repeat split; auto.
  exists []. now rewrite app_nil_r.
Qed.

Lemma only_reports_trans st1 st2 st3 m1 m2 :
  only_reports st1 st2 m1 -> only_reports st2 st3 m2 ->
  only_reports st1 st3 (m1 ++ m2)%list.
Proof.
  intros (F1 & A1 & S1 & O1 & P1 & l1 & L1) (F2 & A2 & S2 & O2 & P2 & l2 & L2).
  unfold only_reports. repeat split; try congruence.
  - now rewrite P2, P1, app_assoc.
  - exists (l1 ++ l2)%list. now rewrite L2, L1, app_assoc.
Qed.

Lemma only_reports_logging st r :
  only_reports st (snd (logging r st)) [].
Proof.
  unfold only_reports, logging; simpl. rewrite app_nil_r.
  repeat split; auto. now exists [r].
Qed.

Lemma notify_stakeholders_reports cfg e text st :
  exists st',
    notify_stakeholders cfg e text st = (Ok tt, st')
    /\ only_reports st st' (filter (accepted e) [error_notification cfg text]).
Proof.
  unfold notify_stakeholders, try_except, bind, sns_publish, accepted,
    error_notification; simpl.
  destruct (publish_error e _) as [msg|] eqn:E; simpl.
  - eexists; split; [reflexivity|].
    unfold only_reports; simpl. rewrite app_nil_r.
    repeat split; auto. eexists; reflexivity.
  - eexists; split; [reflexivity|].
    unfold only_reports; simpl. repeat split; auto. eexists; reflexivity.
Qed.

Lemma record_stat_reports cfg e i d s st :
  exists st',
    record_stat cfg e i d s st = (Ok (dict_set d s (recorded_value e i s)), st')
    /\ only_reports st st' (filter (accepted e) (query_notifications cfg e i s)).
Proof.
  unfold record_stat, try_except, bind, cloudwatch_get_metric_statistics,
    recorded_value, query_notifications.
  destruct (metric_statistics e s i) as [msg|dps] eqn:E.
  - cbn [exn_str logging_error].
    destruct (notify_stakeholders_reports cfg e
      ("Error getting metric statistics for " ++ s ++ " on " ++ i ++ ": " ++ msg)
      (snd (logging (LogText ERROR
         ("Error getting metric statistics for " ++ s ++ " on " ++ i ++ ": " ++ msg)) st)))
      as (st' & Hn & Hr).
    exists st'. split.
    + unfold logging in *. simpl in *. rewrite Hn. reflexivity.
    + apply (only_reports_trans _ _ _ [] _ (only_reports_logging st _) Hr).
  - exists (snd (logging (LogResponse s i dps) st)). split.
    + unfold logging, ret. simpl. destruct dps; reflexivity.
    + apply only_reports_logging.
Qed.

Lemma record_stats_reports cfg e i l : forall d st,
  exists st',
    for_fold l d (record_stat cfg e i) st
    = (Ok (fold_left (fun d s => dict_set d s (recorded_value e i s)) l d), st')
    /\ only_reports st st'
         (filter (accepted e) (flat_map (query_notifications cfg e i) l)).
Proof.
  induction l as [|s r IH]; intros d st; simpl.
  - exists st. split; [reflexivity|apply only_reports_refl].
  - destruct (record_stat_reports cfg e i d s st) as (st1 & H1 & R1).
    destruct (IH (dict_set d s (recorded_value e i s)) st1) as (st2 & H2 & R2).
    exists st2. split.
    + unfold bind. now rewrite H1.
    + rewrite filter_app. eapply only_reports_trans; eauto.
Qed.

Lemma record_instance_reports cfg e i st :
  exists st',
    record_instance cfg e i st = (Ok (recorded_entry cfg e i), st')
    /\ only_reports st st'
         (filter (accepted e) (flat_map (query_notifications cfg e i) (stats cfg))).
Proof.
  destruct (record_stats_reports cfg e i (stats cfg) [] st) as (st' & H & R).
  exists st'. split; [|exact R].
  unfold record_instance, bind. unfold dict in *. now rewrite H.
Qed.

Lemma record_instances_reports cfg e l : forall st,
  exists st',
    for_collect l (record_instance cfg e) st
    = (Ok (map (recorded_entry cfg e) l), st')
    /\ only_reports st st'
         (filter (accepted e)
            (flat_map (fun i => flat_map (query_notifications cfg e i) (stats cfg)) l)).
Proof.
  induction l as [|i r IH]; intros st; simpl.
  - exists st. split; [reflexivity|apply only_reports_refl].
  - destruct (record_instance_reports cfg e i st) as (st1 & H1 & R1).
    destruct (IH st1) as (st2 & H2 & R2).
    exists st2. split.
    + unfold bind. rewrite H1, H2. reflexivity.
    + rewrite filter_app. eapply only_reports_trans; eauto.
Qed.

Lemma collect_metrics_reports cfg e st :
  exists st',
    collect_metrics cfg e st = (Ok (recorded_line cfg e), st')
    /\ only_reports st st' (filter (accepted e) (tick_notifications cfg e)).
Proof.
  destruct (record_instances_reports cfg e (instances cfg) st) as (st' & H & R).
  exists st'. split; [|exact R].
  unfold collect_metrics, bind. now rewrite H.
Qed.

(** A tick whose append succeeds: one more line, nothing else on disk. *)
Lemma record_metrics_appends cfg e st :
  open_append_error e (metrics cfg) = None ->
  exists st',
    record_metrics cfg e st = (Ok tt, st')
    /\ files st' = dict_set (files st) (metrics cfg)
                     (file_lines st (metrics cfg) ++ [recorded_line cfg e])%list
    /\ published st'
       = (published st ++ filter (accepted e) (tick_notifications cfg e))%list
    /\ alarms st' = alarms st.
Proof.
  intros Hopen.
  destruct (collect_metrics_reports cfg e st)
    as (st1 & Hc & F1 & A1 & _ & _ & P1 & _).
  unfold record_metrics, bind, try_except, append_json_line, logging, file_lines.
  rewrite Hc, Hopen. simpl.
  eexists; split; [reflexivity|]. simpl.
  rewrite F1. auto.
Qed.

(** A tick whose append fails: the error is logged, a notification is
    attempted and [IOError] leaves [record_metrics]. *)
Lemma record_metrics_write_failure cfg e st msg :
  open_append_error e (metrics cfg) = Some msg ->
  exists st',
    record_metrics cfg e st = (Raise (IOError msg), st')
    /\ files st' = files st
    /\ published st'
       = (published st
          ++ filter (accepted e)
               (tick_notifications cfg e
                ++ [error_notification cfg
                      ("Error writing metrics data to file: " ++ msg)]))%list
    /\ In (LogText ERROR ("Error writing metrics data to file: " ++ msg)) (log st').
Proof.
  intros Hopen.
  destruct (collect_metrics_reports cfg e st)
    as (st1 & Hc & F1 & _ & _ & _ & P1 & _).
  unfold record_metrics, bind, try_except, append_json_line.
  rewrite Hc. cbn [logging fst snd]. rewrite Hopen.
  cbn [exn_str logging_error logging].
  match goal with
  | |- context [notify_stakeholders cfg e ?t ?s] =>
      destruct (notify_stakeholders_reports cfg e t s)
        as (st2 & Hn & F2 & _ & _ & _ & P2 & l2 & L2)
  end.
  rewrite Hn. unfold raise.
  eexists; split; [reflexivity|]. simpl in *.
  repeat split.
  - congruence.
  - rewrite P2, P1, filter_app, app_assoc. reflexivity.
  - rewrite L2. apply in_or_app. left. apply in_or_app. right. now left.
Qed.

Lemma record_metrics_completed cfg e st st' :
  record_metrics cfg e st = (Ok tt, st') ->
  open_append_error e (metrics cfg) = None.
Proof.
  intros H. destruct (open_append_error e (metrics cfg)) as [msg|] eqn:E; auto.
  destruct (record_metrics_write_failure cfg e st msg E) as (st2 & H2 & _).
  congruence.
Qed.

Lemma file_lines_after_set st st' path lines :
  files st' = dict_set (files st) path lines ->
  file_lines st' path = lines.
Proof.
  intros H. unfold file_lines. rewrite H. now rewrite dict_get_set_same.
Qed.

Lemma file_lines_after_set_other st st' path path' lines :
  files st' = dict_set (files st) path lines -> path <> path' ->
  file_lines st' path' = file_lines st path'.
Proof.
  intros H Hne. unfold file_lines. rewrite H.
  now rewrite dict_get_set_other.
Qed.

(* ------------------------------------------------------------------ *)
(** ** The record of a tick *)

Section FoldSet.

Context {V : Type} (f : string -> V).

Lemma fold_set_keys l : forall d k,
  In k (dict_keys (fold_left (fun d s => dict_set d s (f s)) l d)) <-> In k l \/ In k (dict_keys d).
Proof.
  induction l as [|s r IH]; intros d k; simpl.
  - intuition.
  - rewrite IH. rewrite dict_keys_set. intuition.
Qed.

Lemma fold_set_NoDup l : forall d,
  NoDup (dict_keys d) -> NoDup (dict_keys (fold_left (fun d s => dict_set d s (f s)) l d)).
Proof.
  induction l as [|s r IH]; intros d Hd; simpl; auto.
  apply IH. now apply dict_keys_set_NoDup.
Qed.

Lemma fold_set_get_other l : forall d k,
  ~ In k l -> dict_get (fold_left (fun d s => dict_set d s (f s)) l d) k = dict_get d k.
Proof.
  induction l as [|s r IH]; intros d k Hk; simpl; auto.
  rewrite IH by (simpl in Hk; tauto).
  apply dict_get_set_other. simpl in Hk. intros ->. tauto.
Qed.

Lemma fold_set_get l : forall d k,
  In k l -> dict_get (fold_left (fun d s => dict_set d s (f s)) l d) k = Some (f k).
Proof.
  induction l as [|s r IH]; intros d k Hk; simpl; [destruct Hk|].
  destruct (in_dec string_dec k r) as [Hin|Hnot].
  - now apply IH.
  - rewrite fold_set_get_other by assumption.
    destruct Hk as [->|Hk]; [|contradiction].
    apply dict_get_set_same.
Qed.

End FoldSet.

Lemma recorded_stats_get cfg e i s :
  In s (stats cfg) ->
  dict_get (recorded_stats cfg e i) s = Some (recorded_value e i s).
Proof. intros H. unfold recorded_stats. now apply (fold_set_get (recorded_value e i)). Qed.

Lemma recorded_stats_keys cfg e i s :
  In s (dict_keys (recorded_stats cfg e i)) <-> In s (stats cfg).
Proof.
  unfold recorded_stats.
  rewrite (fold_set_keys (recorded_value e i)). simpl. tauto.
Qed.

Lemma recorded_stats_NoDup cfg e i :
  NoDup (dict_keys (recorded_stats cfg e i)).
Proof.
  unfold recorded_stats. apply (fold_set_NoDup (recorded_value e i)). constructor.
Qed.

Lemma recorded_value_shape e i s :
  recorded_value e i s = VNone \/ exists q, recorded_value e i s = VFloat q.
Proof.
  unfold recorded_value.
  destruct (metric_statistics e s i) as [msg|[|dp r]]; eauto.
Qed.

Lemma record_metrics_line cfg e st st' :
  record_metrics cfg e st = (Ok tt, st') ->
  file_lines st' (metrics cfg)
  = (file_lines st (metrics cfg) ++ [recorded_line cfg e])%list
  /\ published st'
     = (published st ++ filter (accepted e) (tick_notifications cfg e))%list.
Proof.
  intros H. pose proof (record_metrics_completed _ _ _ _ H) as Hopen.
  destruct (record_metrics_appends cfg e st Hopen) as (st2 & H2 & F & P & _).
  assert (st2 = st') by congruence. subst st2.
  split; [|exact P]. now apply file_lines_after_set with (st := st).
Qed.

(** The entries of a recorded line that belong to instance [i] hold the
    recorded value of every configured stat. *)
Lemma recorded_entry_stat cfg e i s entry :
  In entry (map (recorded_entry cfg e) (instances cfg)) ->
  getitem entry "instance_id" = Ok (VStr i) ->
  In s (stats cfg) ->
  and_then (getitem entry "stats") (fun d => getitem d s)
  = Ok (recorded_value e i s).
Proof.
  intros Hin Hid Hs. apply in_map_iff in Hin. destruct Hin as (i' & <- & _).
  unfold recorded_entry in *. cbn in Hid. injection Hid as ->.
  cbn. now rewrite recorded_stats_get.
Qed.

(** C5: a completed tick appends exactly one record; the record has one
    entry per configured instance, in order, and the stats map of each
    entry has exactly the configured stats as keys, each once, each with a
    number or the explicit absent value, whatever the provider answered. *)
Theorem record_metrics_one_uniform_record cfg e st st' :
  record_metrics cfg e st = (Ok tt, st') ->
  exists entries,
    file_lines st' (metrics cfg)
    = (file_lines st (metrics cfg)
       ++ [VDict [("timestamp", VStr (datetime_str (utcnow e)));
                  ("metrics", VList entries)]])%list
    /\ Forall2
         (fun i entry =>
            exists d,
              entry = VDict [("instance_id", VStr i); ("stats", VDict d)]
              /\ NoDup (dict_keys d)
              /\ (forall s, In s (dict_keys d) <-> In s (stats cfg))
              /\ (forall s, In s (stats cfg) ->
                    exists v, dict_get d s = Some v
                              /\ (v = VNone \/ exists q, v = VFloat q)))
         (instances cfg) entries.
Proof.
  intros H. apply record_metrics_line in H. destruct H as [Hline _].
  exists (map (recorded_entry cfg e) (instances cfg)).
  split; [exact Hline|].
  induction (instances cfg) as [|i r IH]; simpl; constructor; auto.
  exists (recorded_stats cfg e i). split; [reflexivity|].
  split; [apply recorded_stats_NoDup|].
  split; [intros s; apply recorded_stats_keys|].
  intros s Hs. exists (recorded_value e i s).
  split; [now apply recorded_stats_get|apply recorded_value_shape].
Qed.

(** C9: when the provider answers a non-empty list of data points, the
    value recorded for the pair is the Average of the first element of the
    list; the other elements and the time stamps play no part. *)
Theorem record_metrics_first_datapoint cfg e st st' i s dp others :
  record_metrics cfg e st = (Ok tt, st') ->
  In i (instances cfg) ->
  In s (stats cfg) ->
  metric_statistics e s i = inr (dp :: others) ->
  exists line entries,
    file_lines st' (metrics cfg) = (file_lines st (metrics cfg) ++ [line])%list
    /\ getitem line "metrics" = Ok (VList entries)
    /\ (exists entry, In entry entries
                      /\ getitem entry "instance_id" = Ok (VStr i))
    /\ (forall entry, In entry entries ->
          getitem entry "instance_id" = Ok (VStr i) ->
          and_then (getitem entry "stats") (fun d => getitem d s)
          = Ok (VFloat (Average dp))).
Proof.
  intros H Hi Hs Hresp. apply record_metrics_line in H. destruct H as [Hline _].
  exists (recorded_line cfg e), (map (recorded_entry cfg e) (instances cfg)).
  split; [exact Hline|]. split; [reflexivity|]. split.
  - exists (recorded_entry cfg e i). split; [now apply in_map|reflexivity].
  - intros entry Hin Hid.
    rewrite (recorded_entry_stat cfg e i s entry Hin Hid Hs).
    unfold recorded_value. now rewrite Hresp.
Qed.

(** The records a failing query leaves in the log. *)
Lemma record_stat_logs cfg e i d s st :
  exists l,
    log (snd (record_stat cfg e i d s st)) = (log st ++ l)%list
    /\ forall msg,
         metric_statistics e s i = inl msg ->
         In (LogText ERROR ("Error getting metric statistics for " ++ s
                            ++ " on " ++ i ++ ": " ++ msg)) l.
Proof.
  unfold record_stat, try_except, bind, cloudwatch_get_metric_statistics.
  destruct (metric_statistics e s i) as [msg|dps] eqn:E.
  - cbn [exn_str logging_error logging snd].
    match goal with
    | |- context [notify_stakeholders cfg e ?t ?s0] =>
        destruct (notify_stakeholders_reports cfg e t s0)
          as (st2 & Hn & _ & _ & _ & _ & _ & l2 & L2)
    end.
    rewrite Hn. cbn [ret snd]. rewrite L2. cbn [log].
    eexists. split; [now rewrite <- app_assoc|].
    intros msg' Hmsg. injection Hmsg as <-. now left.
  - exists [LogResponse s i dps]. split; [|discriminate].
    destruct dps; reflexivity.
Qed.

Lemma record_stats_log cfg e i l : forall d st,
  exists records,
    log (snd (for_fold l d (record_stat cfg e i) st)) = (log st ++ records)%list
    /\ forall s msg,
         In s l -> metric_statistics e s i = inl msg ->
         In (LogText ERROR ("Error getting metric statistics for " ++ s
                            ++ " on " ++ i ++ ": " ++ msg)) records.
Proof.
  induction l as [|s0 r IH]; intros d st.
  - exists []. split; [symmetry; apply app_nil_r|intros ? ? []].
  - destruct (record_stat_logs cfg e i d s0 st) as (l1 & L1 & E1).
    destruct (record_stat_reports cfg e i d s0 st) as (st1 & H1 & _).
    rewrite H1 in L1. cbn [snd] in L1.
    destruct (IH (dict_set d s0 (recorded_value e i s0)) st1) as (l2 & L2 & E2).
    exists (l1 ++ l2)%list. split.
    + cbn [for_fold]. unfold bind. rewrite H1, L2, L1. now rewrite app_assoc.
    + intros s msg [<-|Hin] Hmsg; apply in_or_app; [left|right]; eauto.
Qed.

Lemma record_instances_log cfg e l : forall st,
  exists records,
    log (snd (for_collect l (record_instance cfg e) st)) = (log st ++ records)%list
    /\ forall i s msg,
         In i l -> In s (stats cfg) -> metric_statistics e s i = inl msg ->
         In (LogText ERROR ("Error getting metric statistics for " ++ s
                            ++ " on " ++ i ++ ": " ++ msg)) records.
Proof.
  induction l as [|i0 r IH]; intros st.
  - exists []. split; [symmetry; apply app_nil_r|intros ? ? ? []].
  - destruct (record_stats_log cfg e i0 (stats cfg) [] st) as (l1 & L1 & E1).
    destruct (record_stats_reports cfg e i0 (stats cfg) [] st) as (st1 & H1 & _).
    rewrite H1 in L1. cbn [snd] in L1.
    destruct (IH st1) as (l2 & L2 & E2).
    destruct (record_instances_reports cfg e r st1) as (st2 & H2 & _).
    rewrite H2 in L2. cbn [snd] in L2.
    exists (l1 ++ l2)%list. split.
    + cbn [for_collect]. unfold bind at 1, record_instance at 1, bind at 1.
      unfold dict in *. rewrite H1. cbn [ret]. unfold bind. rewrite H2.
      cbn [ret snd]. rewrite L2, L1. now rewrite app_assoc.
    + intros i s msg [<-|Hin] Hs Hmsg; apply in_or_app; [left|right]; eauto.
Qed.

(** Whatever the outcome of a tick, its log has an ERROR record for every
    query that failed. *)
Lemma record_metrics_log cfg e st :
  exists records,
    log (snd (record_metrics cfg e st)) = (log st ++ records)%list
    /\ forall i s msg,
         In i (instances cfg) -> In s (stats cfg) ->
         metric_statistics e s i = inl msg ->
         In (LogText ERROR ("Error getting metric statistics for " ++ s
                            ++ " on " ++ i ++ ": " ++ msg)) records.
Proof.
  destruct (record_instances_log cfg e (instances cfg) st) as (l1 & L1 & E1).
  destruct (record_instances_reports cfg e (instances cfg) st) as (st1 & H1 & _).
  rewrite H1 in L1. cbn [snd] in L1.
  unfold record_metrics, collect_metrics, bind, try_except, append_json_line.
  rewrite H1. cbn [ret logging fst snd].
  destruct (open_append_error e (metrics cfg)) as [msg|].
  - cbn [exn_str logging_error logging].
    match goal with
    | |- context [notify_stakeholders cfg e ?t ?s0] =>
        destruct (notify_stakeholders_reports cfg e t s0)
          as (st2 & Hn & _ & _ & _ & _ & _ & l2 & L2)
    end.
    rewrite Hn. cbn [raise snd]. rewrite L2. cbn [log]. rewrite L1.
    eexists. split; [rewrite <- !app_assoc; reflexivity|].
    intros i s msg' Hi Hs Hmsg. apply in_or_app. left. eauto.
  - cbn [snd log]. rewrite L1.
    eexists. split; [rewrite <- !app_assoc; reflexivity|].
    intros i s msg' Hi Hs Hmsg. apply in_or_app. left. eauto.
Qed.

(** C4, as the code has it: a pair without data points or with a failing
    query is recorded as absent and the tick goes on; a failing query is
    logged as an error, and the notifications of the tick are those of the
    failing queries, in order, each naming its stat and instance, as far
    as SNS accepts them.  An empty answer sends nothing. *)
Theorem record_metrics_absent_and_notified cfg e st st' :
  record_metrics cfg e st = (Ok tt, st') ->
  (exists line entries,
     file_lines st' (metrics cfg) = (file_lines st (metrics cfg) ++ [line])%list
     /\ getitem line "metrics" = Ok (VList entries)
     /\ forall i s entry,
          In s (stats cfg) ->
          In entry entries ->
          getitem entry "instance_id" = Ok (VStr i) ->
          (metric_statistics e s i = inr []
           \/ exists msg, metric_statistics e s i = inl msg) ->
          and_then (getitem entry "stats") (fun d => getitem d s) = Ok VNone)
  /\ published st'
     = (published st
        ++ filter (accepted e)
             (flat_map (fun i =>
                flat_map (fun s =>
                  match metric_statistics e s i with
                  | inl msg =>
                      [{| TopicArn := error_topic_arn cfg;
                          Subject := "Error Notification: EC2 Monitoring";
                          Message := "Error getting metric statistics for "
                                     ++ s ++ " on " ++ i ++ ": " ++ msg |}]
                  | inr _ => []
                  end) (stats cfg)) (instances cfg)))%list
  /\ exists records,
       log st' = (log st ++ records)%list
       /\ forall i s msg,
            In i (instances cfg) -> In s (stats cfg) ->
            metric_statistics e s i = inl msg ->
            In (LogText ERROR ("Error getting metric statistics for " ++ s
                               ++ " on " ++ i ++ ": " ++ msg)) records.
Proof.
  intros H. pose proof (record_metrics_log cfg e st) as L.
  rewrite H in L. cbn [snd] in L.
  apply record_metrics_line in H. destruct H as [Hline Hpub].
  split; [|split; [exact Hpub|exact L]].
  exists (recorded_line cfg e), (map (recorded_entry cfg e) (instances cfg)).
  split; [exact Hline|]. split; [reflexivity|].
  intros i s entry Hs Hin Hid Hresp.
  rewrite (recorded_entry_stat cfg e i s entry Hin Hid Hs).
  unfold recorded_value. destruct Hresp as [->|[msg ->]]; reflexivity.
Qed.

(* ------------------------------------------------------------------ *)
(** ** Timestamps: printing and reading back *)

#[local] Arguments String.append : simpl nomatch.

Lemma string_app_assoc (a b c : string) : (a ++ b) ++ c = a ++ (b ++ c).
Proof. induction a as [|x a IH]; cbn; [reflexivity|now rewrite IH]. Qed.

Lemma string_app_nil_r (a : string) : a ++ "" = a.
Proof. induction a as [|x a IH]; cbn; [reflexivity|now rewrite IH]. Qed.

Lemma digit_value_digit n : digit_value (digit n) = Some (n mod 10)%N.
Proof.
  unfold digit_value, digit.
  assert (Hlt : (n mod 10 < 10)%N) by (apply N.mod_lt; discriminate).
  rewrite N_ascii_embedding by lia.
  replace ((48 <=? 48 + n mod 10)%N && (48 + n mod 10 <=? 57)%N) with true.
  - f_equal. revert Hlt. generalize (n mod 10)%N. intros m Hm. lia.
  - symmetry. revert Hlt. generalize (n mod 10)%N. intros m Hm.
    apply andb_true_iff. split; apply N.leb_le; lia.
Qed.

Lemma read_digits_zero_pad w : forall n rest,
  (n < 10 ^ N.of_nat w)%N ->
  read_digits w (zero_pad w n ++ rest) = Some (n, rest).
Proof.
  induction w as [|w IH]; intros n rest Hn.
  - cbn in *. f_equal. f_equal. lia.
  - cbn [zero_pad read_digits].
    rewrite string_app_assoc.
    assert (Hdiv : (n / 10 < 10 ^ N.of_nat w)%N).
    { apply N.Div0.div_lt_upper_bound.
      rewrite Nat2N.inj_succ, N.pow_succ_r' in Hn. exact Hn. }
    rewrite (IH _ _ Hdiv). cbn [String.append].
    rewrite digit_value_digit. f_equal. f_equal.
    pose proof (N.div_mod n 10). lia.
Qed.

Lemma read_char_lit c rest : read_char c (String c "" ++ rest) = Some rest.
Proof. cbn. now rewrite Ascii.eqb_refl. Qed.

Lemma read2 n rest :
  (n < 100)%N -> read_digits 2 (zero_pad 2 n ++ rest) = Some (n, rest).
Proof. intros H. now apply read_digits_zero_pad. Qed.

Lemma read4 n rest :
  (n < 10000)%N -> read_digits 4 (zero_pad 4 n ++ rest) = Some (n, rest).
Proof. intros H. now apply read_digits_zero_pad. Qed.

Lemma read6 n rest :
  (n < 1000000)%N -> read_digits 6 (zero_pad 6 n ++ rest) = Some (n, rest).
Proof. intros H. now apply read_digits_zero_pad. Qed.

Lemma datetime_valid_bounds d :
  datetime_valid d = true ->
  (year d < 10000 /\ month d < 100 /\ day d < 100 /\ hour d < 100
   /\ minute d < 100 /\ second d < 100 /\ microsecond d < 1000000)%N.
Proof.
  unfold datetime_valid. rewrite !andb_true_iff.
  rewrite !N.leb_le, !N.ltb_lt. lia.
Qed.

(** Reading with the separator that was printed gives the datetime back. *)
Lemma read_isoformat_isoformat sep d :
  datetime_valid d = true ->
  read_isoformat sep (isoformat sep d) = Some (d, "").
Proof.
  intros Hv. destruct (datetime_valid_bounds d Hv) as (Hy & Hmo & Hd & Hh & Hmi & Hs & Hus).
  unfold read_isoformat, isoformat.
  rewrite read4 by assumption. cbn [opt_bind]. rewrite read_char_lit. cbn [opt_bind].
  rewrite read2 by assumption. cbn [opt_bind]. rewrite read_char_lit. cbn [opt_bind].
  rewrite read2 by assumption. cbn [opt_bind]. rewrite read_char_lit. cbn [opt_bind].
  rewrite read2 by assumption. cbn [opt_bind]. rewrite read_char_lit. cbn [opt_bind].
  rewrite read2 by assumption. cbn [opt_bind]. rewrite read_char_lit. cbn [opt_bind].
  rewrite read2 by assumption. cbn [opt_bind].
  destruct (microsecond d =? 0)%N eqn:E.
  - cbn. apply N.eqb_eq in E. destruct d; cbn in *. now subst.
  - rewrite read_char_lit.
    rewrite <- (string_app_nil_r (zero_pad 6 (microsecond d))).
    rewrite read6 by assumption. cbn [opt_bind]. now destruct d.
Qed.

Lemma parse_datetime_str d :
  datetime_valid d = true -> parse_datetime (datetime_str d) = Some d.
Proof.
  intros Hv. unfold parse_datetime, datetime_str.
  now rewrite read_isoformat_isoformat, Hv.
Qed.

(** The text [str] prints has a space where ISO 8601 wants [T]. *)
Lemma datetime_str_not_iso8601 d :
  datetime_valid d = true -> is_iso8601 (datetime_str d) = false.
Proof.
  intros Hv. destruct (datetime_valid_bounds d Hv) as (Hy & Hmo & Hd & _).
  unfold is_iso8601, datetime_str, read_isoformat, isoformat.
  rewrite read4 by assumption. cbn [opt_bind]. rewrite read_char_lit. cbn [opt_bind].
  rewrite read2 by assumption. cbn [opt_bind]. rewrite read_char_lit. cbn [opt_bind].
  rewrite read2 by assumption. reflexivity.
Qed.

Lemma isoformat_T_iso8601 d :
  datetime_valid d = true -> is_iso8601 (isoformat "T" d) = true.
Proof.
  intros Hv. unfold is_iso8601.
  now rewrite read_isoformat_isoformat, Hv.
Qed.

#[local] Arguments String.append : simpl never.

(* ------------------------------------------------------------------ *)
(** ** The log as a sequence of MetricRecords *)

Lemma dict_set_In {V} (d : dict V) k v kv :
  In kv (dict_set d k v) -> snd kv = v \/ In kv d.
Proof.
  induction d as [|[k0 v0] r IH]; simpl.
  - intros [<-|[]]. now left.
  - destruct (String.eqb k0 k); simpl.
    + intros [<-|H]; auto.
    + intros [<-|H]; auto. destruct (IH H); auto.
Qed.

Lemma fold_set_values {V} (f : string -> V) (P : V -> Prop) l : forall d,
  (forall kv, In kv d -> P (snd kv)) ->
  (forall s, P (f s)) ->
  forall kv, In kv (fold_left (fun d s => dict_set d s (f s)) l d) -> P (snd kv).
Proof.
  induction l as [|s r IH]; intros d Hd Hf kv; simpl.
  - apply Hd.
  - apply IH; auto. intros kv' Hin. apply dict_set_In in Hin.
    destruct Hin as [->|Hin]; auto.
Qed.

Lemma recorded_stats_values cfg e i :
  forallb (fun kv => stat_value_ok (snd kv)) (recorded_stats cfg e i) = true.
Proof.
  apply forallb_forall. unfold recorded_stats.
  apply (fold_set_values (recorded_value e i)
           (fun v => stat_value_ok v = true)).
  - intros ? [].
  - intros s. destruct (recorded_value_shape e i s) as [->|[q ->]]; reflexivity.
Qed.

Lemma parse_stats_total d :
  forallb (fun kv => stat_value_ok (snd kv)) d = true ->
  exists m, parse_stats d = Some m.
Proof.
  induction d as [|[k v] r IH]; simpl; intros H.
  - eauto.
  - apply andb_true_iff in H. destruct H as [Hv Hr].
    destruct (IH Hr) as [m ->].
    destruct v; try discriminate; simpl; eauto.
Qed.

Lemma entry_ok_recorded cfg e i : entry_ok (recorded_entry cfg e i) = true.
Proof. unfold entry_ok, recorded_entry. cbn. apply recorded_stats_values. Qed.

Lemma parse_entry_recorded cfg e i :
  exists m, parse_entry (recorded_entry cfg e i) = Some (mkInstanceMetrics i m).
Proof.
  destruct (parse_stats_total _ (recorded_stats_values cfg e i)) as [m Hm].
  exists m. unfold parse_entry, recorded_entry. cbn. now rewrite Hm.
Qed.

Lemma parse_entries_recorded cfg e l :
  exists es, parse_entries (map (recorded_entry cfg e) l) = Some es
             /\ map instance_id es = l.
Proof.
  induction l as [|i r (es & IH & Hids)]; cbn [parse_entries map].
  - now exists [].
  - destruct (parse_entry_recorded cfg e i) as [m ->]. rewrite IH.
    cbn [opt_bind]. eexists; split; [reflexivity|]. simpl. now rewrite Hids.
Qed.

Lemma parse_record_recorded_line cfg e :
  datetime_valid (utcnow e) = true ->
  exists r, parse_record (recorded_line cfg e) = Some r
            /\ timestamp r = utcnow e
            /\ map instance_id (instance_entries r) = instances cfg.
Proof.
  intros Hv.
  destruct (parse_entries_recorded cfg e (instances cfg)) as (es & Hes & Hids).
  exists (mkMetricRecord (utcnow e) es). split; [|split; [reflexivity|exact Hids]].
  unfold parse_record, recorded_line. cbn.
  now rewrite (parse_datetime_str _ Hv), Hes.
Qed.

Lemma schema_ok_recorded_line cfg e :
  datetime_valid (utcnow e) = true ->
  schema_ok is_python_datetime_str (recorded_line cfg e) = true.
Proof.
  intros Hv. unfold schema_ok, recorded_line. cbn.
  unfold is_python_datetime_str. rewrite (parse_datetime_str _ Hv). simpl.
  apply forallb_forall. intros x Hx. apply in_map_iff in Hx.
  destruct Hx as (i & <- & _). apply entry_ok_recorded.
Qed.

Lemma ticks_complete cfg envs : forall st,
  (forall e, In e envs -> open_append_error e (metrics cfg) = None) ->
  exists st',
    ticks cfg envs st = (Ok tt, st')
    /\ file_lines st' (metrics cfg)
       = (file_lines st (metrics cfg) ++ map (recorded_line cfg) envs)%list.
Proof.
  induction envs as [|e r IH]; intros st Hopen.
  - exists st. split; [reflexivity|]. simpl. now rewrite app_nil_r.
  - destruct (record_metrics_appends cfg e st (Hopen e (or_introl eq_refl)))
      as (st1 & H1 & F1 & _).
    destruct (IH st1 (fun e' H => Hopen e' (or_intror H))) as (st2 & H2 & L2).
    exists st2. split.
    + unfold ticks in *. simpl. unfold bind. now rewrite H1.
    + rewrite L2, (file_lines_after_set _ _ _ _ F1). simpl.
      now rewrite <- app_assoc.
Qed.

Lemma parse_stats_keys d : forall m, parse_stats d = Some m -> map fst m = map fst d.
Proof.
  induction d as [|[k v] r IH]; simpl; intros m H.
  - now injection H as <-.
  - destruct (parse_stat_value v) as [x|]; [|discriminate].
    destruct (parse_stats r) as [xs|]; [|discriminate].
    injection H as <-. simpl. now rewrite (IH xs).
Qed.

(** The record read back from the line of a tick: its time stamp is the
    clock reading of the tick, its entries are those of the configured
    instances, in order, each with the configured stats. *)
Lemma parse_record_recorded_line_entries cfg e :
  datetime_valid (utcnow e) = true ->
  exists r, parse_record (recorded_line cfg e) = Some r
            /\ timestamp r = utcnow e
            /\ map instance_id (instance_entries r) = instances cfg
            /\ Forall (fun en => forall s, In s (map fst (instance_stats en))
                                           <-> In s (stats cfg))
                      (instance_entries r).
Proof.
  intros Hv.
  assert (Hes : exists es,
             parse_entries (map (recorded_entry cfg e) (instances cfg)) = Some es
             /\ map instance_id es = instances cfg
             /\ Forall (fun en => forall s, In s (map fst (instance_stats en))
                                            <-> In s (stats cfg)) es).
  { induction (instances cfg) as [|i r (es & IH & Hids & Hkeys)];
      cbn [parse_entries map].
    - exists []. repeat split; constructor.
    - destruct (parse_stats_total _ (recorded_stats_values cfg e i)) as [m Hm].
      unfold parse_entry at 1, recorded_entry at 1. cbn. rewrite Hm, IH.
      cbn [opt_bind]. eexists; split; [reflexivity|]. split.
      + simpl. now rewrite Hids.
      + constructor; [|exact Hkeys]. intros s. cbn [instance_stats].
        rewrite (parse_stats_keys _ _ Hm). apply recorded_stats_keys. }
  destruct Hes as (es & Hes & Hids & Hkeys).
  exists (mkMetricRecord (utcnow e) es).
  split; [|split; [reflexivity|split; [exact Hids|exact Hkeys]]].
  unfold parse_record, recorded_line. cbn.
  now rewrite (parse_datetime_str _ Hv), Hes.
Qed.

(** C7, as the code has it: from an empty metrics log, N ticks whose
    appends succeed leave N lines; every line parses as a MetricRecord
    with an entry for every configured instance and a value for every
    configured stat, and the time stamps read back are the readings of the
    clock at the ticks, in order.  They do not decrease exactly when the
    readings of the clock do not. *)
Theorem ticks_log_lines cfg envs st :
  file_lines st (metrics cfg) = [] ->
  (forall e, In e envs -> open_append_error e (metrics cfg) = None) ->
  (forall e, In e envs -> datetime_valid (utcnow e) = true) ->
  exists st' records,
    ticks cfg envs st = (Ok tt, st')
    /\ length (file_lines st' (metrics cfg)) = length envs
    /\ map parse_record (file_lines st' (metrics cfg)) = map Some records
    /\ Forall (fun r =>
                 map instance_id (instance_entries r) = instances cfg
                 /\ Forall (fun en => forall s, In s (map fst (instance_stats en))
                                                <-> In s (stats cfg))
                           (instance_entries r)) records
    /\ map timestamp records = map utcnow envs
    /\ (Sorted datetime_le (map timestamp records)
        <-> Sorted datetime_le (map utcnow envs)).
Proof.
  intros Hempty Hopen Hvalid.
  destruct (ticks_complete cfg envs st Hopen) as (st' & Hrun & Hlines).
  rewrite Hempty in Hlines. simpl in Hlines.
  assert (Hrec : exists records,
             map parse_record (map (recorded_line cfg) envs) = map Some records
             /\ Forall (fun r =>
                          map instance_id (instance_entries r) = instances cfg
                          /\ Forall (fun en =>
                                       forall s, In s (map fst (instance_stats en))
                                                 <-> In s (stats cfg))
                                    (instance_entries r)) records
             /\ map timestamp records = map utcnow envs).
  { clear Hopen Hrun Hlines.
    induction envs as [|e r IH].
    - exists []. repeat split; constructor.
    - destruct (parse_record_recorded_line_entries cfg e
                  (Hvalid e (or_introl eq_refl)))
        as (x & Hx & Ht & Hids & Hkeys).
      destruct (IH (fun e' H => Hvalid e' (or_intror H))) as (xs & Hxs & Hall & Hts).
      exists (x :: xs). cbn [map]. rewrite Hx, Hxs, Ht, Hts.
      repeat split; auto. }
  destruct Hrec as (records & Hparse & Hall & Hts).
  exists st', records. rewrite Hlines.
  split; [exact Hrun|]. split; [now rewrite length_map|].
  split; [exact Hparse|]. split; [exact Hall|]. split; [exact Hts|].
  now rewrite Hts.
Qed.

(** C8, as the code has it: the line a tick appends is a JSON object with
    the keys of the schema, instance ids that are strings and stats that
    are numbers or null; its time stamp is [str] of the collection instant,
    date and time separated by a space, which ISO 8601 does not admit. *)
Theorem record_metrics_line_schema cfg e st st' :
  record_metrics cfg e st = (Ok tt, st') ->
  datetime_valid (utcnow e) = true ->
  exists line,
    file_lines st' (metrics cfg) = (file_lines st (metrics cfg) ++ [line])%list
    /\ schema_ok is_python_datetime_str line = true
    /\ getitem line "timestamp" = Ok (VStr (isoformat " " (utcnow e)))
    /\ is_iso8601 (isoformat " " (utcnow e)) = false
    /\ is_iso8601 (isoformat "T" (utcnow e)) = true.
Proof.
  intros H Hv. apply record_metrics_line in H. destruct H as [Hline _].
  exists (recorded_line cfg e). split; [exact Hline|].
  split; [now apply schema_ok_recorded_line|].
  split; [reflexivity|].
  split; [now apply datetime_str_not_iso8601|now apply isoformat_T_iso8601].
Qed.

(* ------------------------------------------------------------------ *)
(** ** Rounding to binary64 *)

Section Rounding.

Local Open Scope Z_scope.

(** [round_half_even] gives a nearest integer, the even one at a tie. *)
Lemma round_half_even_nearest n d :
  0 <= n -> 0 < d ->
  Z.abs (2 * n - 2 * round_half_even n d * d) <= d.
Proof.
  intros Hn Hd. unfold round_half_even.
  pose proof (Z.div_mod n d ltac:(lia)) as E.
  pose proof (Z.mod_pos_bound n d Hd) as B.
  destruct (Z.compare_spec (2 * (n mod d)) d);
    [destruct (Z.even (n / d))|..]; nia.
Qed.

Lemma round_half_even_tie n d :
  0 <= n -> 0 < d -> 2 * (n mod d) = d ->
  Z.even (round_half_even n d) = true.
Proof.
  intros Hn Hd Ht. unfold round_half_even. rewrite Ht, Z.compare_refl.
  destruct (Z.even (n / d)) eqn:E; [exact E|].
  rewrite Z.even_add, E. reflexivity.
Qed.

Lemma round_half_even_multiple m d :
  0 < d -> round_half_even (m * d) d = m.
Proof.
  intros Hd. unfold round_half_even.
  rewrite Z.div_mul, Z.mod_mul by lia.
  destruct (Z.compare_spec (2 * 0) d); lia.
Qed.

Lemma floor_log2_spec n d :
  0 < n -> 0 < d ->
  let e := floor_log2 n d in
  if 0 <=? e then d * 2 ^ e <= n < d * 2 ^ (e + 1)
  else d <= n * 2 ^ (- e) < 2 * d.
Proof.
  intros Hn Hd. unfold floor_log2.
  pose proof (Z.log2_spec n Hn) as Ln. pose proof (Z.log2_spec d Hd) as Ld.
  pose proof (Z.log2_nonneg n). pose proof (Z.log2_nonneg d).
  set (a := Z.log2 n) in *. set (b := Z.log2 d) in *.
  rewrite Z.pow_succ_r in Ln, Ld by lia.
  destruct (Z.leb_spec 0 (a - b)) as [Hab|Hab].
  - assert (Ea : 2 ^ a = 2 ^ b * 2 ^ (a - b)).
    { rewrite <- Z.pow_add_r by lia. f_equal. lia. }
    assert (0 < 2 ^ (a - b)) by (apply Z.pow_pos_nonneg; lia).
    assert (0 < 2 ^ b) by (apply Z.pow_pos_nonneg; lia).
    destruct (Z.leb_spec (d * 2 ^ (a - b)) n) as [Hle|Hlt].
    + replace (0 <=? a - b) with true by (symmetry; apply Z.leb_le; lia).
      split; [exact Hle|].
      rewrite Z.pow_add_r, Z.pow_1_r by lia. nia.
    + destruct (Z.leb_spec 0 (a - b - 1)) as [Hm1|Hm1].
      * assert (E1 : 2 ^ (a - b) = 2 * 2 ^ (a - b - 1)).
        { rewrite <- Z.pow_succ_r by lia. f_equal. lia. }
        replace (a - b - 1 + 1) with (a - b) by lia.
        split; [nia|exact Hlt].
      * replace (a - b - 1) with (-1) by lia.
        replace (a - b) with 0 in Hlt, Ea by lia.
        change (2 ^ (- -1)) with 2. rewrite Z.pow_0_r in Hlt, Ea.
        cbn [Z.leb Z.compare]. lia.
  - assert (Eb : 2 ^ b = 2 ^ a * 2 ^ (- (a - b))).
    { rewrite <- Z.pow_add_r by lia. f_equal. lia. }
    assert (0 < 2 ^ (- (a - b))) by (apply Z.pow_pos_nonneg; lia).
    assert (0 < 2 ^ a) by (apply Z.pow_pos_nonneg; lia).
    destruct (Z.leb_spec d (n * 2 ^ (- (a - b)))) as [Hle|Hlt].
    + replace (0 <=? a - b) with false by (symmetry; apply Z.leb_gt; lia).
      split; [exact Hle|]. nia.
    + replace (0 <=? a - b - 1) with false by (symmetry; apply Z.leb_gt; lia).
      replace (- (a - b - 1)) with (Z.succ (- (a - b))) by lia.
      rewrite Z.pow_succ_r by lia. split; nia.
Qed.

Local Open Scope Q_scope.

Lemma inject_two_power k : (0 <= k)%Z -> inject_Z (2 ^ k) == 2 ^ k.
Proof. intros H. now rewrite Zpower_Qpower. Qed.

Lemma scale_value m k : scale m k == inject_Z m * 2 ^ k.
Proof.
  unfold scale. destruct (Z.leb_spec 0 k) as [Hk|Hk].
  - rewrite inject_Z_mult. now rewrite inject_two_power.
  - rewrite Qred_correct, Qmake_Qdiv.
    assert (Hp : (0 < 2 ^ (- k))%Z) by (apply Z.pow_pos_nonneg; lia).
    rewrite Z2Pos.id by exact Hp.
    rewrite inject_two_power by lia.
    unfold Qdiv. rewrite <- Qpower_opp. now rewrite Z.opp_involutive.
Qed.


Lemma Qabs_fraction_le a b c :
  (0 < b)%Z -> (2 * Z.abs a <= c)%Z ->
  Qabs (inject_Z a / inject_Z b) * 2 <= inject_Z c / inject_Z b.
Proof.
  intros Hb Hc.
  assert (Hbq : 0 < inject_Z b) by (change 0 with (inject_Z 0); now rewrite <- Zlt_Qlt).
  unfold Qdiv. rewrite Qabs_Qmult, (Qabs_pos (/ inject_Z b)).
  2:{ apply Qlt_le_weak, Qinv_lt_0_compat, Hbq. }
  change (inject_Z a) with (a # 1). rewrite <- Zabs_Qabs.
  change (Z.abs a # 1) with (inject_Z (Z.abs a)).
  setoid_replace (inject_Z (Z.abs a) * / inject_Z b * 2)
    with (inject_Z (2 * Z.abs a) * / inject_Z b)
    by (rewrite inject_Z_mult; ring).
  apply Qmult_le_compat_r.
  - now rewrite <- Zle_Qle.
  - apply Qlt_le_weak, Qinv_lt_0_compat, Hbq.
Qed.

Lemma inject_Z_nonzero z : z <> 0%Z -> ~ inject_Z z == 0.
Proof. intros H Hc. apply H. unfold Qeq in Hc. cbn in Hc. lia. Qed.

Lemma Q_as_fraction q : q == inject_Z (Qnum q) / inject_Z (Zpos (Qden q)).
Proof. destruct q as [a b]. cbn [Qnum Qden]. apply Qmake_Qdiv. Qed.

(** [round_double q] is a binary64 number, a multiple [m * 2 ^ k] with
    [|m| <= 2 ^ 53] on the grid of its binade (or on the grid of the
    subnormal numbers), and no number of that grid is nearer to [q]. *)
Lemma round_double_nearest q :
  ~ q == 0 ->
  exists m k : Z,
    round_double q == inject_Z m * 2 ^ k
    /\ (Z.abs m <= 2 ^ 53)%Z
    /\ (-1074 <= k)%Z
    /\ (k = -1074 \/ 2 ^ 52 <= Z.abs m)%Z
    /\ Qabs (q - round_double q) * 2 <= 2 ^ k.
Proof.
  intros Hq. unfold round_double.
  set (N := Qnum q). set (d := Zpos (Qden q)).
  assert (HN : N <> 0%Z).
  { intros HN. apply Hq. unfold Qeq. cbn. fold N. lia. }
  assert (Hd : (0 < d)%Z) by (unfold d; lia).
  assert (Hn : (0 < Z.abs N)%Z) by lia.
  destruct (Z.eqb_spec (Z.abs N) 0) as [Hz|_]; [lia|].
  pose proof (floor_log2_spec (Z.abs N) d Hn Hd) as He. cbv zeta in He.
  set (e := floor_log2 (Z.abs N) d) in *.
  set (k := Z.max (e - 52) (-1074)).
  assert (Hk : (-1074 <= k)%Z) by (unfold k; lia).
  set (m0 := if (0 <=? k)%Z then round_half_even (Z.abs N) (d * 2 ^ k)
             else round_half_even (Z.abs N * 2 ^ (- k)) d).
  exists (Z.sgn N * m0)%Z, k.
  split; [apply scale_value|].
  assert (Hq' : q == inject_Z N / inject_Z d) by apply Q_as_fraction.
  assert (Hm0 : (0 <= m0)%Z /\ (m0 <= 2 ^ 53)%Z
                /\ (k = -1074 \/ 2 ^ 52 <= m0)%Z
                /\ (if (0 <=? k)%Z
                    then 2 * Z.abs (Z.abs N - m0 * (d * 2 ^ k)) <= d * 2 ^ k
                    else 2 * Z.abs (Z.abs N * 2 ^ (- k) - m0 * d) <= d)%Z).
  { unfold m0. destruct (Z.leb_spec 0 k) as [Hk0|Hk0].
    - assert (Ek : k = (e - 52)%Z) by (unfold k in *; lia).
      assert (He0 : (0 <=? e)%Z = true) by (apply Z.leb_le; lia).
      rewrite He0 in He.
      assert (Hp : (0 < 2 ^ k)%Z) by (apply Z.pow_pos_nonneg; lia).
      assert (E1 : (2 ^ e = 2 ^ 52 * 2 ^ k)%Z).
      { rewrite <- Z.pow_add_r by lia. f_equal. lia. }
      assert (E2 : (2 ^ (e + 1) = 2 ^ 53 * 2 ^ k)%Z).
      { rewrite <- Z.pow_add_r by lia. f_equal. lia. }
      rewrite E1, E2 in He.
      pose proof (round_half_even_nearest (Z.abs N) (d * 2 ^ k)
                    ltac:(lia) ltac:(nia)) as Hr.
      set (r := round_half_even (Z.abs N) (d * 2 ^ k)) in *.
      set (D := (d * 2 ^ k)%Z) in *.
      assert (HD : (0 < D)%Z) by (unfold D; nia).
      change (2 ^ 52)%Z with 4503599627370496%Z in *.
      change (2 ^ 53)%Z with 9007199254740992%Z in *.
      assert (Hlo : (D * 4503599627370496 <= Z.abs N)%Z) by (unfold D; lia).
      assert (Hhi : (Z.abs N < D * 9007199254740992)%Z) by (unfold D; lia).
      clearbody r D. clear - Hr HD Hlo Hhi.
      repeat split; try right; nia.
    - pose proof (round_half_even_nearest (Z.abs N * 2 ^ (- k)) d) as Hr.
      assert (Hp : (0 < 2 ^ (- k))%Z) by (apply Z.pow_pos_nonneg; lia).
      specialize (Hr ltac:(nia) Hd).
      set (r := round_half_even (Z.abs N * 2 ^ (- k)) d) in *.
      set (T := (Z.abs N * 2 ^ (- k))%Z) in *.
      assert (Hbound : (T < 9007199254740992 * d)%Z
                       /\ (k = -1074 \/ 4503599627370496 * d <= T)%Z).
      { unfold T. destruct (Z.leb_spec 0 e) as [He0|He0].
        - assert (Ek : k = (e - 52)%Z) by (unfold k in *; lia).
          assert (E1 : (2 ^ 52 = 2 ^ e * 2 ^ (- k))%Z).
          { rewrite <- Z.pow_add_r by lia. f_equal. lia. }
          assert (E2 : (2 ^ 53 = 2 ^ (e + 1) * 2 ^ (- k))%Z).
          { rewrite <- Z.pow_add_r by lia. f_equal. lia. }
          change (2 ^ 52)%Z with 4503599627370496%Z in *.
          change (2 ^ 53)%Z with 9007199254740992%Z in *.
          split; [|right]; nia.
        - assert (Hle : (e - 52 <= k)%Z) by (unfold k; lia).
          assert (E1 : (2 ^ (- e) * 2 ^ 53 = 2 * (2 ^ (- k) * 2 ^ (k - (e - 52))))%Z).
          { rewrite <- (Z.pow_add_r 2 (- e) 53) by lia.
            rewrite <- (Z.pow_add_r 2 (- k) (k - (e - 52))) by lia.
            rewrite <- (Z.pow_succ_r 2) by lia. f_equal. lia. }
          assert (Hp2 : (0 < 2 ^ (- e))%Z) by (apply Z.pow_pos_nonneg; lia).
          assert (Hp3 : (0 < 2 ^ (k - (e - 52)))%Z) by (apply Z.pow_pos_nonneg; lia).
          change (2 ^ 53)%Z with 9007199254740992%Z in *.
          split.
          + (* N * 2^-e < 2 d, so N * 2^-k * 2^(k-e+52) * 2 < 2 d 2^53 *)
            assert (Z.abs N * (2 ^ (- e) * 9007199254740992)
                    < 2 * d * 9007199254740992)%Z by nia.
            rewrite E1 in H. nia.
          + destruct (Z.eq_dec k (-1074)) as [->|Hne]; [now left|right].
            assert (Ek : k = (e - 52)%Z) by (unfold k in *; lia).
            replace (k - (e - 52))%Z with 0%Z in E1 by lia.
            rewrite Z.pow_0_r in E1. nia. }
      change (2 ^ 52)%Z with 4503599627370496%Z in *.
      change (2 ^ 53)%Z with 9007199254740992%Z in *.
      assert (HT : (0 <= T)%Z) by (unfold T; nia).
      clearbody r T. clear - Hr Hd Hbound HT.
      destruct Hbound as [Hhi Hlo].
      split; [nia|]. split; [nia|]. split.
      + destruct Hlo as [->|Hlo]; [now left|right; nia].
      + nia. }
  destruct Hm0 as (Hm0 & Hm53 & Hm52 & Herr).
  assert (Hsgn : Z.abs (Z.sgn N * m0) = m0).
  { destruct N; cbn [Z.sgn]; lia. }
  rewrite Hsgn. split; [exact Hm53|]. split; [exact Hk|]. split; [exact Hm52|].
  rewrite scale_value, Hq'.
  assert (Hdq : ~ inject_Z d == 0).
  { apply inject_Z_nonzero. lia. }
  destruct (Z.leb_spec 0 k) as [Hk0|Hk0].
  - rewrite <- (inject_two_power k Hk0).
    setoid_replace (inject_Z N / inject_Z d - inject_Z (Z.sgn N * m0) * inject_Z (2 ^ k))
      with (inject_Z (N - Z.sgn N * m0 * (d * 2 ^ k)) / inject_Z d).
    2:{ unfold Zminus. rewrite inject_Z_plus, inject_Z_opp, !inject_Z_mult.
        field. exact Hdq. }
    setoid_replace (inject_Z (2 ^ k)) with (inject_Z (d * 2 ^ k) / inject_Z d).
    2:{ rewrite inject_Z_mult. field. exact Hdq. }
    apply Qabs_fraction_le; [exact Hd|].
    replace (N - Z.sgn N * m0 * (d * 2 ^ k))%Z
      with (Z.sgn N * (Z.abs N - m0 * (d * 2 ^ k)))%Z.
    + rewrite Z.abs_mul. destruct N; cbn [Z.sgn Z.abs] in *; lia.
    + rewrite Z.mul_sub_distr_l, (Z.mul_comm (Z.sgn N) (Z.abs N)), Z.abs_sgn. ring.
  - assert (Hp : (0 < 2 ^ (- k))%Z) by (apply Z.pow_pos_nonneg; lia).
    assert (HT : ~ inject_Z (2 ^ (- k)) == 0).
    { apply inject_Z_nonzero. lia. }
    assert (E : 2 ^ k == / inject_Z (2 ^ (- k))).
    { rewrite inject_two_power by lia. rewrite Qpower_opp. now rewrite Qinv_involutive. }
    rewrite E.
    setoid_replace (inject_Z N / inject_Z d
                    - inject_Z (Z.sgn N * m0) * / inject_Z (2 ^ (- k)))
      with (inject_Z (N * 2 ^ (- k) - Z.sgn N * m0 * d)
            / inject_Z (d * 2 ^ (- k))).
    2:{ unfold Zminus. rewrite inject_Z_plus, inject_Z_opp, !inject_Z_mult.
        field. split; assumption. }
    setoid_replace (/ inject_Z (2 ^ (- k)))
      with (inject_Z d / inject_Z (d * 2 ^ (- k))).
    2:{ rewrite inject_Z_mult. field. split; assumption. }
    apply Qabs_fraction_le; [nia|].
    replace (N * 2 ^ (- k) - Z.sgn N * m0 * d)%Z
      with (Z.sgn N * (Z.abs N * 2 ^ (- k) - m0 * d))%Z.
    + rewrite Z.abs_mul. destruct N; cbn [Z.sgn Z.abs] in *; lia.
    + rewrite Z.mul_sub_distr_l, Z.mul_assoc, (Z.mul_comm (Z.sgn N) (Z.abs N)), Z.abs_sgn. ring.
Qed.

Lemma Qred_inject_Z z : Qred (inject_Z z) = inject_Z z.
Proof.
  unfold Qred, inject_Z.
  pose proof (Z.ggcd_gcd z 1) as G. pose proof (Z.ggcd_correct_divisors z 1) as D.
  destruct (Z.ggcd z 1) as [g [aa bb]]. cbn [fst snd] in *.
  rewrite Z.gcd_1_r in G. subst g. destruct D as [Ha Hb].
  assert (Ea : aa = z) by lia. assert (Eb : bb = 1%Z) by lia.
  rewrite Ea, Eb. reflexivity.
Qed.

Lemma round_half_even_one n : round_half_even n 1 = n.
Proof.
  unfold round_half_even. now rewrite Z.div_1_r, Z.mod_1_r.
Qed.

(** The integers up to [2 ^ 53] are binary64 numbers. *)
Lemma round_double_small_int z :
  (Z.abs z <= 2 ^ 53)%Z -> round_double (inject_Z z) = inject_Z z.
Proof.
  intros Hz. unfold round_double. cbn [Qnum Qden inject_Z].
  destruct (Z.eqb_spec (Z.abs z) 0) as [H0|H0].
  { assert (z = 0%Z) by lia. subst. reflexivity. }
  pose proof (floor_log2_spec (Z.abs z) 1 ltac:(lia) ltac:(lia)) as He.
  cbv zeta in He. set (e := floor_log2 (Z.abs z) 1) in *.
  assert (Hs : (Z.sgn z * Z.abs z = z)%Z) by (rewrite Z.mul_comm; apply Z.abs_sgn).
  destruct (Z.leb_spec 0 e) as [He0|He0].
  2:{ exfalso. assert (2 <= 2 ^ (- e))%Z.
      { change 2%Z with (2 ^ 1)%Z at 1. apply Z.pow_le_mono_r; lia. }
      nia. }
  assert (He53 : (e <= 53)%Z).
  { destruct (Z.le_gt_cases e 53) as [|Hgt]; [assumption|exfalso].
    assert (2 ^ 54 <= 2 ^ e)%Z by (apply Z.pow_le_mono_r; lia).
    change (2 ^ 54)%Z with 18014398509481984%Z in *.
    change (2 ^ 53)%Z with 9007199254740992%Z in *. lia. }
  replace (Z.max (e - 52) (-1074)) with (e - 52)%Z by lia.
  unfold scale. destruct (Z.leb_spec 0 (e - 52)) as [Hk|Hk].
  - f_equal.
    assert (Hcase : (e = 52 \/ e = 53)%Z) by lia.
    destruct Hcase as [-> | ->]; change (52 - 52)%Z with 0%Z;
      change (53 - 52)%Z with 1%Z.
    + change (1 * 2 ^ 0)%Z with 1%Z. rewrite round_half_even_one.
      rewrite Z.pow_0_r, Z.mul_1_r. exact Hs.
    + change (2 ^ (53 + 1))%Z with 18014398509481984%Z in *.
      change (2 ^ 53)%Z with 9007199254740992%Z in *.
      assert (Ez : Z.abs z = (4503599627370496 * (1 * 2 ^ 1))%Z) by (cbn; lia).
      rewrite Ez. rewrite round_half_even_multiple by (cbn; lia).
      destruct z; cbn in *; lia.
  - rewrite round_half_even_one.
    rewrite <- (Qred_inject_Z z). apply Qred_complete.
    assert (Hp : (0 < 2 ^ (- (e - 52)))%Z) by (apply Z.pow_pos_nonneg; lia).
    unfold Qeq. cbn [Qnum Qden inject_Z]. rewrite Z2Pos.id by exact Hp.
    rewrite Z.mul_assoc, Hs. lia.
Qed.

End Rounding.

(** The conversions and rounded operations of CPython on sample values. *)
Example round_double_samples :
  round_double (1 # 10) = tenth
  /\ round_double (2 # 10) = fifth
  /\ round_double (tenth + fifth) = 1351079888211149 # 4503599627370496
  /\ round_double (1 # 3) = 6004799503160661 # 18014398509481984
  /\ round_double (inject_Z (2 ^ 53 + 1)) = inject_Z (2 ^ 53)
  /\ round_double (inject_Z (2 ^ 53 + 3)) = inject_Z (2 ^ 53 + 4)
  /\ round_double (7 # 3) = 5254199565265579 # 2251799813685248
  /\ round_double (1 # Z.to_pos (2 ^ 1075)) = 0
  /\ round_double (3 # Z.to_pos (2 ^ 1075)) = 1 # Z.to_pos (2 ^ 1073).
Proof. repeat split; vm_compute; reflexivity. Qed.

(** [repr] of a key, as [str(KeyError(key))] prints it. *)
Example py_repr_samples :
  py_repr "amber" = "'amber'"
  /\ py_repr "it's" = String double_quote ("it's" ++ String double_quote "")
  /\ py_repr (String backslash "n") = "'" ++ String backslash (String backslash "n'")
  /\ py_repr (String (ascii_of_nat 10) (String (ascii_of_nat 1) ""))
     = "'" ++ String backslash "n" ++ String backslash "x01'".
Proof. repeat split. Qed.

(* ------------------------------------------------------------------ *)
(** ** The weekly summary *)





Lemma to_number_None v : to_number v = None <-> as_number v = None.
Proof. destruct v; simpl; split; congruence. Qed.










Lemma summarise_stat_spec data ws stat ws' :
  summarise_stat data ws stat = Ok ws' ->
  exists values,
    stat_values data stat = Ok values
    /\ ((values = [] /\ ws' = ws)
        \/ (values <> []
            /\ exists s, summarise values = Ok s /\ ws' = dict_set ws stat s)).
Proof.
  unfold summarise_stat, and_then. intros H.
  destruct (stat_values data stat) as [values|]; [|discriminate].
  exists values. split; [reflexivity|].
  destruct values as [|v vs].
  - left. split; congruence.
  - right. split; [discriminate|].
    destruct (summarise (v :: vs)) as [s|]; [|discriminate].
    exists s. split; congruence.
Qed.



Lemma concat_empty_cons (a : string) (l : list string) :
  String.concat "" (a :: l) = a ++ String.concat "" l.
Proof.
  destruct l as [|b l]; [symmetry; apply string_app_nil_r|reflexivity].
Qed.

Lemma format_summary_sections py_str ws :
  format_summary py_str ws
  = ("Weekly Summary:" ++ LF)
    ++ String.concat "" (map (summary_section py_str) ws).
Proof.
  unfold format_summary. generalize ("Weekly Summary:" ++ LF).
  induction ws as [|item r IH]; intros init.
  - symmetry. apply string_app_nil_r.
  - cbn [fold_left map]. rewrite IH, string_app_assoc, concat_empty_cons.
    reflexivity.
Qed.

Lemma getitem_raises v k ex :
  getitem v k = Raise ex -> ex = TypeError \/ ex = KeyError k.
Proof.
  unfold getitem. destruct v; try (intros H; injection H as <-; auto).
  destruct (dict_get d k); [discriminate|]. intros H; injection H as <-; auto.
Qed.

Lemma getitem0_raises v ex :
  getitem0 v = Raise ex ->
  ex = IndexError \/ ex = TypeError \/ exists k, ex = KeyError k.
Proof.
  unfold getitem0.
  destruct v as [| | | |[|c s]|[|x l]|d]; try discriminate;
    intros H; injection H as <-; eauto.
Qed.

Lemma first_instance_stat_raises entry stat ex :
  first_instance_stat entry stat = Raise ex ->
  ex = IndexError \/ ex = TypeError \/ exists k, ex = KeyError k.
Proof.
  unfold first_instance_stat, and_then.
  destruct (getitem entry "metrics") as [ms|e1] eqn:E1.
  2:{ intros H; injection H as <-.
      destruct (getitem_raises _ _ _ E1) as [->| ->]; eauto. }
  destruct (getitem0 ms) as [first|e2] eqn:E2.
  2:{ intros H; injection H as <-. eapply getitem0_raises; eauto. }
  destruct (getitem first "stats") as [sd|e3] eqn:E3.
  2:{ intros H; injection H as <-.
      destruct (getitem_raises _ _ _ E3) as [->| ->]; eauto. }
  intros H. destruct (getitem_raises _ _ _ H) as [->| ->]; eauto.
Qed.

Lemma stat_values_raises data stat ex :
  stat_values data stat = Raise ex ->
  ex = IndexError \/ ex = TypeError \/ exists k, ex = KeyError k.
Proof.
  induction data as [|entry rest IH]; simpl; [discriminate|].
  unfold and_then.
  destruct (first_instance_stat entry stat) as [v|e1] eqn:E1.
  - destruct (stat_values rest stat) as [vs|e2].
    + destruct v; discriminate.
    + intros H. apply IH. destruct v; congruence.
  - intros H; injection H as <-. eapply first_instance_stat_raises; eauto.
Qed.

Lemma max_loop_raises l : forall best ex,
  max_loop best l = Raise ex -> ex = TypeError.
Proof.
  induction l as [|x r IH]; intros best ex; simpl; [discriminate|].
  destruct (value_gt x best) as [[|]|]; [apply IH|apply IH|congruence].
Qed.

Lemma min_loop_raises l : forall best ex,
  min_loop best l = Raise ex -> ex = TypeError.
Proof.
  induction l as [|x r IH]; intros best ex; simpl; [discriminate|].
  destruct (value_gt best x) as [[|]|]; [apply IH|apply IH|congruence].
Qed.

Lemma sum_from_raises l : forall acc ex,
  sum_from acc l = Raise ex -> ex = TypeError.
Proof.
  induction l as [|x r IH]; intros acc ex; simpl; [discriminate|].
  destruct (to_number x); [apply IH|congruence].
Qed.

Lemma summarise_raises v vs ex :
  summarise (v :: vs) = Raise ex -> ex = TypeError.
Proof.
  unfold summarise, and_then, py_max, py_min, py_sum.
  destruct (max_loop v vs) eqn:E1.
  2:{ intros H; injection H as <-. eapply max_loop_raises; eauto. }
  destruct (min_loop v vs) eqn:E2.
  2:{ intros H; injection H as <-. eapply min_loop_raises; eauto. }
  destruct (sum_from (NInt 0) (v :: vs)) eqn:E3; [discriminate|].
  intros H; injection H as <-. eapply sum_from_raises; eauto.
Qed.

(** The aggregation raises nothing but the errors of subscripting and of
    arithmetic. *)
Lemma build_weekly_summary_raises data names : forall ws0 ex,
  build_weekly_summary data names ws0 = Raise ex ->
  ex = IndexError \/ ex = TypeError \/ exists k, ex = KeyError k.
Proof.
  induction names as [|n r IH]; intros ws0 ex; simpl; [discriminate|].
  unfold and_then, summarise_stat, and_then.
  destruct (stat_values data n) as [vals|e1] eqn:Ev.
  - destruct vals as [|v vs]; [apply IH|].
    destruct (summarise (v :: vs)) as [s|e2] eqn:Es; [apply IH|].
    intros H; injection H as <-. right; left. eapply summarise_raises; eauto.
  - intros H; injection H as <-. eapply stat_values_raises; eauto.
Qed.

(** What [send_weekly_summary] does, case by case. *)
Lemma send_weekly_summary_run py_str cfg e topic_arn st :
  match dict_get (files st) (data_file cfg) with
  | None => exists msg, send_weekly_summary py_str cfg e topic_arn st
                        = (Raise (IOError msg), st)
  | Some data =>
      match build_weekly_summary data (stats cfg) [] with
      | Raise ex =>
          send_weekly_summary py_str cfg e topic_arn st = (Raise ex, st)
      | Ok ws =>
          let m := mkMessage topic_arn "Weekly EC2 Metrics Summary"
                             (format_summary py_str ws) in
          match publish_error e m with
          | None =>
              exists st',
                send_weekly_summary py_str cfg e topic_arn st = (Ok tt, st')
                /\ published st' = (published st ++ [m])%list
                /\ files st' = files st
          | Some msg =>
              exists st',
                send_weekly_summary py_str cfg e topic_arn st
                = (Raise (ClientError msg), st')
                /\ published st'
                   = (published st
                      ++ filter (accepted e)
                           [error_notification cfg
                              ("Error sending weekly summary: " ++ msg)])%list
                /\ exists l,
                     log st'
                     = (log st
                        ++ LogText ERROR ("Error sending weekly summary: " ++ msg)
                           :: l)%list
          end
      end
  end.
Proof.
  unfold send_weekly_summary, try_except, bind, read_json_lines, lift.
  destruct (dict_get (files st) (data_file cfg)) as [data|].
  - destruct (build_weekly_summary data (stats cfg) []) as [ws|ex] eqn:B.
    + unfold sns_publish.
      destruct (publish_error e _) as [msg|] eqn:E.
      * cbn [exn_str logging_error logging].
        match goal with
        | |- context [notify_stakeholders cfg e ?t ?s] =>
            destruct (notify_stakeholders_reports cfg e t s)
              as (st2 & Hn & _ & _ & _ & _ & P2 & l2 & L2)
        end.
        rewrite Hn. unfold raise. eexists; split; [reflexivity|].
        split; [exact P2|]. exists l2. rewrite L2. cbn [log].
        now rewrite <- app_assoc.
      * eexists; split; [reflexivity|]. split; reflexivity.
    + destruct (build_weekly_summary_raises _ _ _ _ B)
        as [->|[->|[k ->]]]; reflexivity.
  - eexists; reflexivity.
Qed.








Lemma stat_values_raises_at data stat entry ex0 :
  In entry data ->
  first_instance_stat entry stat = Raise ex0 ->
  exists ex, stat_values data stat = Raise ex.
Proof.
  induction data as [|x rest IH]; intros Hin Hraise; [destruct Hin|].
  simpl. unfold and_then.
  destruct (first_instance_stat x stat) as [v|e1] eqn:E1; [|eauto].
  destruct Hin as [->|Hin]; [congruence|].
  destruct (IH Hin Hraise) as [ex ->]. destruct v; eauto.
Qed.

Lemma build_weekly_summary_raises_at data names stat ex0 :
  In stat names ->
  stat_values data stat = Raise ex0 ->
  forall ws0, exists ex, build_weekly_summary data names ws0 = Raise ex.
Proof.
  intros Hin Hraise.
  induction names as [|n r IH]; intros ws0; [destruct Hin|].
  simpl. unfold and_then.
  destruct (summarise_stat data ws0 n) as [ws1|e1] eqn:E1; [|eauto].
  destruct Hin as [->|Hin]; [|now apply IH].
  unfold summarise_stat, and_then in E1. rewrite Hraise in E1. discriminate.
Qed.

Lemma violation_raises cfg entry :
  violates_report_precondition cfg entry ->
  exists stat ex, In stat (stats cfg)
                  /\ first_instance_stat entry stat = Raise ex.
Proof.
  unfold first_instance_stat, and_then.
  intros [[Hm Hne]|(first & rest & d & stat & Hm & Hs & Hin & Hget)].
  - destruct (stats cfg) as [|stat r]; [contradiction|].
    exists stat, IndexError. split; [now left|]. now rewrite Hm.
  - exists stat, (KeyError stat). split; [assumption|].
    rewrite Hm. cbn [getitem0]. rewrite Hs. cbn [getitem]. now rewrite Hget.
Qed.

(** On lines that meet the precondition the comprehension raises for no
    configured stat. *)
Lemma stat_values_under_precondition cfg data stat :
  Forall (meets_report_precondition cfg) data ->
  In stat (stats cfg) ->
  exists values, stat_values data stat = Ok values.
Proof.
  intros Hall Hstat. induction Hall as [|entry rest Hentry _ IH].
  - now exists [].
  - destruct Hentry as (first & others & d & Hm & Hs & Hd).
    destruct IH as [vs Hvs]. cbn [stat_values].
    unfold first_instance_stat, and_then. rewrite Hm. cbn [getitem0].
    rewrite Hs. cbn [getitem].
    destruct (dict_get d stat) as [v|] eqn:E; [|now apply Hd in E].
    rewrite Hvs. destruct v; eauto.
Qed.

(** C10: the report indexes the first instance entry of every line for
    every configured stat without a guard.  When some line of the log has
    an empty metrics list (and a stat is configured), or a first entry
    whose stats lack a configured stat, the aggregation raises, the
    exception is none the report handles, and the invocation ends with
    nothing published, logged or notified. *)
Theorem weekly_summary_unguarded_index py_str cfg e topic_arn st data :
  dict_get (files st) (data_file cfg) = Some data ->
  Exists (violates_report_precondition cfg) data ->
  exists ex,
    send_weekly_summary py_str cfg e topic_arn st = (Raise ex, st)
    /\ (ex = IndexError \/ ex = TypeError \/ exists k, ex = KeyError k).
Proof.
  intros Hfile Hviol. apply Exists_exists in Hviol.
  destruct Hviol as (entry & Hin & Hv).
  destruct (violation_raises cfg entry Hv) as (stat & ex0 & Hstat & Hraise).
  destruct (stat_values_raises_at _ _ _ _ Hin Hraise) as [ex1 H1].
  destruct (build_weekly_summary_raises_at _ _ _ _ Hstat H1 []) as [ex Hb].
  pose proof (send_weekly_summary_run py_str cfg e topic_arn st) as R.
  rewrite Hfile, Hb in R.
  exists ex. split; [exact R|]. eapply build_weekly_summary_raises; eauto.
Qed.

(* ------------------------------------------------------------------ *)
(** ** Provisioning *)

Section Provisioning.

Variables (cfg : config) (e : env) (topic_arn : string).
Variables amber red : string -> value.

Hypothesis provider_accepts : forall a, put_metric_alarm_error e a = None.

Hypothesis thresholds_configured :
  forall s, In s (stats cfg) ->
    exists by_tier,
      dict_get (thresholds cfg) s = Some by_tier
      /\ dict_get by_tier "amber" = Some (amber s)
      /\ dict_get by_tier "red" = Some (red s).

Lemma create_alarms_for_registers i s st :
  In s (stats cfg) ->
  exists st',
    create_alarms_for cfg e topic_arn i s st = (Ok tt, st')
    /\ alarms st' = (alarms st ++ alarm_pair topic_arn amber red i s)%list.
Proof.
  intros Hs. destruct (thresholds_configured s Hs) as (by_tier & Ht & Ha & Hr).
  unfold create_alarms_for, try_except, bind, lift, config_threshold,
    cloudwatch_put_metric_alarm.
  rewrite Ht, Ha, Hr, !provider_accepts. cbn.
  eexists; split; [reflexivity|]. cbn. now rewrite <- app_assoc.
Qed.

Lemma create_alarms_stats_register i l : forall st,
  incl l (stats cfg) ->
  exists st',
    for_each l (fun stat => create_alarms_for cfg e topic_arn i stat) st
    = (Ok tt, st')
    /\ alarms st' = (alarms st ++ flat_map (alarm_pair topic_arn amber red i) l)%list.
Proof.
  induction l as [|s r IH]; intros st Hincl.
  - exists st. split; [reflexivity|]. simpl. now rewrite app_nil_r.
  - destruct (create_alarms_for_registers i s st (Hincl s (or_introl eq_refl)))
      as (st1 & H1 & A1).
    destruct (IH st1 (fun x Hx => Hincl x (or_intror Hx))) as (st2 & H2 & A2).
    exists st2. split.
    + cbn [for_each]. unfold bind. now rewrite H1.
    + rewrite A2, A1. cbn [flat_map]. now rewrite <- !app_assoc.
Qed.

Lemma create_alarms_registers l : forall st,
  exists st',
    for_each l (fun instance_id =>
      for_each (stats cfg) (fun stat =>
        create_alarms_for cfg e topic_arn instance_id stat)) st
    = (Ok tt, st')
    /\ alarms st'
       = (alarms st
          ++ flat_map (fun i => flat_map (alarm_pair topic_arn amber red i) (stats cfg)) l)%list.
Proof.
  induction l as [|i r IH]; intros st.
  - exists st. split; [reflexivity|]. simpl. now rewrite app_nil_r.
  - destruct (create_alarms_stats_register i (stats cfg) st (incl_refl _))
      as (st1 & H1 & A1).
    destruct (IH st1) as (st2 & H2 & A2).
    exists st2. split.
    + cbn [for_each]. unfold bind. now rewrite H1.
    + rewrite A2, A1. cbn [flat_map]. now rewrite <- !app_assoc.
Qed.

End Provisioning.

(** C1, as the code has it: when the thresholds of every configured stat
    are filed under the keys amber and red and CloudWatch accepts the
    requests, provisioning registers, for every (instance, stat) pair in
    order, exactly the two alarms [{instance}_{stat}_Amber_Alarm] and
    [{instance}_{stat}_Red_Alarm], each with the comparison
    GreaterThanThreshold, a period of 60 seconds, one evaluation period and
    the amber (resp. red) threshold of the stat. *)
Theorem create_alarms_amber_red cfg e topic_arn (amber red : string -> value) st :
  (forall a, put_metric_alarm_error e a = None) ->
  (forall s, In s (stats cfg) ->
     exists by_tier,
       dict_get (thresholds cfg) s = Some by_tier
       /\ dict_get by_tier "amber" = Some (amber s)
       /\ dict_get by_tier "red" = Some (red s)) ->
  exists st',
    create_alarms cfg e topic_arn st = (Ok tt, st')
    /\ alarms st'
       = (alarms st
          ++ flat_map (fun i =>
               flat_map (fun s =>
                 [ {| AlarmName := i ++ "_" ++ s ++ "_Amber_Alarm";
                      MetricName := s;
                      Namespace := "AWS/EC2";
                      Statistic := "Average";
                      Period := 60;
                      EvaluationPeriods := 1;
                      Threshold := amber s;
                      ComparisonOperator := "GreaterThanThreshold";
                      AlarmActions := [topic_arn];
                      Dimensions := [("InstanceId", i)] |};
                   {| AlarmName := i ++ "_" ++ s ++ "_Red_Alarm";
                      MetricName := s;
                      Namespace := "AWS/EC2";
                      Statistic := "Average";
                      Period := 60;
                      EvaluationPeriods := 1;
                      Threshold := red s;
                      ComparisonOperator := "GreaterThanThreshold";
                      AlarmActions := [topic_arn];
                      Dimensions := [("InstanceId", i)] |} ])
                 (stats cfg))
               (instances cfg))%list.
Proof.
  intros Hacc Hthr.
  exact (create_alarms_registers cfg e topic_arn amber red Hacc Hthr
           (instances cfg) st).
Qed.

(* ------------------------------------------------------------------ *)
(** ** The scheduler loop and the two file names *)

Lemma for_each_app {A} (l1 l2 : list A) (body : A -> M unit) st st1 :
  for_each l1 body st = (Ok tt, st1) ->
  for_each (l1 ++ l2)%list body st = for_each l2 body st1.
Proof.
  revert st. induction l1 as [|x r IH]; intros st H; cbn [for_each app] in *.
  - unfold ret in H. now injection H as ->.
  - unfold bind in *. destruct (body x st) as [[[]|ex] st2]; [|discriminate].
    now apply IH.
Qed.

Lemma scheduler_loop_app py_str cfg topic_arn earlier rounds st st1 :
  scheduler_loop py_str cfg topic_arn earlier st = (Ok tt, st1) ->
  scheduler_loop py_str cfg topic_arn (earlier ++ rounds)%list st
  = scheduler_loop py_str cfg topic_arn rounds st1.
Proof.
  revert st. induction earlier as [|due r IH]; intros st H;
    cbn [scheduler_loop app] in *.
  - unfold ret in H. now injection H as ->.
  - unfold bind in *.
    destruct (run_pending py_str cfg topic_arn due st) as [[[]|ex] st2];
      [|discriminate].
    now apply IH.
Qed.

(** C3, as the code has it: when the append to the metrics log fails, the
    tick logs the error, attempts a notification and raises the [IOError]
    again; nothing in [run_pending] or in the loop of [main] catches it, so
    the loop ends there with that exception, whatever ran before: the jobs
    still due in this round and all later rounds do not run. *)
Theorem write_failure_leaves_scheduler_loop
    py_str cfg topic_arn e msg earlier due_before due_after later st0 st1 st :
  scheduler_loop py_str cfg topic_arn earlier st0 = (Ok tt, st1) ->
  run_pending py_str cfg topic_arn due_before st1 = (Ok tt, st) ->
  open_append_error e (metrics cfg) = Some msg ->
  exists st',
    record_metrics cfg e st = (Raise (IOError msg), st')
    /\ In (LogText ERROR ("Error writing metrics data to file: " ++ msg)) (log st')
    /\ (publish_error e
          {| TopicArn := error_topic_arn cfg;
             Subject := "Error Notification: EC2 Monitoring";
             Message := "Error writing metrics data to file: " ++ msg |} = None ->
        In {| TopicArn := error_topic_arn cfg;
              Subject := "Error Notification: EC2 Monitoring";
              Message := "Error writing metrics data to file: " ++ msg |}
           (published st'))
    /\ files st' = files st
    /\ scheduler_loop py_str cfg topic_arn
         (earlier
          ++ (due_before ++ (record_metrics_job, e) :: due_after) :: later)%list
         st0
       = (Raise (IOError msg), st').
Proof.
  intros Hearlier Hbefore Hopen.
  destruct (record_metrics_write_failure cfg e st msg Hopen)
    as (st' & Hrun & Hfiles & Hpub & Hlog).
  exists st'. split; [exact Hrun|]. split; [exact Hlog|]. split.
  { intros Hacc. rewrite Hpub, filter_app. apply in_or_app. right.
    apply in_or_app. right. cbn [filter]. unfold accepted, error_notification.
    rewrite Hacc. now left. }
  split; [exact Hfiles|].
  rewrite (scheduler_loop_app _ _ _ _ _ _ _ Hearlier).
  cbn [scheduler_loop]. unfold run_pending in *.
  unfold bind at 1. rewrite (for_each_app _ _ _ _ _ Hbefore).
  cbn [for_each fst snd run_job]. unfold bind. now rewrite Hrun.
Qed.

(** Once the setup is through, [main] is the loop. *)
Lemma main_enters_loop py_str cfg e rounds st topic_arn st1 :
  setup cfg e st = (Ok topic_arn, st1) ->
  main py_str cfg e rounds st
  = scheduler_loop py_str cfg topic_arn rounds
      (snd (print "Setup complete, entering main loop." st1)).
Proof. intros H. unfold main. rewrite H. reflexivity. Qed.

(** A tick does not touch the file the report reads, unless the two
    configuration keys name one path. *)
Lemma tick_leaves_data_file cfg e st st' :
  metrics cfg <> data_file cfg ->
  record_metrics cfg e st = (Ok tt, st') ->
  dict_get (files st') (data_file cfg) = dict_get (files st) (data_file cfg).
Proof.
  intros Hne H. pose proof (record_metrics_completed _ _ _ _ H) as Hopen.
  destruct (record_metrics_appends cfg e st Hopen) as (st2 & H2 & F & _).
  assert (st2 = st') by congruence. subst st2.
  rewrite F. now apply dict_get_set_other.
Qed.

(** When they do, the record of a tick is among the lines the report
    reads next. *)
Lemma tick_reaches_report cfg e st st' :
  metrics cfg = data_file cfg ->
  record_metrics cfg e st = (Ok tt, st') ->
  exists data,
    read_json_lines (data_file cfg) st' = (Ok data, st')
    /\ In (recorded_line cfg e) data.
Proof.
  intros Heq H. pose proof (record_metrics_completed _ _ _ _ H) as Hopen.
  destruct (record_metrics_appends cfg e st Hopen) as (st2 & H2 & F & _).
  assert (st2 = st') by congruence. subst st2.
  unfold read_json_lines. rewrite F, <- Heq, dict_get_set_same.
  eexists; split; [reflexivity|]. apply in_or_app. right. now left.
Qed.

(** C2 at a configuration with a path for each key: the tick appends its
    record to [metrics.json]; the report that follows reads [data.json],
    finds no line and publishes a digest without any stat. *)
Theorem weekly_report_reads_other_file :
  let e := calm midnight (steady [10]) in
  let tick := record_metrics two_files e empty_data_file in
  let report :=
    send_weekly_summary plain_str two_files e "arn:aws:sns:ec2-alerts" (snd tick) in
  metrics two_files = "metrics.json"
  /\ data_file two_files = "data.json"
  /\ fst tick = Ok tt
  /\ file_lines (snd tick) "metrics.json" = [recorded_line two_files e]
  /\ read_json_lines (data_file two_files) (snd tick) = (Ok [], snd tick)
  /\ fst report = Ok tt
  /\ map Message (published (snd report)) = ["Weekly Summary:" ++ LF].
Proof. vm_compute. repeat split. Qed.

(* ------------------------------------------------------------------ *)
(** ** The claims on sample runs *)

Lemma create_alarms_amber_red_witness :
  exists st',
    create_alarms one_file (calm midnight no_data) "arn:aws:sns:ec2-alerts" fresh
    = (Ok tt, st')
    /\ map (fun a => (AlarmName a, Threshold a, ComparisonOperator a,
                      Period a, EvaluationPeriods a)) (alarms st')
       = [("i-1_CPUUtilization_Amber_Alarm", VInt 70, "GreaterThanThreshold",
           60%Z, 1%Z);
          ("i-1_CPUUtilization_Red_Alarm", VInt 90, "GreaterThanThreshold",
           60%Z, 1%Z)].
Proof.
  destruct (create_alarms_amber_red one_file (calm midnight no_data)
              "arn:aws:sns:ec2-alerts" (fun _ => VInt 70) (fun _ => VInt 90) fresh)
    as (st' & Hrun & Halarms).
  - reflexivity.
  - intros s [<-|[]]. exists amber_red. repeat split; reflexivity.
  - exists st'. split; [exact Hrun|]. rewrite Halarms. reflexivity.
Defined.

(** With the thresholds under the keys warning and critical nothing is
    registered: the lookup of the key amber raises.  With the keys amber and
    red the two alarms carry the names Amber and Red. *)
Lemma create_alarms_warning_critical_counterexample :
  create_alarms (sample_config warning_critical "metrics.json" "metrics.json")
                (calm midnight no_data) "arn:aws:sns:ec2-alerts" fresh
  = (Raise (KeyError "amber"), fresh)
  /\ map AlarmName
       (alarms (snd (create_alarms one_file (calm midnight no_data)
                                   "arn:aws:sns:ec2-alerts" fresh)))
     = ["i-1_CPUUtilization_Amber_Alarm"; "i-1_CPUUtilization_Red_Alarm"]
  /\ ~ In "i-1_CPUUtilization_Warning_Alarm"
         (map AlarmName
            (alarms (snd (create_alarms one_file (calm midnight no_data)
                                        "arn:aws:sns:ec2-alerts" fresh)))).
Proof.
  split; [reflexivity|]. split; [reflexivity|].
  vm_compute. intros [H|[H|[]]]; discriminate.
Qed.

Lemma write_failure_leaves_scheduler_loop_witness :
  let healthy := calm midnight (steady [10]) in
  let failing := disk_full one_minute_later (steady [20]) in
  let afterwards := calm two_minutes_later (steady [30]) in
  exists st',
    scheduler_loop plain_str one_file "arn:aws:sns:ec2-alerts"
      [[(record_metrics_job, healthy)];
       [(record_metrics_job, failing)];
       [(record_metrics_job, afterwards)]] fresh
    = (Raise (IOError "No space left on device"), st')
    /\ file_lines st' "metrics.json" = [recorded_line one_file healthy].
Proof.
  intros healthy failing afterwards.
  destruct (write_failure_leaves_scheduler_loop plain_str one_file
              "arn:aws:sns:ec2-alerts" failing "No space left on device"
              [[(record_metrics_job, healthy)]] [] []
              [[(record_metrics_job, afterwards)]] fresh
              (snd (record_metrics one_file healthy fresh))
              (snd (record_metrics one_file healthy fresh)))
    as (st' & Hrun & _ & _ & Hfiles & Hloop).
  - reflexivity.
  - reflexivity.
  - reflexivity.
  - exists st'. split; [exact Hloop|].
    unfold file_lines. rewrite Hfiles. reflexivity.
Defined.

(** The first tick meets a full disk, the second would not: [main] ends
    with the [IOError] of the first, and the second, though due, never
    runs; nothing is ever written. *)
Lemma scheduler_loop_survives_counterexample :
  let failing := disk_full midnight (steady [10]) in
  let healthy := calm one_minute_later (steady [20]) in
  let run :=
    main plain_str one_file (calm midnight no_data)
         [[(record_metrics_job, failing)]; [(record_metrics_job, healthy)]] fresh in
  fst run = Raise (IOError "No space left on device")
  /\ files (snd run) = []
  /\ stdout (snd run) = ["Setup complete, entering main loop."]
  /\ fst (record_metrics one_file healthy fresh) = Ok tt
  /\ file_lines (snd (record_metrics one_file healthy fresh)) "metrics.json"
     = [recorded_line one_file healthy].
Proof. vm_compute. repeat split. Qed.

(** A tick in which the one query fails. *)
Lemma record_metrics_absent_and_notified_witness :
  let e := calm midnight throttled in
  exists st',
    record_metrics one_file e fresh = (Ok tt, st')
    /\ file_lines st' "metrics.json"
       = [VDict [("timestamp", VStr "2024-01-01 00:00:00");
                 ("metrics",
                  VList [VDict [("instance_id", VStr "i-1");
                                ("stats", VDict [("CPUUtilization", VNone)])]])]]
    /\ published st'
       = [{| TopicArn := "arn:aws:sns:errors";
             Subject := "Error Notification: EC2 Monitoring";
             Message := "Error getting metric statistics for CPUUtilization on i-1: Rate exceeded" |}]
    /\ In (LogText ERROR
             "Error getting metric statistics for CPUUtilization on i-1: Rate exceeded")
          (log st').
Proof.
  intros e.
  pose (st' := snd (record_metrics one_file e fresh)).
  assert (Hrun : record_metrics one_file e fresh = (Ok tt, st')) by reflexivity.
  destruct (record_metrics_absent_and_notified one_file e fresh st' Hrun)
    as (_ & Hpub & records & Hlog & Herr).
  exists st'. split; [exact Hrun|]. split; [reflexivity|].
  split; [rewrite Hpub; reflexivity|].
  rewrite Hlog. apply (Herr "i-1" "CPUUtilization" "Rate exceeded");
    [now left|now left|reflexivity].
Defined.

(** A tick in which the one query answers no data point: the absent value
    is recorded, SNS would take any message, and none is sent. *)
Lemma empty_answer_notifies_counterexample :
  let e := calm midnight no_data in
  let run := record_metrics one_file e fresh in
  metric_statistics e "CPUUtilization" "i-1" = inr []
  /\ (forall m, publish_error e m = None)
  /\ fst run = Ok tt
  /\ file_lines (snd run) "metrics.json"
     = [VDict [("timestamp", VStr "2024-01-01 00:00:00");
               ("metrics",
                VList [VDict [("instance_id", VStr "i-1");
                              ("stats", VDict [("CPUUtilization", VNone)])]])]]
  /\ published (snd run) = [].
Proof. repeat split. Qed.

Lemma record_metrics_one_uniform_record_witness :
  let e := calm midnight (steady [10; 20]) in
  exists st' entries,
    record_metrics one_file e fresh = (Ok tt, st')
    /\ file_lines st' "metrics.json"
       = [VDict [("timestamp", VStr (datetime_str midnight));
                 ("metrics", VList entries)]]
    /\ Forall2
         (fun i entry =>
            exists d,
              entry = VDict [("instance_id", VStr i); ("stats", VDict d)]
              /\ NoDup (dict_keys d)
              /\ (forall s, In s (dict_keys d) <-> In s (stats one_file))
              /\ (forall s, In s (stats one_file) ->
                    exists v, dict_get d s = Some v
                              /\ (v = VNone \/ exists q, v = VFloat q)))
         (instances one_file) entries.
Proof.
  intros e.
  pose (st' := snd (record_metrics one_file e fresh)).
  assert (Hrun : record_metrics one_file e fresh = (Ok tt, st')) by reflexivity.
  destruct (record_metrics_one_uniform_record one_file e fresh st' Hrun)
    as (entries & Hline & Hshape).
  exists st', entries. split; [exact Hrun|]. split; [exact Hline|exact Hshape].
Defined.


(** The digest of the readings 10, 20 and 30: high 30, low 10 and average
    20, and its message as [plain_str] prints the numbers. *)
Example weekly_summary_10_20_30 :
  let st := snd (ticks one_file three_ticks fresh) in
  let run := send_weekly_summary plain_str one_file (calm midnight no_data)
                                 "arn:aws:sns:ec2-alerts" st in
  build_weekly_summary (file_lines st "metrics.json") ["CPUUtilization"] []
  = Ok [("CPUUtilization",
         {| high := VFloat 30; low := VFloat 10; average := 20 |})]
  /\ map Message (published (snd run))
     = ["Weekly Summary:" ++ LF
        ++ LF ++ "CPUUtilization:"
        ++ LF ++ "  High: 30/1"
        ++ LF ++ "  Low: 10/1"
        ++ LF ++ "  Average: 20/1"].
Proof. split; reflexivity. Qed.


Lemma ticks_log_lines_witness :
  exists st' records,
    ticks one_file three_ticks fresh = (Ok tt, st')
    /\ length (file_lines st' "metrics.json") = 3%nat
    /\ map parse_record (file_lines st' "metrics.json") = map Some records
    /\ map timestamp records = [midnight; one_minute_later; two_minutes_later]
    /\ Sorted datetime_le (map timestamp records).
Proof.
  destruct (ticks_log_lines one_file three_ticks fresh)
    as (st' & records & Hrun & Hlen & Hparse & _ & Hts & Hsorted).
  - reflexivity.
  - intros e [<-|[<-|[<-|[]]]]; reflexivity.
  - intros e [<-|[<-|[<-|[]]]]; reflexivity.
  - exists st', records. repeat split; auto. apply Hsorted.
    repeat constructor; unfold datetime_le; vm_compute; discriminate.
Defined.

(** Two ticks between which the clock was set back by a minute: both
    append their line, both lines parse, and the second time stamp is
    earlier than the first. *)
Lemma ticks_timestamps_counterexample :
  let run := ticks one_file clock_set_back fresh in
  file_lines fresh "metrics.json" = []
  /\ fst run = Ok tt
  /\ map (fun line => getitem line "timestamp") (file_lines (snd run) "metrics.json")
     = [Ok (VStr "2024-01-01 00:01:00.250000"); Ok (VStr "2024-01-01 00:00:00")]
  /\ exists first second,
       map parse_record (file_lines (snd run) "metrics.json")
       = [Some first; Some second]
       /\ timestamp first = one_minute_later
       /\ timestamp second = midnight
       /\ ~ datetime_le (timestamp first) (timestamp second)
       /\ ~ Sorted datetime_le [timestamp first; timestamp second].
Proof.
  intros run. split; [reflexivity|]. split; [reflexivity|].
  split; [reflexivity|].
  eexists _, _. split; [reflexivity|]. split; [reflexivity|].
  split; [reflexivity|]. cbn [timestamp].
  assert (Hlt : ~ datetime_le one_minute_later midnight).
  { unfold datetime_le. vm_compute. intros Hc. now apply Hc. }
  split; [exact Hlt|].
  intros Hs. inversion Hs as [|? ? _ Hhd]; subst.
  inversion Hhd as [|? ? Hle]; subst. contradiction.
Qed.

Lemma record_metrics_line_schema_witness :
  let e := calm one_minute_later (steady [10]) in
  exists st' line,
    record_metrics one_file e fresh = (Ok tt, st')
    /\ file_lines st' "metrics.json" = [line]
    /\ schema_ok is_python_datetime_str line = true
    /\ getitem line "timestamp" = Ok (VStr "2024-01-01 00:01:00.250000")
    /\ is_iso8601 "2024-01-01 00:01:00.250000" = false
    /\ is_iso8601 "2024-01-01T00:01:00.250000" = true.
Proof.
  intros e.
  pose (st' := snd (record_metrics one_file e fresh)).
  assert (Hrun : record_metrics one_file e fresh = (Ok tt, st')) by reflexivity.
  destruct (record_metrics_line_schema one_file e fresh st' Hrun eq_refl)
    as (line & Hline & Hschema & Hts & Hspace & HT).
  exists st', line. split; [exact Hrun|]. split; [exact Hline|].
  split; [exact Hschema|]. split; [exact Hts|]. split; [exact Hspace|exact HT].
Defined.

(** The line of a tick at midnight: its time stamp has a space between
    date and time, and the line does not match the schema with an ISO 8601
    time stamp. *)
Lemma timestamp_iso8601_counterexample :
  let e := calm midnight (steady [10]) in
  let run := record_metrics one_file e fresh in
  let line :=
    VDict [("timestamp", VStr "2024-01-01 00:00:00");
           ("metrics",
            VList [VDict [("instance_id", VStr "i-1");
                          ("stats", VDict [("CPUUtilization", VFloat 10)])]])] in
  fst run = Ok tt
  /\ file_lines (snd run) "metrics.json" = [line]
  /\ is_iso8601 "2024-01-01 00:00:00" = false
  /\ schema_ok is_iso8601 line = false
  /\ schema_ok is_python_datetime_str line = true.
Proof. repeat split. Qed.

Lemma record_metrics_first_datapoint_witness :
  let e := calm midnight (steady [30; 99; 98]) in
  exists st' line entries,
    record_metrics one_file e fresh = (Ok tt, st')
    /\ file_lines st' "metrics.json" = [line]
    /\ getitem line "metrics" = Ok (VList entries)
    /\ (exists entry, In entry entries
                      /\ getitem entry "instance_id" = Ok (VStr "i-1"))
    /\ (forall entry, In entry entries ->
          getitem entry "instance_id" = Ok (VStr "i-1") ->
          and_then (getitem entry "stats") (fun d => getitem d "CPUUtilization")
          = Ok (VFloat 30)).
Proof.
  intros e.
  pose (st' := snd (record_metrics one_file e fresh)).
  assert (Hrun : record_metrics one_file e fresh = (Ok tt, st')) by reflexivity.
  destruct (record_metrics_first_datapoint one_file e fresh st'
              "i-1" "CPUUtilization" (reading 30) [reading 99; reading 98] Hrun)
    as (line & entries & Hline & Hm & Hex & Hall).
  - now left.
  - now left.
  - reflexivity.
  - exists st', line, entries. auto.
Defined.

(** A configuration without instances: the collector itself writes a line
    with an empty metrics list, and the next report raises. *)
Lemma weekly_summary_unguarded_index_witness :
  let st := snd (record_metrics no_instances (calm midnight no_data) fresh) in
  file_lines st "metrics.json"
  = [VDict [("timestamp", VStr "2024-01-01 00:00:00"); ("metrics", VList [])]]
  /\ exists ex,
       send_weekly_summary plain_str no_instances (calm midnight no_data)
                           "arn:aws:sns:ec2-alerts" st
       = (Raise ex, st)
       /\ (ex = IndexError \/ ex = TypeError \/ exists k, ex = KeyError k).
Proof.
  intros st. split; [reflexivity|].
  apply (weekly_summary_unguarded_index plain_str no_instances
           (calm midnight no_data) "arn:aws:sns:ec2-alerts" st
           [VDict [("timestamp", VStr "2024-01-01 00:00:00");
                   ("metrics", VList [])]]).
  - reflexivity.
  - apply Exists_cons_hd. left. split; [reflexivity|discriminate].
Defined.

(** The digest of the values 10, 20 and 30. *)
Example summarise_10_20_30 :
  exists s,
    summarise [VInt 10; VInt 20; VInt 30] = Ok s
    /\ high s = VInt 30 /\ low s = VInt 10 /\ average s = 20.
Proof. eexists. split; [reflexivity|]. repeat split. Qed.

(** Sums and averages as CPython computes them: ints and a float mixed
    ([sum([1, 0.5, True]) / 3] is 0.8333333333333334), an int beyond
    [2 ^ 53] met by a float, three floats ([0.1 + 0.2 + 0.3] is
    0.6000000000000001 and its third 0.20000000000000004), and two ints
    whose quotient is no float. *)
Example summarise_samples :
  and_then (summarise [VInt 1; VFloat (1 # 2); VBool true])
           (fun s => Ok (average s))
  = Ok (7505999378950827 # 9007199254740992)
  /\ and_then (summarise [VInt (2 ^ 53 + 1); VFloat 0]) (fun s => Ok (average s))
     = Ok (inject_Z (2 ^ 52))
  /\ py_sum [VFloat tenth; VFloat fifth; VFloat (round_double (3 # 10))]
     = Ok (NFloat (1351079888211149 # 2251799813685248))
  /\ and_then (summarise [VFloat tenth; VFloat fifth;
                          VFloat (round_double (3 # 10))])
              (fun s => Ok (average s))
     = Ok (7205759403792795 # 36028797018963968)
  /\ and_then (summarise [VInt 1; VInt 1; VInt 0]) (fun s => Ok (average s))
     = Ok (6004799503160661 # 9007199254740992).
Proof. repeat split; vm_compute; reflexivity. Qed.

(* ------------------------------------------------------------------ *)
(** ** Notification and setup, failure by failure *)

Lemma setup_step_refl st : setup_step st st [] [] [].
Proof.
  unfold setup_step. rewrite !app_nil_r. repeat split; auto.
  exists []. now rewrite app_nil_r.
Qed.

Lemma setup_step_trans st1 st2 st3 a1 a2 m1 m2 s1 s2 :
  setup_step st1 st2 a1 m1 s1 -> setup_step st2 st3 a2 m2 s2 ->
  setup_step st1 st3 (a1 ++ a2)%list (m1 ++ m2)%list (s1 ++ s2)%list.
Proof.
  intros (F1 & O1 & A1 & P1 & S1 & l1 & L1) (F2 & O2 & A2 & P2 & S2 & l2 & L2).
  unfold setup_step. repeat split; try congruence.
  - now rewrite A2, A1, app_assoc.
  - now rewrite P2, P1, app_assoc.
  - now rewrite S2, S1, app_assoc.
  - exists (l1 ++ l2)%list. now rewrite L2, L1, app_assoc.
Qed.

Lemma only_reports_setup_step st st' msgs :
  only_reports st st' msgs -> setup_step st st' [] msgs [].
Proof.
  intros (F & A & S & O & P & L). unfold setup_step.
  rewrite !app_nil_r. auto 10.
Qed.

Lemma setup_step_logging st r : setup_step st (snd (logging r st)) [] [] [].
Proof. apply only_reports_setup_step, only_reports_logging. Qed.

(** X1: [notify_stakeholders] swallows a refusal of SNS.  When SNS takes
    the message it is published to the error topic and an INFO record is
    logged; when SNS refuses it with a [ClientError], nothing is published,
    the refusal is logged as an ERROR and the function returns normally.
    In both cases alarms, subscriptions, files and standard output are not
    touched.  (An error of botocore that is no [ClientError] would pass
    through the handler; such errors are outside the model.) *)
Theorem notify_stakeholders_swallows_refusal cfg e text st :
  exists st',
    notify_stakeholders cfg e text st = (Ok tt, st')
    /\ files st' = files st /\ alarms st' = alarms st
    /\ subscriptions st' = subscriptions st /\ stdout st' = stdout st
    /\ match publish_error e
               {| TopicArn := error_topic_arn cfg;
                  Subject := "Error Notification: EC2 Monitoring";
                  Message := text |} with
       | None =>
           published st'
           = (published st
              ++ [{| TopicArn := error_topic_arn cfg;
                     Subject := "Error Notification: EC2 Monitoring";
                     Message := text |}])%list
           /\ log st'
              = (log st
                 ++ [LogText INFO "Error notification sent to stakeholders"])%list
       | Some refusal =>
           published st' = published st
           /\ log st'
              = (log st
                 ++ [LogText ERROR
                       ("Error sending error notification: " ++ refusal)])%list
       end.
Proof.
  unfold notify_stakeholders, try_except, bind, sns_publish.
  destruct (publish_error e _) as [refusal|]; eexists; split;
    try reflexivity; cbn; auto 10.
Qed.

(** X2: [create_sns_topic] returns the ARN of the provider's response,
    having logged it and nothing else; when the provider raises, the error
    is logged, a notification is attempted and the same [ClientError] is
    raised again. *)
Theorem create_sns_topic_outcome cfg e st :
  match create_topic_response e (sns_topic_name cfg) with
  | inr arn =>
      create_sns_topic cfg e st
      = (Ok arn, snd (logging_debug ("SNS topic created: " ++ arn) st))
  | inl msg =>
      exists st',
        create_sns_topic cfg e st = (Raise (ClientError msg), st')
        /\ only_reports st st'
             (filter (accepted e)
                [error_notification cfg ("Error creating SNS topic: " ++ msg)])
        /\ In (LogText ERROR ("Error creating SNS topic: " ++ msg)) (log st')
  end.
Proof.
  unfold create_sns_topic, try_except, bind, sns_create_topic.
  destruct (create_topic_response e (sns_topic_name cfg)) as [msg|arn];
    [|reflexivity].
  cbn [exn_str logging_error logging].
  match goal with
  | |- context [notify_stakeholders cfg e ?t ?s] =>
      destruct (notify_stakeholders_reports cfg e t s) as (st2 & Hn & Hr)
  end.
  rewrite Hn. unfold raise. eexists; split; [reflexivity|]. split.
  - apply (only_reports_trans _ _ _ [] _
             (only_reports_logging st
                (LogText ERROR ("Error creating SNS topic: " ++ msg))) Hr).
  - destruct Hr as (_ & _ & _ & _ & _ & l & ->). cbn.
    apply in_or_app. left. apply in_or_app. right. now left.
Qed.

(** X3: [subscribe_email] records the subscription of the address to the
    topic; when the provider raises, nothing is subscribed, the error is
    logged, a notification is attempted and the same [ClientError] is
    raised again. *)
Theorem subscribe_email_outcome cfg e topic_arn address st :
  exists st',
    match subscribe_error e topic_arn address with
    | None =>
        subscribe_email cfg e topic_arn address st = (Ok tt, st')
        /\ setup_step st st' [] [] [(topic_arn, address)]
    | Some msg =>
        subscribe_email cfg e topic_arn address st = (Raise (ClientError msg), st')
        /\ only_reports st st'
             (filter (accepted e)
                [error_notification cfg
                   ("Error subscribing email to SNS topic: " ++ msg)])
        /\ In (LogText ERROR ("Error subscribing email to SNS topic: " ++ msg))
              (log st')
    end.
Proof.
  unfold subscribe_email, try_except, bind, sns_subscribe.
  destruct (subscribe_error e topic_arn address) as [msg|].
  - cbn [exn_str logging_error logging].
    match goal with
    | |- context [notify_stakeholders cfg e ?t ?s] =>
        destruct (notify_stakeholders_reports cfg e t s) as (st2 & Hn & Hr)
    end.
    rewrite Hn. unfold raise. eexists; split; [reflexivity|]. split.
    + apply (only_reports_trans _ _ _ [] _
               (only_reports_logging st
                  (LogText ERROR
                     ("Error subscribing email to SNS topic: " ++ msg))) Hr).
    + destruct Hr as (_ & _ & _ & _ & _ & l & ->). cbn.
      apply in_or_app. left. apply in_or_app. right. now left.
  - eexists; split; [reflexivity|].
    unfold setup_step; cbn. rewrite !app_nil_r. repeat split; auto.
    eexists; reflexivity.
Qed.

(* ------------------------------------------------------------------ *)
(** ** Provisioning when a request is refused or a threshold is missing *)

Lemma first_refusal_app e l1 l2 :
  first_refusal e (l1 ++ l2)%list
  = match first_refusal e l1 with
    | Some x => Some x
    | None => first_refusal e l2
    end.
Proof.
  induction l1 as [|a r IH]; cbn; [reflexivity|].
  destruct (put_metric_alarm_error e a); auto.
Qed.

Lemma accepted_alarms_all e l :
  first_refusal e l = None -> accepted_alarms e l = l.
Proof.
  induction l as [|a r IH]; cbn; [reflexivity|].
  destruct (put_metric_alarm_error e a); [discriminate|].
  intros H. now rewrite IH.
Qed.

Lemma accepted_alarms_app e l1 l2 :
  accepted_alarms e (l1 ++ l2)%list
  = match first_refusal e l1 with
    | Some _ => accepted_alarms e l1
    | None => (l1 ++ accepted_alarms e l2)%list
    end.
Proof.
  induction l1 as [|a r IH]; cbn; [reflexivity|].
  destruct (put_metric_alarm_error e a); [reflexivity|].
  rewrite IH. now destruct (first_refusal e r).
Qed.

Lemma accepted_alarms_prefix e l :
  exists rest, l = (accepted_alarms e l ++ rest)%list.
Proof.
  induction l as [|a r [rest IH]]; cbn.
  - now exists [].
  - destruct (put_metric_alarm_error e a).
    + now exists (a :: r).
    + exists rest. cbn. now rewrite <- IH.
Qed.

(** A loop whose rounds each behave as a run of requests behaves as the
    run of all the requests. *)
Lemma for_each_requests cfg e {A} (chunk : A -> list alarm) (body : A -> M unit) l :
  (forall x st, In x l ->
     exists st',
       body x st = (refusal_outcome e (chunk x), st')
       /\ setup_step st st' (accepted_alarms e (chunk x))
                     (refusal_notifications cfg e (chunk x)) []) ->
  forall st,
    exists st',
      for_each l body st = (refusal_outcome e (flat_map chunk l), st')
      /\ setup_step st st' (accepted_alarms e (flat_map chunk l))
                    (refusal_notifications cfg e (flat_map chunk l)) [].
Proof.
  induction l as [|x r IH]; intros Hbody st.
  - exists st. split; [reflexivity|apply setup_step_refl].
  - destruct (Hbody x st (or_introl eq_refl)) as (st1 & H1 & S1).
    cbn [for_each flat_map]. unfold bind. rewrite H1.
    unfold refusal_outcome, refusal_notifications in *.
    rewrite first_refusal_app, accepted_alarms_app.
    destruct (first_refusal e (chunk x)) as [[a msg]|] eqn:E.
    + exists st1. split; [reflexivity|exact S1].
    + destruct (IH (fun y st' Hy => Hbody y st' (or_intror Hy)) st1)
        as (st2 & H2 & S2).
      exists st2. split; [exact H2|].
      rewrite (accepted_alarms_all _ _ E) in S1.
      exact (setup_step_trans _ _ _ _ _ _ _ _ _ S1 S2).
Qed.

Lemma create_alarms_for_requests cfg e topic_arn amber red i s st :
  (exists by_tier,
     dict_get (thresholds cfg) s = Some by_tier
     /\ dict_get by_tier "amber" = Some (amber s)
     /\ dict_get by_tier "red" = Some (red s)) ->
  exists st',
    create_alarms_for cfg e topic_arn i s st
    = (refusal_outcome e (alarm_pair topic_arn amber red i s), st')
    /\ setup_step st st'
         (accepted_alarms e (alarm_pair topic_arn amber red i s))
         (refusal_notifications cfg e (alarm_pair topic_arn amber red i s)) [].
Proof.
  intros (by_tier & Ht & Ha & Hr).
  unfold create_alarms_for, try_except, bind, lift, config_threshold,
    cloudwatch_put_metric_alarm, refusal_outcome, refusal_notifications,
    alarm_pair, metric_alarm.
  rewrite Ht, Ha. cbn [first_refusal accepted_alarms].
  destruct (put_metric_alarm_error e _) as [msg|] eqn:E1.
  - cbn [exn_str logging_error logging MetricName alarm_instance Dimensions].
    match goal with
    | |- context [notify_stakeholders cfg e ?t ?s] =>
        destruct (notify_stakeholders_reports cfg e t s) as (st2 & Hn & Hrep)
    end.
    rewrite Hn. unfold raise. eexists; split; [reflexivity|].
    apply only_reports_setup_step.
    apply (only_reports_trans _ _ _ [] _ (only_reports_logging st _) Hrep).
  - rewrite Hr.
    destruct (put_metric_alarm_error e
                {| AlarmName := i ++ "_" ++ s ++ "_Red_Alarm";
                   MetricName := s; Namespace := "AWS/EC2";
                   Statistic := "Average"; Period := 60;
                   EvaluationPeriods := 1; Threshold := red s;
                   ComparisonOperator := "GreaterThanThreshold";
                   AlarmActions := [topic_arn];
                   Dimensions := [("InstanceId", i)] |}) as [msg|] eqn:E2.
    + cbn [exn_str logging_error logging MetricName alarm_instance Dimensions
             fst snd].
      match goal with
      | |- context [notify_stakeholders cfg e ?t ?s] =>
          destruct (notify_stakeholders_reports cfg e t s)
            as (st2 & Hn & F & A & S & O & P & l & L)
      end.
      rewrite Hn. unfold raise. eexists; split; [reflexivity|].
      cbn in *. unfold setup_step. rewrite app_nil_r.
      repeat split; auto.
      exists ([LogText ERROR
                 ("Error creating CloudWatch alarm for " ++ s ++ " on " ++ i
                  ++ ": " ++ msg)] ++ l)%list.
      now rewrite L, <- app_assoc.
    + eexists; split; [reflexivity|].
      unfold setup_step; cbn. rewrite !app_nil_r, <- app_assoc.
      repeat split; auto. eexists; reflexivity.
Qed.

Lemma create_alarms_requests cfg e topic_arn (amber red : string -> value) st :
  (forall s, In s (stats cfg) ->
     exists by_tier,
       dict_get (thresholds cfg) s = Some by_tier
       /\ dict_get by_tier "amber" = Some (amber s)
       /\ dict_get by_tier "red" = Some (red s)) ->
  exists st',
    create_alarms cfg e topic_arn st
    = (refusal_outcome e (expected_alarms cfg topic_arn amber red), st')
    /\ setup_step st st'
         (accepted_alarms e (expected_alarms cfg topic_arn amber red))
         (refusal_notifications cfg e (expected_alarms cfg topic_arn amber red))
         [].
Proof.
  intros Hthr. unfold create_alarms, expected_alarms.
  apply (for_each_requests cfg e
           (fun i => flat_map (alarm_pair topic_arn amber red i) (stats cfg))).
  intros i st1 _.
  apply (for_each_requests cfg e (alarm_pair topic_arn amber red i)).
  intros s st2 Hs. apply create_alarms_for_requests. now apply Hthr.
Qed.

Lemma first_refusal_refused e l a msg :
  first_refusal e l = Some (a, msg) -> put_metric_alarm_error e a = Some msg.
Proof.
  induction l as [|x r IH]; cbn; [discriminate|].
  destruct (put_metric_alarm_error e x) eqn:Ex; [|auto].
  intros H. injection H as <- <-. exact Ex.
Qed.

(** X4: with the thresholds of every stat configured, [create_alarms] files
    the requests of all (instance, stat) pairs in order and stops at the
    first one CloudWatch refuses: the alarms accepted before it stay
    registered, the refusal is logged and notified (naming the stat and the
    instance) and raised again, and no later request is made.  Without a
    refusal all requests are filed and nothing is notified. *)
Theorem create_alarms_stops_at_first_refusal
    cfg e topic_arn (amber red : string -> value) st :
  (forall s, In s (stats cfg) ->
     exists by_tier,
       dict_get (thresholds cfg) s = Some by_tier
       /\ dict_get by_tier "amber" = Some (amber s)
       /\ dict_get by_tier "red" = Some (red s)) ->
  exists st',
    alarms st'
    = (alarms st
       ++ accepted_alarms e (expected_alarms cfg topic_arn amber red))%list
    /\ files st' = files st /\ subscriptions st' = subscriptions st
    /\ match first_refusal e (expected_alarms cfg topic_arn amber red) with
       | None =>
           create_alarms cfg e topic_arn st = (Ok tt, st')
           /\ published st' = published st
       | Some (a, msg) =>
           create_alarms cfg e topic_arn st = (Raise (ClientError msg), st')
           /\ put_metric_alarm_error e a = Some msg
           /\ published st'
              = (published st
                 ++ filter (accepted e)
                      [{| TopicArn := error_topic_arn cfg;
                          Subject := "Error Notification: EC2 Monitoring";
                          Message := "Error creating CloudWatch alarm for "
                                     ++ MetricName a ++ " on "
                                     ++ alarm_instance a ++ ": " ++ msg |}])%list
       end.
Proof.
  intros Hthr.
  destruct (create_alarms_requests cfg e topic_arn amber red st Hthr)
    as (st' & Hrun & F & _ & A & P & S & _).
  exists st'. split; [exact A|]. split; [exact F|].
  split; [now rewrite S, app_nil_r|].
  rewrite Hrun. unfold refusal_outcome, refusal_notifications in *.
  destruct (first_refusal e (expected_alarms cfg topic_arn amber red))
    as [[a msg]|] eqn:E.
  - split; [reflexivity|]. split; [|exact P].
    eapply first_refusal_refused; eauto.
  - split; [reflexivity|]. now rewrite P, app_nil_r.
Qed.

Lemma config_threshold_raises cfg s tier ex :
  config_threshold cfg s tier = Raise ex -> ex = KeyError s \/ ex = KeyError tier.
Proof.
  unfold config_threshold.
  destruct (dict_get (thresholds cfg) s) as [by_tier|]; [|intros H; injection H; auto].
  destruct (dict_get by_tier tier); [discriminate|intros H; injection H; auto].
Qed.

Lemma create_alarms_for_thresholds cfg e topic_arn i s st :
  (forall a, put_metric_alarm_error e a = None) ->
  exists st',
    published st' = published st
    /\ ((create_alarms_for cfg e topic_arn i s st = (Ok tt, st')
         /\ (exists v, config_threshold cfg s "amber" = Ok v)
         /\ (exists v, config_threshold cfg s "red" = Ok v))
        \/ (exists key,
              create_alarms_for cfg e topic_arn i s st = (Raise (KeyError key), st')
              /\ (key = s \/ key = "amber" \/ key = "red"))).
Proof.
  intros Hacc.
  unfold create_alarms_for, try_except, bind, lift, cloudwatch_put_metric_alarm.
  destruct (config_threshold cfg s "amber") as [a|ex] eqn:Ea.
  2:{ exists st. split; [reflexivity|]. right.
      destruct (config_threshold_raises _ _ _ _ Ea) as [->| ->]; eauto 6. }
  rewrite Hacc.
  destruct (config_threshold cfg s "red") as [r|ex] eqn:Er.
  2:{ eexists. split; [|right].
      2:{ destruct (config_threshold_raises _ _ _ _ Er) as [->| ->];
            eexists; (split; [reflexivity|]); auto. }
      reflexivity. }
  rewrite Hacc. eexists. split; [|left; split; [reflexivity|eauto]].
  reflexivity.
Qed.

Lemma create_alarms_stats_missing cfg e topic_arn i l : forall st,
  (forall a, put_metric_alarm_error e a = None) ->
  (exists s ex, In s l
                /\ (config_threshold cfg s "amber" = Raise ex
                    \/ config_threshold cfg s "red" = Raise ex)) ->
  exists key st',
    for_each l (fun stat => create_alarms_for cfg e topic_arn i stat) st
    = (Raise (KeyError key), st')
    /\ published st' = published st.
Proof.
  induction l as [|s0 r IH]; intros st Hacc (s & ex & Hin & Hbad); [destruct Hin|].
  cbn [for_each]. unfold bind.
  destruct (create_alarms_for_thresholds cfg e topic_arn i s0 st Hacc)
    as (st1 & P1 & [(Hrun & [va Ha] & [vr Hr])|(key & Hrun & _)]).
  - rewrite Hrun.
    destruct Hin as [<-|Hin]; [destruct Hbad; congruence|].
    destruct (IH st1 Hacc) as (key & st2 & H2 & P2); [eauto 6|].
    exists key, st2. split; [exact H2|congruence].
  - rewrite Hrun. eauto.
Qed.

(** X5: when some configured stat lacks a threshold entry, or its amber or
    red value, provisioning never completes, whatever CloudWatch accepts:
    with at least one instance configured, [create_alarms] ends with a
    [KeyError], which its handler does not answer, so it sends no
    notification of its own. *)
Theorem create_alarms_missing_threshold cfg e topic_arn st s ex :
  instances cfg <> [] ->
  In s (stats cfg) ->
  config_threshold cfg s "amber" = Raise ex
  \/ config_threshold cfg s "red" = Raise ex ->
  (forall a, put_metric_alarm_error e a = None) ->
  exists key st',
    create_alarms cfg e topic_arn st = (Raise (KeyError key), st')
    /\ published st' = published st.
Proof.
  intros Hne Hs Hbad Hacc. unfold create_alarms.
  destruct (instances cfg) as [|i r]; [contradiction|].
  cbn [for_each]. unfold bind.
  destruct (create_alarms_stats_missing cfg e topic_arn i (stats cfg) st Hacc)
    as (key & st' & Hrun & P); [eauto|].
  rewrite Hrun. eauto.
Qed.

(* ------------------------------------------------------------------ *)
(** ** What each function leaves alone *)

Section Preserves.

Context {B : Type} (proj : state -> B).

Lemma preserves_ret {A} (a : A) : preserves proj (ret a).
Proof. intros st. reflexivity. Qed.

Lemma preserves_raise {A} ex : preserves proj (@raise A ex).
Proof. intros st. reflexivity. Qed.

Lemma preserves_lift {A} (r : result A) : preserves proj (lift r).
Proof. intros st. reflexivity. Qed.

Lemma preserves_bind {A C} (c : M A) (k : A -> M C) :
  preserves proj c -> (forall a, preserves proj (k a)) ->
  preserves proj (bind c k).
Proof.
  intros Hc Hk st. unfold bind. specialize (Hc st).
  destruct (c st) as [[a|ex] st1]; cbn in *; [|exact Hc].
  now rewrite Hk.
Qed.

Lemma preserves_try_except {A} (body : M A) handler :
  preserves proj body ->
  (forall ex h, handler ex = Some h -> preserves proj h) ->
  preserves proj (try_except body handler).
Proof.
  intros Hb Hh st. unfold try_except. specialize (Hb st).
  destruct (body st) as [[a|ex] st1]; cbn in *; [exact Hb|].
  destruct (handler ex) as [h|] eqn:E; [|exact Hb].
  now rewrite (Hh _ _ E).
Qed.

Lemma preserves_for_each {A} (l : list A) body :
  (forall x, preserves proj (body x)) -> preserves proj (for_each l body).
Proof.
  intros Hb. induction l as [|x r IH]; cbn [for_each].
  - apply preserves_ret.
  - apply preserves_bind; auto.
Qed.

Lemma preserves_for_fold {A C} (l : list A) (body : C -> A -> M C) : forall acc,
  (forall acc x, preserves proj (body acc x)) ->
  preserves proj (for_fold l acc body).
Proof.
  induction l as [|x r IH]; intros acc Hb; cbn [for_fold].
  - apply preserves_ret.
  - apply preserves_bind; auto.
Qed.

Lemma preserves_for_collect {A C} (l : list A) (body : A -> M C) :
  (forall x, preserves proj (body x)) -> preserves proj (for_collect l body).
Proof.
  intros Hb. induction l as [|x r IH]; cbn [for_collect].
  - apply preserves_ret.
  - apply preserves_bind; auto. intros y.
    apply preserves_bind; auto. intros ys. apply preserves_ret.
Qed.

End Preserves.

(** The combinators first, then the primitive the goal is about. *)
Ltac preserved_step :=
  first
    [ apply preserves_ret | apply preserves_raise | apply preserves_lift
    | apply preserves_bind | apply preserves_for_each
    | apply preserves_for_fold | apply preserves_for_collect
    | apply preserves_try_except
    | match goal with
      | |- forall ex h, _ = Some h -> preserves _ h =>
          let ex := fresh "ex" in
          let h := fresh "h" in
          let Hh := fresh "Hh" in
          intros ex h Hh; destruct ex; try discriminate; injection Hh as <-
      | |- forall _, _ => intro
      | |- preserves _ (match ?x with _ => _ end) => destruct x
      end ].

Ltac preserved_prim :=
  let st := fresh "st" in
  intros st;
  unfold logging_debug, logging_info, logging_error, logging, print,
    sns_publish, sns_create_topic, sns_subscribe, cloudwatch_put_metric_alarm,
    cloudwatch_get_metric_statistics, append_json_line, read_json_lines;
  repeat match goal with
         | |- context [match ?x with _ => _ end] => destruct x
         end;
  reflexivity.

Ltac preserved := repeat preserved_step; try preserved_prim.

Lemma notify_stakeholders_preserves_files cfg e text :
  preserves files (notify_stakeholders cfg e text).
Proof. unfold notify_stakeholders. preserved. Qed.

Lemma notify_stakeholders_preserves_stdout cfg e text :
  preserves stdout (notify_stakeholders cfg e text).
Proof. unfold notify_stakeholders. preserved. Qed.

Lemma notify_stakeholders_preserves_alarms cfg e text :
  preserves alarms (notify_stakeholders cfg e text).
Proof. unfold notify_stakeholders. preserved. Qed.

Lemma notify_stakeholders_preserves_subscriptions cfg e text :
  preserves subscriptions (notify_stakeholders cfg e text).
Proof. unfold notify_stakeholders. preserved. Qed.



Lemma record_metrics_preserves_alarms cfg e :
  preserves alarms (record_metrics cfg e).
Proof.
  unfold record_metrics, collect_metrics, record_instance, record_stat.
  preserved; apply notify_stakeholders_preserves_alarms.
Qed.

Lemma record_metrics_preserves_subscriptions cfg e :
  preserves subscriptions (record_metrics cfg e).
Proof.
  unfold record_metrics, collect_metrics, record_instance, record_stat.
  preserved; apply notify_stakeholders_preserves_subscriptions.
Qed.

Lemma record_metrics_preserves_stdout cfg e :
  preserves stdout (record_metrics cfg e).
Proof.
  unfold record_metrics, collect_metrics, record_instance, record_stat.
  preserved; apply notify_stakeholders_preserves_stdout.
Qed.

Lemma send_weekly_summary_preserves_files py_str cfg e topic_arn :
  preserves files (send_weekly_summary py_str cfg e topic_arn).
Proof.
  unfold send_weekly_summary.
  preserved; apply notify_stakeholders_preserves_files.
Qed.

Lemma send_weekly_summary_preserves_alarms py_str cfg e topic_arn :
  preserves alarms (send_weekly_summary py_str cfg e topic_arn).
Proof.
  unfold send_weekly_summary.
  preserved; apply notify_stakeholders_preserves_alarms.
Qed.

Lemma send_weekly_summary_preserves_subscriptions py_str cfg e topic_arn :
  preserves subscriptions (send_weekly_summary py_str cfg e topic_arn).
Proof.
  unfold send_weekly_summary.
  preserved; apply notify_stakeholders_preserves_subscriptions.
Qed.

Lemma send_weekly_summary_preserves_stdout py_str cfg e topic_arn :
  preserves stdout (send_weekly_summary py_str cfg e topic_arn).
Proof.
  unfold send_weekly_summary.
  preserved; apply notify_stakeholders_preserves_stdout.
Qed.

(* ------------------------------------------------------------------ *)
(** ** [main]: the setup and the way into the loop *)

Lemma create_alarms_for_published cfg e topic_arn i s st :
  exists st',
    (create_alarms_for cfg e topic_arn i s st = (Ok tt, st')
     /\ published st' = published st)
    \/ (exists key,
          create_alarms_for cfg e topic_arn i s st = (Raise (KeyError key), st')
          /\ published st' = published st)
    \/ (exists msg what,
          create_alarms_for cfg e topic_arn i s st = (Raise (ClientError msg), st')
          /\ published st'
             = (published st
                ++ filter (accepted e)
                     [error_notification cfg (what ++ ": " ++ msg)])%list).
Proof.
  unfold create_alarms_for, try_except, bind, lift, cloudwatch_put_metric_alarm.
  destruct (config_threshold cfg s "amber") as [a|ex] eqn:Ea.
  2:{ exists st. right; left.
      destruct (config_threshold_raises _ _ _ _ Ea) as [->| ->]; eauto. }
  destruct (put_metric_alarm_error e _) as [msg|].
  { cbn [exn_str logging_error logging].
    match goal with
    | |- context [notify_stakeholders cfg e ?t ?s] =>
        destruct (notify_stakeholders_reports cfg e t s)
          as (st2 & Hn & _ & _ & _ & _ & P & _)
    end.
    rewrite Hn. exists st2. right; right.
    exists msg, ("Error creating CloudWatch alarm for " ++ s ++ " on " ++ i).
    split; [reflexivity|]. rewrite P. cbn [published].
    now rewrite !string_app_assoc. }
  destruct (config_threshold cfg s "red") as [r|ex] eqn:Er.
  2:{ eexists. right; left.
      destruct (config_threshold_raises _ _ _ _ Er) as [->| ->];
        eexists; (split; [reflexivity|reflexivity]). }
  destruct (put_metric_alarm_error e _) as [msg|].
  { cbn [exn_str logging_error logging].
    match goal with
    | |- context [notify_stakeholders cfg e ?t ?s] =>
        destruct (notify_stakeholders_reports cfg e t s)
          as (st2 & Hn & _ & _ & _ & _ & P & _)
    end.
    rewrite Hn. exists st2. right; right.
    exists msg, ("Error creating CloudWatch alarm for " ++ s ++ " on " ++ i).
    split; [reflexivity|]. rewrite P. cbn [published].
    now rewrite !string_app_assoc. }
  eexists. left. split; reflexivity.
Qed.

(** What a loop over bodies of that kind publishes. *)
Lemma for_each_published cfg e {A} (body : A -> M unit) l :
  (forall x st,
     exists st',
       (body x st = (Ok tt, st') /\ published st' = published st)
       \/ (exists key, body x st = (Raise (KeyError key), st')
                       /\ published st' = published st)
       \/ (exists msg what,
             body x st = (Raise (ClientError msg), st')
             /\ published st'
                = (published st
                   ++ filter (accepted e)
                        [error_notification cfg (what ++ ": " ++ msg)])%list)) ->
  forall st,
    exists st',
      (for_each l body st = (Ok tt, st') /\ published st' = published st)
      \/ (exists key, for_each l body st = (Raise (KeyError key), st')
                      /\ published st' = published st)
      \/ (exists msg what,
            for_each l body st = (Raise (ClientError msg), st')
            /\ published st'
               = (published st
                  ++ filter (accepted e)
                       [error_notification cfg (what ++ ": " ++ msg)])%list).
Proof.
  intros Hbody. induction l as [|x r IH]; intros st.
  - exists st. left. split; reflexivity.
  - cbn [for_each]. unfold bind.
    destruct (Hbody x st) as (st1 & [[H1 P1]|[(key & H1 & P1)|(msg & w & H1 & P1)]]);
      rewrite H1.
    + destruct (IH st1)
        as (st2 & [[H2 P2]|[(key & H2 & P2)|(msg & w & H2 & P2)]]);
        exists st2; rewrite H2.
      * left. split; [reflexivity|congruence].
      * right; left. exists key. split; [reflexivity|congruence].
      * right; right. exists msg, w. split; [reflexivity|]. now rewrite P2, P1.
    + exists st1. right; left. eauto.
    + exists st1. right; right. eauto.
Qed.

Lemma create_alarms_published cfg e topic_arn st :
  exists st',
    (create_alarms cfg e topic_arn st = (Ok tt, st')
     /\ published st' = published st)
    \/ (exists key, create_alarms cfg e topic_arn st = (Raise (KeyError key), st')
                    /\ published st' = published st)
    \/ (exists msg what,
          create_alarms cfg e topic_arn st = (Raise (ClientError msg), st')
          /\ published st'
             = (published st
                ++ filter (accepted e)
                     [error_notification cfg (what ++ ": " ++ msg)])%list).
Proof.
  unfold create_alarms. apply (for_each_published cfg e).
  intros i st1. apply (for_each_published cfg e).
  intros s st2. apply create_alarms_for_published.
Qed.

(** How the [try] block of [main] can end, and what it has published by
    then. *)
Lemma setup_published cfg e st :
  exists st1,
    (exists arn, setup cfg e st = (Ok arn, st1) /\ published st1 = published st)
    \/ (exists key, setup cfg e st = (Raise (KeyError key), st1)
                    /\ published st1 = published st)
    \/ (exists msg what,
          setup cfg e st = (Raise (ClientError msg), st1)
          /\ published st1
             = (published st
                ++ filter (accepted e)
                     [error_notification cfg (what ++ ": " ++ msg)])%list).
Proof.
  unfold setup, bind.
  pose proof (create_sns_topic_outcome cfg e st) as Ht.
  destruct (create_topic_response e (sns_topic_name cfg)) as [msg|arn].
  { destruct Ht as (st1 & -> & (_ & _ & _ & _ & P & _) & _).
    exists st1. right; right. exists msg, "Error creating SNS topic".
    split; [reflexivity|]. rewrite P. reflexivity. }
  rewrite Ht.
  set (st1 := snd (logging_debug ("SNS topic created: " ++ arn) st)).
  destruct (subscribe_email_outcome cfg e arn (email cfg) st1) as (st2 & Hs).
  destruct (subscribe_error e arn (email cfg)) as [msg|].
  { destruct Hs as (-> & (_ & _ & _ & _ & P & _) & _).
    exists st2. right; right. exists msg, "Error subscribing email to SNS topic".
    split; [reflexivity|]. rewrite P. reflexivity. }
  destruct Hs as (-> & (_ & _ & _ & P2 & _)). rewrite app_nil_r in P2.
  destruct (create_alarms_published cfg e arn st2)
    as (st3 & [[H P]|[(key & H & P)|(msg & what & H & P)]]);
    exists st3; rewrite H.
  - left. exists arn. split; [reflexivity|]. now rewrite P, P2.
  - right; left. exists key. split; [reflexivity|]. now rewrite P, P2.
  - right; right. exists msg, what. split; [reflexivity|]. now rewrite P, P2.
Qed.

Lemma main_setup_failure_core py_str cfg e rounds st ex st1 :
  setup cfg e st = (Raise ex, st1) ->
  exists st',
    main py_str cfg e rounds st = (Ok tt, st')
    /\ published st'
       = (published st1
          ++ filter (accepted e)
               [error_notification cfg ("Setup failed: " ++ exn_str ex)])%list.
Proof.
  intros Hsetup. unfold main. rewrite Hsetup. unfold bind.
  cbn [logging_error logging].
  match goal with
  | |- context [notify_stakeholders cfg e ?t ?s] =>
      destruct (notify_stakeholders_reports cfg e t s)
        as (st2 & Hn & _ & _ & _ & _ & P2 & _)
  end.
  rewrite Hn. eexists. split; [reflexivity|]. exact P2.
Qed.


(** X7: a [ClientError] during the setup is notified twice (as far as SNS
    accepts): once by the function that met it, with its own text before
    the error, and once more by [main] as "Setup failed: ...". *)
Theorem main_setup_client_error_notified_twice py_str cfg e rounds st msg st1 :
  setup cfg e st = (Raise (ClientError msg), st1) ->
  exists what st',
    main py_str cfg e rounds st = (Ok tt, st')
    /\ published st'
       = (published st
          ++ filter (accepted e)
               [{| TopicArn := error_topic_arn cfg;
                   Subject := "Error Notification: EC2 Monitoring";
                   Message := what ++ ": " ++ msg |};
                {| TopicArn := error_topic_arn cfg;
                   Subject := "Error Notification: EC2 Monitoring";
                   Message := "Setup failed: " ++ msg |}])%list.
Proof.
  intros Hsetup.
  destruct (setup_published cfg e st)
    as (st2 & [(arn & H & _)|[(key & H & _)|(msg' & what & H & P)]]);
    rewrite Hsetup in H; try discriminate.
  injection H as <- <-.
  destruct (main_setup_failure_core py_str cfg e rounds st _ _ Hsetup)
    as (st' & Hmain & P').
  exists what, st'. split; [exact Hmain|].
  rewrite P', P. cbn [exn_str filter]. unfold error_notification.
  destruct (accepted e _), (accepted e _); cbn [app];
    rewrite <- ?app_assoc, ?app_nil_r; reflexivity.
Qed.

(** A missing threshold is notified by [main] alone. *)
Lemma main_setup_key_error_notified_once py_str cfg e rounds st key st1 :
  setup cfg e st = (Raise (KeyError key), st1) ->
  exists st',
    main py_str cfg e rounds st = (Ok tt, st')
    /\ published st'
       = (published st
          ++ filter (accepted e)
               [error_notification cfg ("Setup failed: " ++ py_repr key)])%list.
Proof.
  intros Hsetup.
  destruct (setup_published cfg e st)
    as (st2 & [(arn & H & _)|[(key' & H & P)|(msg' & what & H & _)]]);
    rewrite Hsetup in H; try discriminate.
  injection H as <- <-.
  destruct (main_setup_failure_core py_str cfg e rounds st _ _ Hsetup)
    as (st' & Hmain & P').
  exists st'. split; [exact Hmain|]. rewrite P', P. reflexivity.
Qed.

(** X8: when the topic is created, the address subscribed and no alarm
    refused, the setup notifies nothing; the ARN the provider returned for
    the configured topic name is the one the address is subscribed to, the
    only action of every alarm, and the topic [main] hands to the loop for
    the weekly summary. *)
Theorem setup_wires_the_topic
    py_str cfg e (amber red : string -> value) arn rounds st :
  create_topic_response e (sns_topic_name cfg) = inr arn ->
  subscribe_error e arn (email cfg) = None ->
  (forall s, In s (stats cfg) ->
     exists by_tier,
       dict_get (thresholds cfg) s = Some by_tier
       /\ dict_get by_tier "amber" = Some (amber s)
       /\ dict_get by_tier "red" = Some (red s)) ->
  first_refusal e (expected_alarms cfg arn amber red) = None ->
  exists st1,
    setup cfg e st = (Ok arn, st1)
    /\ subscriptions st1 = (subscriptions st ++ [(arn, email cfg)])%list
    /\ alarms st1 = (alarms st ++ expected_alarms cfg arn amber red)%list
    /\ (forall a, In a (expected_alarms cfg arn amber red) ->
          AlarmActions a = [arn])
    /\ published st1 = published st
    /\ files st1 = files st
    /\ main py_str cfg e rounds st
       = scheduler_loop py_str cfg arn rounds
           (snd (print "Setup complete, entering main loop." st1)).
Proof.
  intros Htopic Hsub Hthr Hnone.
  pose proof (create_sns_topic_outcome cfg e st) as Ht. rewrite Htopic in Ht.
  set (st0 := snd (logging_debug ("SNS topic created: " ++ arn) st)) in *.
  destruct (subscribe_email_outcome cfg e arn (email cfg) st0) as (st2 & Hs).
  rewrite Hsub in Hs. destruct Hs as (Hs & F2 & O2 & A2 & P2 & S2 & _).
  destruct (create_alarms_requests cfg e arn amber red st2 Hthr)
    as (st3 & Hrun & F3 & O3 & A3 & P3 & S3 & _).
  unfold refusal_outcome, refusal_notifications in *. rewrite Hnone in *.
  rewrite (accepted_alarms_all _ _ Hnone) in A3.
  assert (Hsetup : setup cfg e st = (Ok arn, st3)).
  { unfold setup, bind. now rewrite Ht, Hs, Hrun. }
  exists st3. split; [exact Hsetup|].
  rewrite !app_nil_r in *.
  split; [now rewrite S3, S2|]. split; [now rewrite A3, A2|]. split.
  { intros a Ha. unfold expected_alarms in Ha.
    apply in_flat_map in Ha. destruct Ha as (i & _ & Ha).
    apply in_flat_map in Ha. destruct Ha as (s & _ & Ha).
    destruct Ha as [<-|[<-|[]]]; reflexivity. }
  split; [now rewrite P3, P2|]. split; [now rewrite F3, F2|].
  unfold main. now rewrite Hsetup.
Qed.

(* ------------------------------------------------------------------ *)
(** ** The tick, whatever the provider and SNS do *)

(** X9: with a metrics provider and an SNS that answer every call or
    refuse it with a [ClientError], a tick completes exactly when the
    append to the metrics log succeeds: no such answer or refusal makes it
    fail, and the exception it raises otherwise is the [IOError] of the
    append. *)
Theorem record_metrics_outcome cfg e st :
  match open_append_error e (metrics cfg) with
  | None => fst (record_metrics cfg e st) = Ok tt
  | Some msg => fst (record_metrics cfg e st) = Raise (IOError msg)
  end.
Proof.
  destruct (open_append_error e (metrics cfg)) as [msg|] eqn:E.
  - destruct (record_metrics_write_failure cfg e st msg E) as (st' & -> & _).
    reflexivity.
  - destruct (record_metrics_appends cfg e st E) as (st' & -> & _).
    reflexivity.
Qed.

Lemma record_metrics_files cfg e st :
  files (snd (record_metrics cfg e st))
  = match open_append_error e (metrics cfg) with
    | None => dict_set (files st) (metrics cfg)
                (file_lines st (metrics cfg) ++ [recorded_line cfg e])%list
    | Some _ => files st
    end.
Proof.
  destruct (open_append_error e (metrics cfg)) as [msg|] eqn:E.
  - destruct (record_metrics_write_failure cfg e st msg E) as (st' & -> & F & _).
    exact F.
  - destruct (record_metrics_appends cfg e st E) as (st' & -> & F & _).
    exact F.
Qed.

Lemma record_metrics_published cfg e st :
  exists msgs,
    published (snd (record_metrics cfg e st)) = (published st ++ msgs)%list
    /\ forall m, In m msgs ->
         TopicArn m = error_topic_arn cfg
         /\ Subject m = "Error Notification: EC2 Monitoring".
Proof.
  assert (Hticks : forall m, In m (tick_notifications cfg e) ->
            TopicArn m = error_topic_arn cfg
            /\ Subject m = "Error Notification: EC2 Monitoring").
  { intros m Hm. unfold tick_notifications in Hm.
    apply in_flat_map in Hm. destruct Hm as (i & _ & Hm).
    apply in_flat_map in Hm. destruct Hm as (s & _ & Hm).
    unfold query_notifications in Hm.
    destruct (metric_statistics e s i); [|destruct Hm].
    destruct Hm as [<-|[]]. split; reflexivity. }
  destruct (open_append_error e (metrics cfg)) as [msg|] eqn:E.
  - destruct (record_metrics_write_failure cfg e st msg E)
      as (st' & -> & _ & P & _).
    eexists; split; [exact P|]. intros m Hm. apply filter_In in Hm.
    destruct Hm as [Hm _]. apply in_app_or in Hm.
    destruct Hm as [Hm|[<-|[]]]; [now apply Hticks|split; reflexivity].
  - destruct (record_metrics_appends cfg e st E) as (st' & -> & _ & P & _).
    eexists; split; [exact P|]. intros m Hm. apply filter_In in Hm.
    destruct Hm as [Hm _]. now apply Hticks.
Qed.

(** X10: whatever its outcome, a tick leaves alarms, subscriptions and
    standard output as they were; it writes to two files only, the metrics
    log and the process log [config['log_file']], to which it only adds
    records: every other file is as it was.  Every message it publishes
    goes to the error topic under the subject of error notifications: a
    tick never publishes to the alert topic. *)
Theorem record_metrics_touches_only_its_log cfg e st :
  let st' := snd (record_metrics cfg e st) in
  alarms st' = alarms st
  /\ subscriptions st' = subscriptions st
  /\ stdout st' = stdout st
  /\ (forall path, path <> metrics cfg -> path <> log_file cfg ->
        dict_get (files st') path = dict_get (files st) path)
  /\ (exists records, log st' = (log st ++ records)%list)
  /\ exists msgs,
       published st' = (published st ++ msgs)%list
       /\ forall m, In m msgs ->
            TopicArn m = error_topic_arn cfg
            /\ Subject m = "Error Notification: EC2 Monitoring".
Proof.
  cbv zeta.
  split; [apply record_metrics_preserves_alarms|].
  split; [apply record_metrics_preserves_subscriptions|].
  split; [apply record_metrics_preserves_stdout|].
  split; [|split; [|apply record_metrics_published]].
  2:{ destruct (record_metrics_log cfg e st) as (records & L & _). eauto. }
  intros path Hne _. rewrite record_metrics_files.
  destruct (open_append_error e (metrics cfg)); [reflexivity|].
  apply dict_get_set_other. congruence.
Qed.

(* ------------------------------------------------------------------ *)
(** ** The process log only grows *)

Section Appends.

Context {B : Type} (proj : state -> list B).

Lemma appends_to_ret {A} (a : A) : appends_to proj (ret a).
Proof. intros st. exists []. symmetry. apply app_nil_r. Qed.

Lemma appends_to_raise {A} ex : appends_to proj (@raise A ex).
Proof. intros st. exists []. symmetry. apply app_nil_r. Qed.

Lemma appends_to_lift {A} (r : result A) : appends_to proj (lift r).
Proof. intros st. exists []. symmetry. apply app_nil_r. Qed.

Lemma appends_to_bind {A C} (c : M A) (k : A -> M C) :
  appends_to proj c -> (forall a, appends_to proj (k a)) ->
  appends_to proj (bind c k).
Proof.
  intros Hc Hk st. unfold bind. destruct (Hc st) as [l1 L1].
  destruct (c st) as [[a|ex] st1]; cbn [snd] in *; [|eauto].
  destruct (Hk a st1) as [l2 L2]. exists (l1 ++ l2)%list.
  now rewrite L2, L1, app_assoc.
Qed.

Lemma appends_to_try_except {A} (body : M A) handler :
  appends_to proj body ->
  (forall ex h, handler ex = Some h -> appends_to proj h) ->
  appends_to proj (try_except body handler).
Proof.
  intros Hb Hh st. unfold try_except. destruct (Hb st) as [l1 L1].
  destruct (body st) as [[a|ex] st1]; cbn [snd] in *; [eauto|].
  destruct (handler ex) as [h|] eqn:E; [|eauto].
  destruct (Hh _ _ E st1) as [l2 L2]. exists (l1 ++ l2)%list.
  now rewrite L2, L1, app_assoc.
Qed.

Lemma appends_to_for_each {A} (l : list A) body :
  (forall x, appends_to proj (body x)) -> appends_to proj (for_each l body).
Proof.
  intros Hb. induction l as [|x r IH]; cbn [for_each].
  - apply appends_to_ret.
  - apply appends_to_bind; auto.
Qed.

Lemma appends_to_for_fold {A C} (l : list A) (body : C -> A -> M C) : forall acc,
  (forall acc x, appends_to proj (body acc x)) ->
  appends_to proj (for_fold l acc body).
Proof.
  induction l as [|x r IH]; intros acc Hb; cbn [for_fold].
  - apply appends_to_ret.
  - apply appends_to_bind; auto.
Qed.

Lemma appends_to_for_collect {A C} (l : list A) (body : A -> M C) :
  (forall x, appends_to proj (body x)) -> appends_to proj (for_collect l body).
Proof.
  intros Hb. induction l as [|x r IH]; cbn [for_collect].
  - apply appends_to_ret.
  - apply appends_to_bind; auto. intros y.
    apply appends_to_bind; auto. intros ys. apply appends_to_ret.
Qed.

End Appends.

Ltac appended_step :=
  first
    [ apply appends_to_ret | apply appends_to_raise | apply appends_to_lift
    | apply appends_to_bind | apply appends_to_for_each
    | apply appends_to_for_fold | apply appends_to_for_collect
    | apply appends_to_try_except
    | match goal with
      | |- forall ex h, _ = Some h -> appends_to _ h =>
          let ex := fresh "ex" in
          let h := fresh "h" in
          let Hh := fresh "Hh" in
          intros ex h Hh; destruct ex; try discriminate; injection Hh as <-
      | |- forall _, _ => intro
      | |- appends_to _ (match ?x with _ => _ end) => destruct x
      end ].

(** A primitive effect adds one record to the log or none. *)
Ltac appended_prim :=
  let st := fresh "st" in
  intros st;
  unfold logging_debug, logging_info, logging_error, logging, print,
    sns_publish, sns_create_topic, sns_subscribe, cloudwatch_put_metric_alarm,
    cloudwatch_get_metric_statistics, append_json_line, read_json_lines;
  repeat match goal with
         | |- context [match ?x with _ => _ end] => destruct x
         end;
  cbn [snd log];
  first [ exists []; symmetry; apply app_nil_r | eexists; reflexivity ].

Ltac appended := repeat appended_step; try appended_prim.

Lemma notify_stakeholders_appends_to_log cfg e text :
  appends_to log (notify_stakeholders cfg e text).
Proof. unfold notify_stakeholders. appended. Qed.

Lemma record_metrics_appends_to_log cfg e : appends_to log (record_metrics cfg e).
Proof.
  unfold record_metrics, collect_metrics, record_instance, record_stat.
  appended; apply notify_stakeholders_appends_to_log.
Qed.

Lemma send_weekly_summary_appends_to_log py_str cfg e topic_arn :
  appends_to log (send_weekly_summary py_str cfg e topic_arn).
Proof.
  unfold send_weekly_summary. appended; apply notify_stakeholders_appends_to_log.
Qed.

Lemma scheduler_loop_appends_to_log py_str cfg topic_arn rounds :
  appends_to log (scheduler_loop py_str cfg topic_arn rounds).
Proof.
  induction rounds as [|due later IH]; cbn [scheduler_loop].
  - apply appends_to_ret.
  - apply appends_to_bind; [|intros _; exact IH].
    unfold run_pending. apply appends_to_for_each. intros [[|] e]; cbn [run_job fst snd].
    + apply record_metrics_appends_to_log.
    + apply send_weekly_summary_appends_to_log.
Qed.

(* ------------------------------------------------------------------ *)
(** ** The loop as a whole *)

Lemma run_pending_app py_str cfg topic_arn due1 due2 st st1 :
  run_pending py_str cfg topic_arn due1 st = (Ok tt, st1) ->
  run_pending py_str cfg topic_arn (due1 ++ due2)%list st
  = run_pending py_str cfg topic_arn due2 st1.
Proof. unfold run_pending. apply for_each_app. Qed.

(** X11: the loop ends with the first exception any job raises, be it a
    tick or the weekly summary: the exception leaves [run_pending] and the
    loop, the state is the one that job left, and neither the other jobs
    due in that round nor any later round runs. *)
Theorem scheduler_loop_ends_at_first_exception
    py_str cfg topic_arn earlier due_before j e due_after later st0 st1 st ex st' :
  scheduler_loop py_str cfg topic_arn earlier st0 = (Ok tt, st1) ->
  run_pending py_str cfg topic_arn due_before st1 = (Ok tt, st) ->
  run_job py_str cfg topic_arn j e st = (Raise ex, st') ->
  scheduler_loop py_str cfg topic_arn
    (earlier ++ (due_before ++ (j, e) :: due_after) :: later)%list st0
  = (Raise ex, st').
Proof.
  intros Hearlier Hbefore Hjob.
  rewrite (scheduler_loop_app _ _ _ _ _ _ _ Hearlier).
  cbn [scheduler_loop]. unfold bind at 1.
  rewrite (run_pending_app _ _ _ _ _ _ _ Hbefore).
  unfold run_pending. cbn [for_each fst snd]. unfold bind. now rewrite Hjob.
Qed.

(** The lines of the metrics log before and after one job. *)
Lemma run_job_appends py_str cfg topic_arn j e st :
  let st' := snd (run_job py_str cfg topic_arn j e st) in
  (forall path, path <> metrics cfg ->
     dict_get (files st') path = dict_get (files st) path)
  /\ exists added,
       file_lines st' (metrics cfg) = (file_lines st (metrics cfg) ++ added)%list
       /\ (length added <= if is_tick (j, e) then 1 else 0)%nat.
Proof.
  cbv zeta. destruct j; cbn [run_job is_tick fst].
  - pose proof (record_metrics_files cfg e st) as F.
    set (st' := snd (record_metrics cfg e st)) in *.
    split.
    + intros path Hne. rewrite F.
      destruct (open_append_error e (metrics cfg)); [reflexivity|].
      apply dict_get_set_other. congruence.
    + unfold file_lines at 1. rewrite F.
      destruct (open_append_error e (metrics cfg)).
      * exists []. rewrite app_nil_r. split; [reflexivity|]. cbn. lia.
      * exists [recorded_line cfg e]. rewrite dict_get_set_same.
        split; [reflexivity|]. cbn. lia.
  - pose proof (send_weekly_summary_preserves_files py_str cfg e topic_arn st) as F.
    set (st' := snd (send_weekly_summary py_str cfg e topic_arn st)) in *.
    split.
    + intros path Hne. now rewrite F.
    + exists []. rewrite app_nil_r. unfold file_lines. rewrite F.
      split; [reflexivity|]. cbn. lia.
Qed.

Lemma run_pending_appends py_str cfg topic_arn due : forall st,
  let st' := snd (run_pending py_str cfg topic_arn due st) in
  (forall path, path <> metrics cfg ->
     dict_get (files st') path = dict_get (files st) path)
  /\ exists added,
       file_lines st' (metrics cfg) = (file_lines st (metrics cfg) ++ added)%list
       /\ (length added <= length (filter is_tick due))%nat.
Proof.
  cbv zeta. unfold run_pending. induction due as [|[j e] r IH]; intros st.
  - cbn. split; [reflexivity|]. exists []. now rewrite app_nil_r.
  - cbn [for_each fst snd]. unfold bind.
    pose proof (run_job_appends py_str cfg topic_arn j e st) as Hj.
    cbv zeta in Hj. destruct Hj as (Hother & added & Hlines & Hlen).
    destruct (run_job py_str cfg topic_arn j e st) as [[[]|ex] st1];
      cbn [snd] in *.
    + destruct (IH st1) as (Hother2 & added2 & Hlines2 & Hlen2).
      split.
      * intros path Hne. rewrite Hother2, Hother; auto.
      * exists (added ++ added2)%list.
        split; [now rewrite Hlines2, Hlines, app_assoc|].
        rewrite length_app. cbn [filter].
        destruct (is_tick (j, e)); cbn [length]; lia.
    + split; [exact Hother|]. exists added. split; [exact Hlines|].
      cbn [filter]. destruct (is_tick (j, e)); cbn [length]; lia.
Qed.

Lemma scheduler_loop_appends py_str cfg topic_arn rounds : forall st,
  let st' := snd (scheduler_loop py_str cfg topic_arn rounds st) in
  (forall path, path <> metrics cfg ->
     dict_get (files st') path = dict_get (files st) path)
  /\ exists added,
       file_lines st' (metrics cfg) = (file_lines st (metrics cfg) ++ added)%list
       /\ (length added <= length (filter is_tick (concat rounds)))%nat.
Proof.
  cbv zeta. induction rounds as [|due later IH]; intros st.
  - cbn. split; [reflexivity|]. exists []. now rewrite app_nil_r.
  - cbn [scheduler_loop concat]. unfold bind.
    pose proof (run_pending_appends py_str cfg topic_arn due st) as Hd.
    cbv zeta in Hd. destruct Hd as (Hother & added & Hlines & Hlen).
    destruct (run_pending py_str cfg topic_arn due st) as [[[]|ex] st1];
      cbn [snd] in *.
    + destruct (IH st1) as (Hother2 & added2 & Hlines2 & Hlen2).
      split.
      * intros path Hne. rewrite Hother2, Hother; auto.
      * exists (added ++ added2)%list.
        split; [now rewrite Hlines2, Hlines, app_assoc|].
        rewrite filter_app, !length_app. lia.
    + split; [exact Hother|]. exists added. split; [exact Hlines|].
      rewrite filter_app, length_app. lia.
Qed.

(** X12: the metrics log is append-only.  Whatever jobs the loop runs and
    however it ends, every line the log held before is still there, in
    place, and the lines added number at most the ticks that were due.
    The loop writes to one more file, the process log
    [config['log_file']], which only grows as well; every other file is
    as it was. *)
Theorem scheduler_loop_append_only py_str cfg topic_arn rounds : forall st,
  let st' := snd (scheduler_loop py_str cfg topic_arn rounds st) in
  (forall path, path <> metrics cfg -> path <> log_file cfg ->
     dict_get (files st') path = dict_get (files st) path)
  /\ (exists records, log st' = (log st ++ records)%list)
  /\ exists added,
       file_lines st' (metrics cfg) = (file_lines st (metrics cfg) ++ added)%list
       /\ (length added <= length (filter is_tick (concat rounds)))%nat.
Proof.
  cbv zeta. intros st.
  pose proof (scheduler_loop_appends py_str cfg topic_arn rounds st) as H.
  cbv zeta in H. destruct H as [Hother Hadded].
  split; [intros path Hne _; now apply Hother|].
  split; [apply scheduler_loop_appends_to_log|exact Hadded].
Qed.

(* ------------------------------------------------------------------ *)
(** ** The weekly summary at its edges *)

(** X13: when the file named by config['data_file'] does not exist, the
    report ends with the [IOError] of [open]; the handler of the report
    answers [ClientError] only, so nothing is logged, notified or
    published. *)
Theorem send_weekly_summary_missing_file py_str cfg e topic_arn st :
  dict_get (files st) (data_file cfg) = None ->
  exists msg,
    send_weekly_summary py_str cfg e topic_arn st = (Raise (IOError msg), st).
Proof.
  intros H. unfold send_weekly_summary, try_except, bind, read_json_lines.
  rewrite H. eexists; reflexivity.
Qed.

(** X14: when SNS refuses the digest with a [ClientError], the report logs
    the error (the first record it adds to the log), attempts a
    notification to the error topic and raises the same [ClientError]
    again; the digest is not published and no file is touched. *)
Theorem send_weekly_summary_publish_refused py_str cfg e topic_arn st data ws msg :
  dict_get (files st) (data_file cfg) = Some data ->
  build_weekly_summary data (stats cfg) [] = Ok ws ->
  publish_error e {| TopicArn := topic_arn;
                     Subject := "Weekly EC2 Metrics Summary";
                     Message := format_summary py_str ws |} = Some msg ->
  exists st',
    send_weekly_summary py_str cfg e topic_arn st = (Raise (ClientError msg), st')
    /\ published st'
       = (published st
          ++ filter (accepted e)
               [{| TopicArn := error_topic_arn cfg;
                   Subject := "Error Notification: EC2 Monitoring";
                   Message := "Error sending weekly summary: " ++ msg |}])%list
    /\ (exists l,
          log st'
          = (log st
             ++ LogText ERROR ("Error sending weekly summary: " ++ msg) :: l)%list)
    /\ files st' = files st.
Proof.
  intros Hfile Hbuild Hpub.
  pose proof (send_weekly_summary_run py_str cfg e topic_arn st) as R.
  rewrite Hfile, Hbuild in R. cbv zeta in R. rewrite Hpub in R.
  destruct R as (st' & Hrun & P & L). exists st'.
  split; [exact Hrun|]. split; [exact P|]. split; [exact L|].
  pose proof (send_weekly_summary_preserves_files py_str cfg e topic_arn st) as F.
  now rewrite Hrun in F.
Qed.

Lemma stat_values_all_absent data stat :
  Forall (fun entry => first_instance_stat entry stat = Ok VNone) data ->
  stat_values data stat = Ok [].
Proof.
  induction 1 as [|entry rest H _ IH]; cbn [stat_values]; [reflexivity|].
  now rewrite H.
Qed.

Lemma build_weekly_summary_all_absent data names : forall ws,
  (forall stat, In stat names -> stat_values data stat = Ok []) ->
  build_weekly_summary data names ws = Ok ws.
Proof.
  induction names as [|n r IH]; intros ws H; cbn [build_weekly_summary];
    [reflexivity|].
  unfold summarise_stat. rewrite (H n (or_introl eq_refl)). cbn [and_then].
  apply IH. intros stat Hin. apply H. now right.
Qed.

(** X15: when the log holds no value for any configured stat (it is empty,
    or the first instance entry of every line has the absent value for
    every stat), the report still publishes: the digest is the bare header
    "Weekly Summary:" with no section. *)
Theorem send_weekly_summary_nothing_to_report py_str cfg e topic_arn st data :
  dict_get (files st) (data_file cfg) = Some data ->
  (forall entry stat, In entry data -> In stat (stats cfg) ->
     first_instance_stat entry stat = Ok VNone) ->
  publish_error e {| TopicArn := topic_arn;
                     Subject := "Weekly EC2 Metrics Summary";
                     Message := "Weekly Summary:" ++ LF |} = None ->
  exists st',
    send_weekly_summary py_str cfg e topic_arn st = (Ok tt, st')
    /\ published st'
       = (published st
          ++ [{| TopicArn := topic_arn;
                 Subject := "Weekly EC2 Metrics Summary";
                 Message := "Weekly Summary:" ++ LF |}])%list.
Proof.
  intros Hfile Habsent Hpub.
  assert (Hbuild : build_weekly_summary data (stats cfg) [] = Ok []).
  { apply build_weekly_summary_all_absent. intros stat Hstat.
    apply stat_values_all_absent. apply Forall_forall. intros entry Hin.
    now apply Habsent. }
  pose proof (send_weekly_summary_run py_str cfg e topic_arn st) as R.
  rewrite Hfile, Hbuild in R. cbv zeta in R.
  change (format_summary py_str []) with ("Weekly Summary:" ++ LF) in R.
  rewrite Hpub in R. destruct R as (st' & Hrun & P & _). eauto.
Qed.

Lemma sum_from_non_number l : forall acc v,
  In v l -> as_number v = None -> sum_from acc l = Raise TypeError.
Proof.
  induction l as [|x r IH]; intros acc v Hin Hv; [destruct Hin|].
  cbn [sum_from]. destruct (to_number x) as [n|] eqn:Ex; [|reflexivity].
  destruct Hin as [->|Hin]; [|eapply IH; eauto].
  apply to_number_None in Hv. congruence.
Qed.

Lemma summarise_non_number values v :
  In v values -> as_number v = None -> summarise values = Raise TypeError.
Proof.
  intros Hin Hv. destruct values as [|x r]; [destruct Hin|].
  unfold summarise, and_then, py_max, py_min, py_sum.
  destruct (max_loop x r) as [hi|ex] eqn:E1.
  2:{ now rewrite (max_loop_raises _ _ _ E1). }
  destruct (min_loop x r) as [lo|ex] eqn:E2.
  2:{ now rewrite (min_loop_raises _ _ _ E2). }
  now rewrite (sum_from_non_number _ _ _ Hin Hv).
Qed.

Lemma build_weekly_summary_type_error cfg data names stat v values :
  Forall (meets_report_precondition cfg) data ->
  incl names (stats cfg) ->
  In stat names ->
  stat_values data stat = Ok values ->
  In v values -> as_number v = None ->
  forall ws, build_weekly_summary data names ws = Raise TypeError.
Proof.
  intros Hpre Hincl Hstat Hvals Hin Hv.
  induction names as [|n r IH]; intros ws; [destruct Hstat|].
  cbn [build_weekly_summary]. unfold summarise_stat.
  destruct (stat_values_under_precondition cfg data n Hpre
              (Hincl n (or_introl eq_refl))) as [vals Hn].
  rewrite Hn. cbn [and_then].
  destruct vals as [|x xs].
  - cbn [and_then]. apply IH.
    + intros y Hy. apply Hincl. now right.
    + destruct Hstat as [->|Hstat]; [|exact Hstat].
      rewrite Hvals in Hn. injection Hn as ->. destruct Hin.
  - destruct (summarise (x :: xs)) as [s|ex] eqn:Es.
    + cbn [and_then]. apply IH.
      * intros y Hy. apply Hincl. now right.
      * destruct Hstat as [->|Hstat]; [|exact Hstat].
        rewrite Hvals in Hn. injection Hn as ->.
        rewrite (summarise_non_number _ _ Hin Hv) in Es. discriminate.
    + cbn [and_then]. now rewrite (summarise_raises _ _ _ Es).
Qed.

(** X16: a value in the log that is neither a number nor absent (a string,
    a list, an object) makes the report fail: on a log every line of which
    can be indexed, the report ends with a [TypeError] from [max], [min] or
    [sum]; nothing is published, logged or notified. *)
Theorem send_weekly_summary_non_number py_str cfg e topic_arn st data stat values v :
  dict_get (files st) (data_file cfg) = Some data ->
  Forall (meets_report_precondition cfg) data ->
  In stat (stats cfg) ->
  stat_values data stat = Ok values ->
  In v values -> as_number v = None ->
  send_weekly_summary py_str cfg e topic_arn st = (Raise TypeError, st).
Proof.
  intros Hfile Hpre Hstat Hvals Hin Hv.
  pose proof (send_weekly_summary_run py_str cfg e topic_arn st) as R.
  rewrite Hfile in R.
  rewrite (build_weekly_summary_type_error cfg data (stats cfg) stat v values
             Hpre (incl_refl _) Hstat Hvals Hin Hv) in R.
  exact R.
Qed.

(* ------------------------------------------------------------------ *)
(** ** From the collector to the report *)

Lemma first_instance_stat_recorded_line cfg e i others stat :
  instances cfg = i :: others ->
  In stat (stats cfg) ->
  first_instance_stat (recorded_line cfg e) stat = Ok (recorded_value e i stat).
Proof.
  intros Hi Hs. unfold first_instance_stat, recorded_line. rewrite Hi.
  cbn [map getitem dict_get String.eqb Ascii.eqb Bool.eqb and_then getitem0
         recorded_entry].
  cbn. now rewrite recorded_stats_get.
Qed.

Lemma stat_values_recorded_lines cfg i others stat envs :
  instances cfg = i :: others ->
  In stat (stats cfg) ->
  stat_values (map (recorded_line cfg) envs) stat
  = Ok (filter (fun v => negb (is_none v))
          (map (fun e => recorded_value e i stat) envs)).
Proof.
  intros Hi Hs. induction envs as [|e r IH]; [reflexivity|].
  cbn [map stat_values filter].
  rewrite (first_instance_stat_recorded_line cfg e i others stat Hi Hs), IH.
  cbn [and_then].
  destruct (recorded_value_shape e i stat) as [->|[q ->]]; reflexivity.
Qed.

(** X17: with one path under both file keys, what the report reads for a
    stat after N ticks on an empty log is, in order, what the ticks
    recorded for that stat on the first configured instance, the absent
    values left out; the records of the other instances are not read. *)
Theorem report_reads_first_instance_records cfg i others stat envs st :
  metrics cfg = data_file cfg ->
  instances cfg = i :: others ->
  In stat (stats cfg) ->
  file_lines st (metrics cfg) = [] ->
  (forall e, In e envs -> open_append_error e (metrics cfg) = None) ->
  exists st',
    ticks cfg envs st = (Ok tt, st')
    /\ stat_values (file_lines st' (data_file cfg)) stat
       = Ok (filter (fun v => negb (is_none v))
               (map (fun e => recorded_value e i stat) envs)).
Proof.
  intros Hsame Hi Hs Hempty Hopen.
  destruct (ticks_complete cfg envs st Hopen) as (st' & Hrun & Hlines).
  exists st'. split; [exact Hrun|].
  rewrite <- Hsame, Hlines, Hempty. cbn [app].
  now apply stat_values_recorded_lines with (others := others).
Qed.

Lemma max_loop_total l : forall best,
  as_number best <> None ->
  Forall (fun v => as_number v <> None) l ->
  exists hi, max_loop best l = Ok hi.
Proof.
  induction l as [|x r IH]; intros best Hb Hl; [now exists best|].
  inversion Hl as [|? ? Hx Hr]; subst. cbn [max_loop]. unfold value_gt.
  destruct (as_number x) as [qx|] eqn:Ex; [|congruence].
  destruct (as_number best) as [qb|] eqn:Eb; [|congruence].
  destruct (negb (Qle_bool qx qb)); apply IH; auto; congruence.
Qed.

Lemma min_loop_total l : forall best,
  as_number best <> None ->
  Forall (fun v => as_number v <> None) l ->
  exists lo, min_loop best l = Ok lo.
Proof.
  induction l as [|x r IH]; intros best Hb Hl; [now exists best|].
  inversion Hl as [|? ? Hx Hr]; subst. cbn [min_loop]. unfold value_gt.
  destruct (as_number best) as [qb|] eqn:Eb; [|congruence].
  destruct (as_number x) as [qx|] eqn:Ex; [|congruence].
  destruct (negb (Qle_bool qb qx)); apply IH; auto; congruence.
Qed.

Lemma sum_from_total l : forall acc,
  Forall (fun v => as_number v <> None) l ->
  exists total, sum_from acc l = Ok total.
Proof.
  induction l as [|x r IH]; intros acc Hl; [now exists acc|].
  inversion Hl as [|? ? Hx Hr]; subst. cbn [sum_from].
  destruct (to_number x) as [n|] eqn:Ex; [now apply IH|].
  apply to_number_None in Ex. contradiction.
Qed.

Lemma summarise_total v vs :
  Forall (fun v => as_number v <> None) (v :: vs) ->
  exists s, summarise (v :: vs) = Ok s.
Proof.
  intros H. inversion H as [|? ? Hv Hvs]; subst.
  unfold summarise, py_max, py_min, py_sum.
  destruct (max_loop_total vs v Hv Hvs) as [hi ->].
  destruct (min_loop_total vs v Hv Hvs) as [lo ->].
  destruct (sum_from_total (v :: vs) (NInt 0) H) as [total ->].
  cbn [and_then]. eauto.
Qed.

Lemma build_weekly_summary_total data names : forall ws,
  (forall stat, In stat names ->
     exists values, stat_values data stat = Ok values
                    /\ Forall (fun v => as_number v <> None) values) ->
  exists ws', build_weekly_summary data names ws = Ok ws'.
Proof.
  induction names as [|n r IH]; intros ws H; [now exists ws|].
  cbn [build_weekly_summary]. unfold summarise_stat.
  destruct (H n (or_introl eq_refl)) as (values & -> & Hnum).
  cbn [and_then]. destruct values as [|v vs].
  - cbn [and_then]. apply IH. intros stat Hin. apply H. now right.
  - destruct (summarise_total v vs Hnum) as [s ->]. cbn [and_then].
    apply IH. intros stat Hin. apply H. now right.
Qed.

Lemma recorded_values_numbers i stat envs :
  Forall (fun v => as_number v <> None)
         (filter (fun v => negb (is_none v))
            (map (fun e => recorded_value e i stat) envs)).
Proof.
  apply Forall_forall. intros v Hv. apply filter_In in Hv.
  destruct Hv as [Hin Hnn]. apply in_map_iff in Hin.
  destruct Hin as (e & <- & _).
  destruct (recorded_value_shape e i stat) as [H|[q H]]; rewrite H in *;
    [discriminate|cbn; discriminate].
Qed.

(** X18: on a log the collector wrote under the same configuration, with
    at least one instance and one path under both file keys, the report
    never fails in reading, indexing or arithmetic: it completes whenever
    SNS accepts the digest. *)
Theorem report_on_collected_log_completes
    py_str cfg i others envs e topic_arn st :
  metrics cfg = data_file cfg ->
  instances cfg = i :: others ->
  file_lines st (metrics cfg) = [] ->
  (forall e', In e' envs -> open_append_error e' (metrics cfg) = None) ->
  envs <> [] ->
  (forall m, publish_error e m = None) ->
  exists st1 st2 digest,
    ticks cfg envs st = (Ok tt, st1)
    /\ send_weekly_summary py_str cfg e topic_arn st1 = (Ok tt, st2)
    /\ published st2
       = (published st1
          ++ [{| TopicArn := topic_arn;
                 Subject := "Weekly EC2 Metrics Summary";
                 Message := digest |}])%list.
Proof.
  intros Hsame Hi Hempty Hopen Hne Hacc.
  destruct (ticks_complete cfg envs st Hopen) as (st1 & Hrun & Hlines).
  rewrite Hempty in Hlines. cbn [app] in Hlines.
  assert (Hfile : dict_get (files st1) (data_file cfg)
                  = Some (map (recorded_line cfg) envs)).
  { rewrite <- Hsame. unfold file_lines in Hlines.
    destruct (dict_get (files st1) (metrics cfg)) as [lines|];
      [now rewrite Hlines|].
    destruct envs; [contradiction|discriminate]. }
  destruct (build_weekly_summary_total (map (recorded_line cfg) envs)
              (stats cfg) []) as [ws Hws].
  { intros stat Hs. eexists. split.
    - exact (stat_values_recorded_lines cfg i others stat envs Hi Hs).
    - apply recorded_values_numbers. }
  pose proof (send_weekly_summary_run py_str cfg e topic_arn st1) as R.
  rewrite Hfile, Hws in R. cbv zeta in R. rewrite Hacc in R.
  destruct R as (st2 & Hsend & P & _).
  exists st1, st2, (format_summary py_str ws). auto.
Qed.

(** X19: a configuration without instances breaks the report: every tick
    writes a line with an empty metrics list, and on a log of such lines
    the report, with any stat configured, ends with [IndexError]; nothing
    is published, logged or notified. *)
Theorem report_without_instances_raises py_str cfg envs e topic_arn st :
  metrics cfg = data_file cfg ->
  instances cfg = [] ->
  stats cfg <> [] ->
  file_lines st (metrics cfg) = [] ->
  (forall e', In e' envs -> open_append_error e' (metrics cfg) = None) ->
  envs <> [] ->
  exists st1,
    ticks cfg envs st = (Ok tt, st1)
    /\ send_weekly_summary py_str cfg e topic_arn st1 = (Raise IndexError, st1).
Proof.
  intros Hsame Hi Hstats Hempty Hopen Hne.
  destruct (ticks_complete cfg envs st Hopen) as (st1 & Hrun & Hlines).
  rewrite Hempty in Hlines. cbn [app] in Hlines.
  exists st1. split; [exact Hrun|].
  assert (Hfile : dict_get (files st1) (data_file cfg)
                  = Some (map (recorded_line cfg) envs)).
  { rewrite <- Hsame. unfold file_lines in Hlines.
    destruct (dict_get (files st1) (metrics cfg)) as [lines|];
      [now rewrite Hlines|].
    destruct envs; [contradiction|discriminate]. }
  pose proof (send_weekly_summary_run py_str cfg e topic_arn st1) as R.
  rewrite Hfile in R.
  destruct envs as [|e0 r]; [contradiction|].
  destruct (stats cfg) as [|s0 ss] eqn:Es; [contradiction|].
  cbn [map build_weekly_summary] in R. unfold summarise_stat in R.
  cbn [stat_values] in R.
  assert (Hfirst : first_instance_stat (recorded_line cfg e0) s0 = Raise IndexError).
  { unfold first_instance_stat, recorded_line. rewrite Hi. reflexivity. }
  rewrite Hfirst in R. exact R.
Qed.

(* ------------------------------------------------------------------ *)
(** ** What the digest depends on *)

Lemma first_instance_stat_first_entry_only entry stat :
  first_instance_stat (first_entry_only entry) stat
  = first_instance_stat entry stat.
Proof.
  destruct entry as [| | | | | |d]; try reflexivity.
  unfold first_entry_only.
  destruct (dict_get d "metrics") as [[| | | | |[|first [|second rest]]|]|] eqn:E;
    try reflexivity.
  unfold first_instance_stat. cbn [getitem].
  now rewrite dict_get_set_same, E.
Qed.

Lemma stat_values_first_entry_only data stat :
  stat_values (map first_entry_only data) stat = stat_values data stat.
Proof.
  induction data as [|entry rest IH]; [reflexivity|].
  cbn [map stat_values].
  now rewrite first_instance_stat_first_entry_only, IH.
Qed.

Lemma build_weekly_summary_first_entry_only data names : forall ws,
  build_weekly_summary (map first_entry_only data) names ws
  = build_weekly_summary data names ws.
Proof.
  induction names as [|n r IH]; intros ws; [reflexivity|].
  cbn [build_weekly_summary]. unfold summarise_stat.
  rewrite stat_values_first_entry_only.
  destruct (stat_values data n) as [[|v vs]|ex]; cbn [and_then]; auto.
  destruct (summarise (v :: vs)); cbn [and_then]; auto.
Qed.

(** X20: the digest depends on the first instance entry of each line
    only: with every later entry removed from every line of the log, the
    report ends the same way and publishes the same messages. *)
Theorem report_ignores_other_instances py_str cfg e topic_arn st data :
  dict_get (files st) (data_file cfg) = Some data ->
  let cut := with_file st (data_file cfg) (map first_entry_only data) in
  fst (send_weekly_summary py_str cfg e topic_arn cut)
  = fst (send_weekly_summary py_str cfg e topic_arn st)
  /\ published (snd (send_weekly_summary py_str cfg e topic_arn cut))
     = published (snd (send_weekly_summary py_str cfg e topic_arn st)).
Proof.
  intros Hfile cut.
  pose proof (send_weekly_summary_run py_str cfg e topic_arn st) as R.
  pose proof (send_weekly_summary_run py_str cfg e topic_arn cut) as R'.
  assert (Hcut : dict_get (files cut) (data_file cfg)
                 = Some (map first_entry_only data)).
  { unfold cut, with_file. cbn [files]. apply dict_get_set_same. }
  rewrite Hfile in R. rewrite Hcut, build_weekly_summary_first_entry_only in R'.
  destruct (build_weekly_summary data (stats cfg) []) as [ws|ex].
  - cbv zeta in R, R'. destruct (publish_error e _) as [msg|].
    + destruct R as (st1 & -> & P & _). destruct R' as (st2 & -> & P' & _).
      split; [reflexivity|]. cbn [snd]. now rewrite P, P'.
    + destruct R as (st1 & -> & P & _). destruct R' as (st2 & -> & P' & _).
      split; [reflexivity|]. cbn [snd]. now rewrite P, P'.
  - rewrite R, R'. split; reflexivity.
Qed.

Lemma dict_keys_set_new {V} (d : dict V) k v :
  ~ In k (dict_keys d) -> dict_keys (dict_set d k v) = (dict_keys d ++ [k])%list.
Proof.
  unfold dict_keys. induction d as [|[k0 v0] r IH]; intros Hnot; cbn.
  - reflexivity.
  - cbn in Hnot. destruct (String.eqb k0 k) eqn:E.
    + apply String.eqb_eq in E. tauto.
    + cbn. rewrite IH by tauto. reflexivity.
Qed.

Lemma build_weekly_summary_order data names : forall ws0 ws,
  NoDup names ->
  (forall n, In n names -> ~ In n (dict_keys ws0)) ->
  build_weekly_summary data names ws0 = Ok ws ->
  dict_keys ws = (dict_keys ws0 ++ filter (has_values data) names)%list.
Proof.
  induction names as [|n r IH]; intros ws0 ws Hnd Hfresh H.
  - cbn in H. injection H as <-. cbn. now rewrite app_nil_r.
  - inversion Hnd as [|? ? Hn Hr]; subst.
    cbn [build_weekly_summary] in H. unfold and_then in H.
    destruct (summarise_stat data ws0 n) as [ws1|] eqn:E1; [|discriminate].
    destruct (summarise_stat_spec _ _ _ _ E1) as (values & Hv & Hcase).
    cbn [filter]. unfold has_values at 1. rewrite Hv.
    destruct Hcase as [[-> ->]|(Hne & s & _ & ->)].
    + apply IH; auto. intros m Hm. apply Hfresh. now right.
    + destruct values as [|v vs]; [contradiction|].
      assert (Hfresh1 : forall m, In m r -> ~ In m (dict_keys (dict_set ws0 n s))).
      { intros m Hm Hin. apply dict_keys_set in Hin.
        destruct Hin as [->|Hin]; [contradiction|].
        apply (Hfresh m); [now right|exact Hin]. }
      rewrite (IH _ _ Hr Hfresh1 H).
      rewrite dict_keys_set_new by (apply Hfresh; now left).
      now rewrite <- app_assoc.
Qed.

(** X21: the sections of the digest follow config['stats']: with no stat
    configured twice, the stats that have a section are, in the order of
    the configuration, exactly those for which the report finds a value. *)
Theorem digest_sections_follow_config py_str cfg e topic_arn st st' :
  NoDup (stats cfg) ->
  send_weekly_summary py_str cfg e topic_arn st = (Ok tt, st') ->
  exists weekly_summary,
    published st'
    = (published st
       ++ [{| TopicArn := topic_arn;
              Subject := "Weekly EC2 Metrics Summary";
              Message := ("Weekly Summary:" ++ LF)
                         ++ String.concat ""
                              (map (summary_section py_str) weekly_summary) |}])%list
    /\ dict_keys weekly_summary
       = filter (has_values (file_lines st (data_file cfg))) (stats cfg).
Proof.
  intros Hnd H.
  pose proof (send_weekly_summary_run py_str cfg e topic_arn st) as R.
  unfold file_lines.
  destruct (dict_get (files st) (data_file cfg)) as [data|];
    [|destruct R as [msg R]; congruence].
  destruct (build_weekly_summary data (stats cfg) []) as [ws|ex] eqn:B;
    [|congruence].
  cbv zeta in R.
  destruct (publish_error e _) as [msg|];
    [destruct R as (st2 & R & _); congruence|].
  destruct R as (st2 & R & P & _).
  assert (st2 = st') by congruence. subst st2.
  exists ws. split; [now rewrite P, format_summary_sections|].
  apply (build_weekly_summary_order data (stats cfg) [] ws Hnd); auto.
Qed.

(* ------------------------------------------------------------------ *)
(** ** Alarm names *)

#[local] Arguments String.append : simpl nomatch.

Lemma string_length_app (a b : string) :
  String.length (a ++ b) = (String.length a + String.length b)%nat.
Proof. induction a as [|c a IH]; cbn; [reflexivity|now rewrite IH]. Qed.

Lemma string_app_cancel_r (a b t : string) : a ++ t = b ++ t -> a = b.
Proof.
  revert b. induction a as [|c a IH]; intros [|d b] H; cbn in H.
  - reflexivity.
  - exfalso. apply (f_equal String.length) in H. cbn in H.
    rewrite string_length_app in H. lia.
  - exfalso. apply (f_equal String.length) in H. cbn in H.
    rewrite string_length_app in H. lia.
  - injection H as -> H. f_equal. now apply IH.
Qed.

(** Two texts that agree once a suffix is put after each: the shorter
    suffix ends the longer. *)
Lemma string_app_split (a b c d : string) :
  a ++ b = c ++ d -> (String.length a <= String.length c)%nat ->
  exists m, c = a ++ m /\ b = m ++ d.
Proof.
  revert c. induction a as [|x a IH]; intros c H Hlen.
  - exists c. cbn in *. auto.
  - destruct c as [|y c]; [cbn in Hlen; lia|].
    cbn in H. injection H as -> H.
    destruct (IH c H) as (m & -> & ->); [cbn in Hlen; lia|].
    exists m. auto.
Qed.

Lemma amber_red_suffixes_differ (s s' : string) :
  s ++ "_Amber_Alarm" <> s' ++ "_Red_Alarm".
Proof.
  intros H.
  assert (Hlen : String.length s' = (String.length s + 2)%nat).
  { apply (f_equal String.length) in H. rewrite !string_length_app in H.
    cbn in H. lia. }
  destruct (string_app_split s "_Amber_Alarm" s' "_Red_Alarm" H) as (m & -> & Hm);
    [lia|].
  rewrite string_length_app in Hlen.
  destruct m as [|x [|y [|z m]]]; cbn in Hlen; try lia.
  cbn in Hm. discriminate.
Qed.

Lemma split_at_first_underscore (i i' r r' : string) :
  no_underscore i = true -> no_underscore i' = true ->
  i ++ String "_" r = i' ++ String "_" r' -> i = i' /\ r = r'.
Proof.
  revert i'. induction i as [|c i IH]; intros [|d i'] Hi Hi' H; cbn in *.
  - injection H as ->. auto.
  - injection H as <- _. rewrite Ascii.eqb_refl in Hi'. discriminate.
  - injection H as -> _. rewrite Ascii.eqb_refl in Hi. discriminate.
  - injection H as -> H.
    apply andb_true_iff in Hi. apply andb_true_iff in Hi'.
    destruct (IH i' (proj2 Hi) (proj2 Hi') H) as [-> ->]. auto.
Qed.

#[local] Arguments String.append : simpl never.

(** Every alarm one round of the inner loop registers is one of the two of
    its pair, whatever the outcome of the round. *)
Lemma create_alarms_for_registered cfg e topic_arn i s st :
  exists registered,
    alarms (snd (create_alarms_for cfg e topic_arn i s st))
    = (alarms st ++ registered)%list
    /\ forall a, In a registered -> requested_for cfg topic_arn i s a.
Proof.
  assert (Hnotify : forall text st0,
            alarms (snd (notify_stakeholders cfg e text st0)) = alarms st0).
  { intros text st0. apply notify_stakeholders_preserves_alarms. }
  unfold create_alarms_for, try_except, bind, lift, cloudwatch_put_metric_alarm.
  destruct (config_threshold cfg s "amber") as [amber|ex1] eqn:Ea.
  2:{ exists []. split; [|intros ? []].
      destruct (config_threshold_raises _ _ _ _ Ea) as [-> | ->]; cbn [snd];
        now rewrite app_nil_r. }
  destruct (put_metric_alarm_error e _) as [msg1|].
  { exists []. split; [|intros ? []].
    cbn [exn_str logging_error logging raise].
    match goal with
    | |- context [notify_stakeholders cfg e ?t ?s0] =>
        pose proof (Hnotify t s0) as Hn;
        destruct (notify_stakeholders_reports cfg e t s0) as (st2 & Hr & _)
    end.
    rewrite Hr in *. unfold raise. cbn [snd] in *. rewrite Hn. cbn [alarms].
    now rewrite app_nil_r. }
  cbn [alarms].
  destruct (config_threshold cfg s "red") as [red|ex2] eqn:Er.
  2:{ eexists [_]. split.
      - destruct (config_threshold_raises _ _ _ _ Er) as [-> | ->];
          cbn [snd alarms]; reflexivity.
      - intros a [<-|[]]. left. eauto. }
  destruct (put_metric_alarm_error e _) as [msg2|].
  { eexists [_]. split.
    - cbn [exn_str logging_error logging raise].
      match goal with
      | |- context [notify_stakeholders cfg e ?t ?s0] =>
          pose proof (Hnotify t s0) as Hn;
          destruct (notify_stakeholders_reports cfg e t s0) as (st2 & Hr & _)
      end.
      rewrite Hr in *. unfold raise. cbn [snd] in *. rewrite Hn. cbn [alarms].
      reflexivity.
    - intros a [<-|[]]. left. eauto. }
  eexists [_; _]. split.
  - cbn [logging_debug logging snd alarms]. now rewrite <- app_assoc.
  - intros a [<-|[<-|[]]]; [left|right]; eauto.
Qed.

Lemma for_each_registered {A} (P : A -> alarm -> Prop) (body : A -> M unit) l :
  (forall x st, exists registered,
      alarms (snd (body x st)) = (alarms st ++ registered)%list
      /\ forall a, In a registered -> P x a) ->
  forall st, exists registered,
    alarms (snd (for_each l body st)) = (alarms st ++ registered)%list
    /\ forall a, In a registered -> exists x, In x l /\ P x a.
Proof.
  intros Hbody. induction l as [|x r IH]; intros st.
  - exists []. split; [symmetry; apply app_nil_r|intros ? []].
  - cbn [for_each]. unfold bind.
    destruct (Hbody x st) as (l1 & L1 & P1).
    destruct (body x st) as [[[]|ex] st1]; cbn [snd] in *.
    + destruct (IH st1) as (l2 & L2 & P2).
      exists (l1 ++ l2)%list. split; [now rewrite L2, L1, app_assoc|].
      intros a Ha. apply in_app_or in Ha. destruct Ha as [Ha|Ha].
      * exists x. split; [now left|auto].
      * destruct (P2 a Ha) as (y & Hy & Py). exists y. split; [now right|auto].
    + exists l1. split; [exact L1|].
      intros a Ha. exists x. split; [now left|auto].
Qed.

(** Whatever its outcome, [create_alarms] registers only alarms of
    configured pairs. *)
Lemma create_alarms_registered cfg e topic_arn st :
  exists registered,
    alarms (snd (create_alarms cfg e topic_arn st)) = (alarms st ++ registered)%list
    /\ forall a, In a registered ->
         exists i s, In i (instances cfg) /\ In s (stats cfg)
                     /\ requested_for cfg topic_arn i s a.
Proof.
  unfold create_alarms.
  destruct (for_each_registered
              (fun i a => exists s, In s (stats cfg)
                                    /\ requested_for cfg topic_arn i s a)
              (fun instance_id =>
                 for_each (stats cfg) (fun stat =>
                   create_alarms_for cfg e topic_arn instance_id stat))
              (instances cfg)) with (st := st) as (registered & L & P).
  { intros i st0.
    apply (for_each_registered (requested_for cfg topic_arn i)).
    intros s st1. apply create_alarms_for_registered. }
  exists registered. split; [exact L|].
  intros a Ha. destruct (P a Ha) as (i & Hi & s & Hs & Hreq). eauto 6.
Qed.

#[local] Arguments String.append : simpl nomatch.

Lemma requested_for_same_name cfg topic_arn i s i' s' a a' :
  no_underscore i = true ->
  no_underscore i' = true ->
  requested_for cfg topic_arn i s a ->
  requested_for cfg topic_arn i' s' a' ->
  AlarmName a = AlarmName a' ->
  a = a'.
Proof.
  intros Hi Hi' Ha Ha' Hname.
  assert (Hsplit : forall t t',
            i ++ "_" ++ s ++ t = i' ++ "_" ++ s' ++ t' ->
            i = i' /\ s ++ t = s' ++ t').
  { intros t t' H. exact (split_at_first_underscore i i' _ _ Hi Hi' H). }
  destruct Ha as [(thr & Ht & ->)|(thr & Ht & ->)];
    destruct Ha' as [(thr' & Ht' & ->)|(thr' & Ht' & ->)];
    cbn [AlarmName metric_alarm] in Hname;
    destruct (Hsplit _ _ Hname) as [-> Hs].
  - apply string_app_cancel_r in Hs. subst. congruence.
  - exfalso. exact (amber_red_suffixes_differ _ _ Hs).
  - exfalso. symmetry in Hs. exact (amber_red_suffixes_differ _ _ Hs).
  - apply string_app_cancel_r in Hs. subst. congruence.
Qed.

(** X22: alarm names identify the alarm as long as instance ids have no
    underscore: of the alarms [create_alarms] registers, whatever its
    outcome, two that differ (in instance, stat, tier or threshold) have
    different names, so no request replaces the alarm of another. *)
Theorem alarm_names_identify_alarms cfg e topic_arn st :
  (forall i, In i (instances cfg) -> no_underscore i = true) ->
  exists registered,
    alarms (snd (create_alarms cfg e topic_arn st)) = (alarms st ++ registered)%list
    /\ forall a a',
         In a registered -> In a' registered ->
         a <> a' -> AlarmName a <> AlarmName a'.
Proof.
  intros Hids.
  destruct (create_alarms_registered cfg e topic_arn st) as (registered & L & P).
  exists registered. split; [exact L|].
  intros a a' Ha Ha' Hne Hname. apply Hne.
  destruct (P a Ha) as (i & s & Hi & _ & Hreq).
  destruct (P a' Ha') as (i' & s' & Hi' & _ & Hreq').
  exact (requested_for_same_name cfg topic_arn i s i' s' a a'
           (Hids i Hi) (Hids i' Hi') Hreq Hreq' Hname).
Qed.

(* ------------------------------------------------------------------ *)
(** ** Timestamps as texts *)

Lemma ascii_compare_digit a b :
  Ascii.compare (digit a) (digit b) = (a mod 10 ?= b mod 10)%N.
Proof.
  unfold Ascii.compare, digit.
  assert (Ha : (a mod 10 < 10)%N) by (apply N.mod_lt; discriminate).
  assert (Hb : (b mod 10 < 10)%N) by (apply N.mod_lt; discriminate).
  revert Ha Hb. generalize (a mod 10)%N (b mod 10)%N. intros x y Hx Hy.
  rewrite !N_ascii_embedding by lia.
  destruct (N.compare_spec x y) as [E|L|G];
    [apply N.compare_eq_iff|apply N.compare_lt_iff|apply N.compare_gt_iff]; lia.
Qed.

Lemma compare_by_digits a b :
  (match a / 10 ?= b / 10 with
   | Eq => a mod 10 ?= b mod 10
   | c => c
   end = (a ?= b))%N.
Proof.
  pose proof (N.div_mod a 10) as Ha. pose proof (N.div_mod b 10) as Hb.
  assert (Hma : (a mod 10 < 10)%N) by (apply N.mod_lt; discriminate).
  assert (Hmb : (b mod 10 < 10)%N) by (apply N.mod_lt; discriminate).
  revert Ha Hb Hma Hmb.
  generalize (a / 10)%N (a mod 10)%N (b / 10)%N (b mod 10)%N.
  intros qa ra qb rb Ha Hb Hma Hmb.
  specialize (Ha ltac:(discriminate)). specialize (Hb ltac:(discriminate)).
  symmetry.
  destruct (N.compare_spec qa qb) as [E|L|G].
  - subst qb. destruct (N.compare_spec ra rb) as [E'|L'|G'].
    + apply N.compare_eq_iff. lia.
    + apply N.compare_lt_iff. lia.
    + apply N.compare_gt_iff. lia.
  - apply N.compare_lt_iff. lia.
  - apply N.compare_gt_iff. lia.
Qed.

Lemma compare_zero_pad w : forall a b r1 r2,
  (a < 10 ^ N.of_nat w)%N -> (b < 10 ^ N.of_nat w)%N ->
  String.compare (zero_pad w a ++ r1) (zero_pad w b ++ r2)
  = match (a ?= b)%N with
    | Eq => String.compare r1 r2
    | c => c
    end.
Proof.
  induction w as [|w IH]; intros a b r1 r2 Ha Hb.
  - cbn in Ha, Hb. replace a with 0%N by lia. replace b with 0%N by lia.
    reflexivity.
  - cbn [zero_pad]. rewrite !string_app_assoc.
    rewrite Nat2N.inj_succ, N.pow_succ_r' in Ha, Hb.
    rewrite IH by (apply N.Div0.div_lt_upper_bound; assumption).
    cbn [String.append String.compare]. rewrite ascii_compare_digit.
    rewrite <- (compare_by_digits a b).
    destruct (a / 10 ?= b / 10)%N; try reflexivity.
Qed.

Lemma compare_same_head c r1 r2 :
  String.compare (String c "" ++ r1) (String c "" ++ r2) = String.compare r1 r2.
Proof.
  cbn. unfold Ascii.compare. now rewrite N.compare_refl.
Qed.

Lemma compare2 a b r1 r2 :
  (a < 100)%N -> (b < 100)%N ->
  String.compare (zero_pad 2 a ++ r1) (zero_pad 2 b ++ r2)
  = match (a ?= b)%N with Eq => String.compare r1 r2 | c => c end.
Proof. intros. now apply compare_zero_pad. Qed.

Lemma compare_fraction ua ub :
  (ua < 1000000)%N -> (ub < 1000000)%N ->
  String.compare
    (if (ua =? 0)%N then "" else "." ++ zero_pad 6 ua)
    (if (ub =? 0)%N then "" else "." ++ zero_pad 6 ub)
  = (ua ?= ub)%N.
Proof.
  intros Ha Hb.
  destruct (N.eqb_spec ua 0) as [->|Na]; destruct (N.eqb_spec ub 0) as [->|Nb].
  - reflexivity.
  - replace (0 ?= ub)%N with Lt by (symmetry; apply N.compare_lt_iff; lia).
    reflexivity.
  - replace (ua ?= 0)%N with Gt by (symmetry; apply N.compare_gt_iff; lia).
    reflexivity.
  - rewrite compare_same_head.
    rewrite <- (string_app_nil_r (zero_pad 6 ua)),
            <- (string_app_nil_r (zero_pad 6 ub)).
    rewrite compare_zero_pad by assumption.
    now destruct (ua ?= ub)%N.
Qed.

Lemma datetime_str_compare_fields a b :
  datetime_valid a = true -> datetime_valid b = true ->
  String.compare (datetime_str a) (datetime_str b) = datetime_compare a b.
Proof.
  intros Va Vb.
  destruct (datetime_valid_bounds a Va) as (Hy & Hmo & Hd & Hh & Hmi & Hs & Hus).
  destruct (datetime_valid_bounds b Vb) as (Hy' & Hmo' & Hd' & Hh' & Hmi' & Hs' & Hus').
  unfold datetime_str, isoformat, datetime_compare.
  rewrite (compare_zero_pad 4) by assumption.
  destruct (year a ?= year b)%N; try reflexivity.
  rewrite compare_same_head, compare2 by assumption.
  destruct (month a ?= month b)%N; try reflexivity.
  rewrite compare_same_head, compare2 by assumption.
  destruct (day a ?= day b)%N; try reflexivity.
  rewrite compare_same_head, compare2 by assumption.
  destruct (hour a ?= hour b)%N; try reflexivity.
  rewrite compare_same_head, compare2 by assumption.
  destruct (minute a ?= minute b)%N; try reflexivity.
  rewrite compare_same_head, compare2 by assumption.
  destruct (second a ?= second b)%N; try reflexivity.
  now apply compare_fraction.
Qed.

Lemma datetime_compare_ordinal a b :
  datetime_valid a = true -> datetime_valid b = true ->
  datetime_compare a b = (datetime_ordinal a ?= datetime_ordinal b)%N.
Proof.
  unfold datetime_valid. rewrite !andb_true_iff, !N.leb_le, !N.ltb_lt.
  intros Va Vb. unfold datetime_compare, datetime_ordinal. symmetry.
  destruct a as [y mo d h mi s us], b as [y' mo' d' h' mi' s' us'].
  cbn [year month day hour minute second microsecond] in *.
  repeat match goal with
         | |- context [(?x ?= ?y)%N] =>
             is_var x; is_var y;
             destruct (N.compare_spec x y);
             [subst|apply N.compare_lt_iff; lia|apply N.compare_gt_iff; lia]
         end.
  apply N.compare_refl.
Qed.

#[local] Arguments String.append : simpl never.

(** X23: timestamps compare as texts the way the instants compare in
    time: for two valid collection instants the lexicographic comparison
    of the two [str] texts (the one Python makes on strings) is the
    comparison of the instants.  Sorting log lines by the timestamp field
    sorts them by time, and equal texts mean equal instants. *)
Theorem timestamps_compare_as_instants a b :
  datetime_valid a = true -> datetime_valid b = true ->
  String.compare (datetime_str a) (datetime_str b)
  = (datetime_ordinal a ?= datetime_ordinal b)%N
  /\ (datetime_str a = datetime_str b -> a = b).
Proof.
  intros Va Vb. split.
  - now rewrite datetime_str_compare_fields, datetime_compare_ordinal.
  - intros H. pose proof (parse_datetime_str a Va) as Pa.
    pose proof (parse_datetime_str b Vb) as Pb. congruence.
Qed.

(* ------------------------------------------------------------------ *)
(** ** Further sample runs, checked *)

Lemma create_alarms_stops_at_first_refusal_witness :
  exists st',
    create_alarms two_instances refusing_red "arn:aws:sns:ec2-alerts" fresh
    = (Raise (ClientError "LimitExceeded"), st')
    /\ map AlarmName (alarms st') = ["i-1_CPUUtilization_Amber_Alarm"]
    /\ map Message (published st')
       = ["Error creating CloudWatch alarm for CPUUtilization on i-1: LimitExceeded"].
Proof.
  destruct (create_alarms_stops_at_first_refusal two_instances refusing_red
              "arn:aws:sns:ec2-alerts" (fun _ => VInt 70) (fun _ => VInt 90) fresh)
    as (st' & A & _ & _ & H).
  - intros s [<-|[<-|[]]]; exists amber_red; repeat split; reflexivity.
  - cbn in H. destruct H as (Hrun & _ & P).
    exists st'. split; [exact Hrun|]. rewrite A, P. split; reflexivity.
Defined.

Lemma create_alarms_missing_threshold_witness :
  exists key st',
    create_alarms (sample_config [("amber", VInt 70)] "metrics.json" "metrics.json")
                  (calm midnight no_data) "arn:aws:sns:ec2-alerts" fresh
    = (Raise (KeyError key), st')
    /\ published st' = published fresh.
Proof.
  apply (create_alarms_missing_threshold
           (sample_config [("amber", VInt 70)] "metrics.json" "metrics.json")
           (calm midnight no_data) "arn:aws:sns:ec2-alerts" fresh
           "CPUUtilization" (KeyError "red")).
  - discriminate.
  - now left.
  - right. reflexivity.
  - reflexivity.
Defined.


Lemma main_setup_client_error_notified_twice_witness :
  exists what st',
    main plain_str one_file no_topic [] fresh = (Ok tt, st')
    /\ map Message (published st')
       = [what ++ ": AuthorizationError"; "Setup failed: AuthorizationError"].
Proof.
  destruct (main_setup_client_error_notified_twice plain_str one_file no_topic []
              fresh "AuthorizationError" (snd (setup one_file no_topic fresh)))
    as (what & st' & Hmain & P).
  - reflexivity.
  - exists what, st'. split; [exact Hmain|]. rewrite P. reflexivity.
Defined.

Lemma setup_wires_the_topic_witness :
  exists st1,
    setup two_instances (calm midnight no_data) fresh
    = (Ok "arn:aws:sns:ec2-alerts", st1)
    /\ subscriptions st1 = [("arn:aws:sns:ec2-alerts", "ops@example.org")]
    /\ length (alarms st1) = 8%nat
    /\ published st1 = [].
Proof.
  destruct (setup_wires_the_topic plain_str two_instances (calm midnight no_data)
              (fun _ => VInt 70) (fun _ => VInt 90) "arn:aws:sns:ec2-alerts"
              [] fresh)
    as (st1 & Hsetup & S & A & _ & P & _).
  - reflexivity.
  - reflexivity.
  - intros s [<-|[<-|[]]]; exists amber_red; repeat split; reflexivity.
  - reflexivity.
  - exists st1. split; [exact Hsetup|]. split; [exact S|].
    split; [now rewrite A|exact P].
Defined.

(** The weekly summary is due first and there is no log yet: the loop ends
    before the tick that is due with it. *)
Lemma scheduler_loop_ends_at_first_exception_witness :
  let e := calm midnight (steady [10]) in
  exists msg,
    scheduler_loop plain_str one_file "arn:aws:sns:ec2-alerts"
      [[(send_weekly_summary_job, e); (record_metrics_job, e)]] fresh
    = (Raise (IOError msg), fresh).
Proof.
  intros e. eexists.
  apply (scheduler_loop_ends_at_first_exception plain_str one_file
           "arn:aws:sns:ec2-alerts" [] [] send_weekly_summary_job e
           [(record_metrics_job, e)] [] fresh fresh fresh); reflexivity.
Defined.

Lemma send_weekly_summary_missing_file_witness :
  exists msg,
    send_weekly_summary plain_str two_files (calm midnight no_data)
                        "arn:aws:sns:ec2-alerts" fresh
    = (Raise (IOError msg), fresh).
Proof.
  apply (send_weekly_summary_missing_file plain_str two_files
           (calm midnight no_data) "arn:aws:sns:ec2-alerts" fresh).
  reflexivity.
Defined.

Lemma send_weekly_summary_publish_refused_witness :
  let st := snd (ticks one_file three_ticks fresh) in
  exists st',
    send_weekly_summary plain_str one_file digest_refused
                        "arn:aws:sns:ec2-alerts" st
    = (Raise (ClientError "Throttling"), st')
    /\ map Message (published st') = ["Error sending weekly summary: Throttling"]
    /\ In (LogText ERROR "Error sending weekly summary: Throttling") (log st').
Proof.
  intros st.
  destruct (send_weekly_summary_publish_refused plain_str one_file digest_refused
              "arn:aws:sns:ec2-alerts" st
              (map (recorded_line one_file) three_ticks)
              [("CPUUtilization",
                {| high := VFloat 30; low := VFloat 10; average := 20 |})]
              "Throttling")
    as (st' & Hrun & P & (l & L) & _).
  - reflexivity.
  - reflexivity.
  - reflexivity.
  - exists st'. split; [exact Hrun|]. split; [rewrite P; reflexivity|].
    rewrite L. apply in_or_app. right. now left.
Defined.

(** Three ticks without data, then the report. *)
Lemma send_weekly_summary_nothing_to_report_witness :
  let quiet := [calm midnight no_data; calm one_minute_later no_data;
                calm two_minutes_later throttled] in
  let st := snd (ticks one_file quiet fresh) in
  exists st',
    send_weekly_summary plain_str one_file (calm midnight no_data)
                        "arn:aws:sns:ec2-alerts" st
    = (Ok tt, st')
    /\ published st'
       = (published st
          ++ [{| TopicArn := "arn:aws:sns:ec2-alerts";
                 Subject := "Weekly EC2 Metrics Summary";
                 Message := "Weekly Summary:" ++ LF |}])%list.
Proof.
  intros quiet st.
  apply (send_weekly_summary_nothing_to_report plain_str one_file
           (calm midnight no_data) "arn:aws:sns:ec2-alerts" st
           (map (recorded_line one_file) quiet)).
  - reflexivity.
  - intros entry stat [<-|[<-|[<-|[]]]] [<-|[]]; reflexivity.
  - reflexivity.
Defined.

Lemma send_weekly_summary_non_number_witness :
  send_weekly_summary plain_str one_file (calm midnight no_data)
                      "arn:aws:sns:ec2-alerts" text_in_log
  = (Raise TypeError, text_in_log).
Proof.
  apply (send_weekly_summary_non_number plain_str one_file (calm midnight no_data)
           "arn:aws:sns:ec2-alerts" text_in_log
           (file_lines text_in_log "metrics.json") "CPUUtilization"
           [VStr "n/a"] (VStr "n/a")).
  - reflexivity.
  - repeat constructor.
    eexists _, _, _. split; [reflexivity|]. split; [reflexivity|].
    intros stat [<-|[]]. discriminate.
  - now left.
  - reflexivity.
  - now left.
  - reflexivity.
Defined.

Lemma report_reads_first_instance_records_witness :
  let envs := [calm midnight uneven; calm one_minute_later uneven] in
  exists st',
    ticks two_instances envs fresh = (Ok tt, st')
    /\ stat_values (file_lines st' "metrics.json") "CPUUtilization"
       = Ok [VFloat 10; VFloat 10]
    /\ stat_values (file_lines st' "metrics.json") "NetworkIn" = Ok [].
Proof.
  intros envs.
  destruct (report_reads_first_instance_records two_instances "i-1" ["i-2"]
              "CPUUtilization" envs fresh)
    as (st' & Hrun & Hcpu).
  - reflexivity.
  - reflexivity.
  - now left.
  - reflexivity.
  - intros e [<-|[<-|[]]]; reflexivity.
  - exists st'. split; [exact Hrun|]. split; [exact Hcpu|].
    assert (st' = snd (ticks two_instances envs fresh)) as ->
      by (now rewrite Hrun).
    reflexivity.
Defined.

Lemma report_on_collected_log_completes_witness :
  let envs := [calm midnight uneven; calm one_minute_later throttled] in
  exists st1 st2 digest,
    ticks two_instances envs fresh = (Ok tt, st1)
    /\ send_weekly_summary plain_str two_instances (calm midnight no_data)
                           "arn:aws:sns:ec2-alerts" st1
       = (Ok tt, st2)
    /\ published st2
       = (published st1
          ++ [{| TopicArn := "arn:aws:sns:ec2-alerts";
                 Subject := "Weekly EC2 Metrics Summary";
                 Message := digest |}])%list.
Proof.
  intros envs.
  apply (report_on_collected_log_completes plain_str two_instances "i-1" ["i-2"]
           envs (calm midnight no_data) "arn:aws:sns:ec2-alerts" fresh).
  - reflexivity.
  - reflexivity.
  - reflexivity.
  - intros e [<-|[<-|[]]]; reflexivity.
  - discriminate.
  - reflexivity.
Defined.

Lemma report_without_instances_raises_witness :
  exists st1,
    ticks no_instances three_ticks fresh = (Ok tt, st1)
    /\ send_weekly_summary plain_str no_instances (calm midnight no_data)
                           "arn:aws:sns:ec2-alerts" st1
       = (Raise IndexError, st1).
Proof.
  apply (report_without_instances_raises plain_str no_instances three_ticks
           (calm midnight no_data) "arn:aws:sns:ec2-alerts" fresh).
  - reflexivity.
  - reflexivity.
  - discriminate.
  - reflexivity.
  - intros e [<-|[<-|[<-|[]]]]; reflexivity.
  - discriminate.
Defined.

(** i-2 reads 90 throughout, and the digest reports a high of 10. *)
Lemma report_ignores_other_instances_witness :
  let envs := [calm midnight uneven; calm one_minute_later uneven] in
  let st := snd (ticks two_instances envs fresh) in
  let e := calm midnight no_data in
  let cut := with_file st "metrics.json"
               (map first_entry_only (file_lines st "metrics.json")) in
  published (snd (send_weekly_summary plain_str two_instances e
                    "arn:aws:sns:ec2-alerts" cut))
  = published (snd (send_weekly_summary plain_str two_instances e
                      "arn:aws:sns:ec2-alerts" st))
  /\ map Message
       (published (snd (send_weekly_summary plain_str two_instances e
                          "arn:aws:sns:ec2-alerts" st)))
     = [("Weekly Summary:" ++ LF)
        ++ summary_section plain_str
             ("CPUUtilization",
              {| high := VFloat 10; low := VFloat 10; average := 10 |})].
Proof.
  intros envs st e cut.
  destruct (report_ignores_other_instances plain_str two_instances e
              "arn:aws:sns:ec2-alerts" st (file_lines st "metrics.json"))
    as [_ P].
  - reflexivity.
  - split; [exact P|reflexivity].
Defined.

Lemma digest_sections_follow_config_witness :
  let envs := [calm midnight uneven; calm one_minute_later uneven] in
  let st := snd (ticks two_instances envs fresh) in
  exists st' (weekly_summary : dict summary),
    send_weekly_summary plain_str two_instances (calm midnight no_data)
                        "arn:aws:sns:ec2-alerts" st
    = (Ok tt, st')
    /\ dict_keys weekly_summary
       = filter (has_values (file_lines st "metrics.json"))
                ["CPUUtilization"; "NetworkIn"]
    /\ filter (has_values (file_lines st "metrics.json"))
              ["CPUUtilization"; "NetworkIn"]
       = ["CPUUtilization"].
Proof.
  intros envs st.
  pose (st' := snd (send_weekly_summary plain_str two_instances
                      (calm midnight no_data) "arn:aws:sns:ec2-alerts" st)).
  assert (Hrun : send_weekly_summary plain_str two_instances
                   (calm midnight no_data) "arn:aws:sns:ec2-alerts" st
                 = (Ok tt, st')) by reflexivity.
  destruct (digest_sections_follow_config plain_str two_instances
              (calm midnight no_data) "arn:aws:sns:ec2-alerts" st st')
    as (ws & _ & Hkeys).
  - repeat constructor; cbn; intuition discriminate.
  - exact Hrun.
  - exists st', ws. split; [exact Hrun|]. split; [exact Hkeys|reflexivity].
Defined.

Lemma alarm_names_identify_alarms_witness :
  let run := create_alarms two_instances (calm midnight no_data)
                           "arn:aws:sns:ec2-alerts" fresh in
  let a := metric_alarm "i-1_CPUUtilization_Amber_Alarm" "CPUUtilization" "i-1"
                        (VInt 70) ["arn:aws:sns:ec2-alerts"] in
  let a' := metric_alarm "i-2_NetworkIn_Red_Alarm" "NetworkIn" "i-2"
                         (VInt 90) ["arn:aws:sns:ec2-alerts"] in
  length (alarms (snd run)) = 8%nat
  /\ In a (alarms (snd run)) /\ In a' (alarms (snd run))
  /\ AlarmName a <> AlarmName a'.
Proof.
  intros run a a'.
  destruct (alarm_names_identify_alarms two_instances (calm midnight no_data)
              "arn:aws:sns:ec2-alerts" fresh)
    as (registered & L & Hnames).
  - intros i [<-|[<-|[]]]; reflexivity.
  - change (alarms fresh ++ registered)%list with registered in L.
    fold run in L. rewrite L.
    assert (Hin : In a registered /\ In a' registered).
    { rewrite <- L. split; vm_compute; tauto. }
    split; [now rewrite <- L|]. split; [apply Hin|]. split; [apply Hin|].
    apply Hnames; [apply Hin|apply Hin|discriminate].
Defined.

(** With an underscore in an instance id two pairs can share their alarm
    names. *)
Example alarm_names_collide_with_underscore :
  map AlarmName (alarm_pair "arn" (fun _ => VInt 70) (fun _ => VInt 90)
                            "a_b" "c")
  = map AlarmName (alarm_pair "arn" (fun _ => VInt 70) (fun _ => VInt 90)
                              "a" "b_c").
Proof. reflexivity. Qed.

Lemma timestamps_compare_as_instants_witness :
  String.compare "2024-01-01 00:00:00" "2024-01-01 00:01:00.250000" = Lt
  /\ datetime_str midnight = "2024-01-01 00:00:00"
  /\ datetime_str one_minute_later = "2024-01-01 00:01:00.250000".
Proof.
  destruct (timestamps_compare_as_instants midnight one_minute_later)
    as [Hcmp _].
  - reflexivity.
  - reflexivity.
  - split; [|split; reflexivity].
    change "2024-01-01 00:00:00" with (datetime_str midnight).
    change "2024-01-01 00:01:00.250000" with (datetime_str one_minute_later).
    rewrite Hcmp. reflexivity.
Defined.
